(** * Label detection and box geometry of functions/api/process.js

    A shallow embedding of the helper functions of the label tool
    ([getTextItemsWithCoords], [findLabelsByFnsku], [findTextInLabel]) and of
    the two [onRequest] handlers, followed by the properties the specification states about
    them (C1 to C10) and by further properties of the code.

    Numbers.  There are two models of a JavaScript number.  The first is the
    value: a rational, one of the two infinities, or NaN, with exact
    arithmetic; it serves where a property is about which expression the
    code computes, about counting or about strings.  The second, in module
    [B64], is the binary64 number itself, with the rounding of every
    operation; the clusterer and the removal area are given on it as well,
    and the properties that depend on the outcome of a comparison or on the
    value of a computed sum are stated there.

    Strings.  A JavaScript string is the list of its UTF-16 code units.

    Host functions.  [toLowerCase], [parseFloat], [parseInt], [JSON.parse],
    the font's [widthOfTextAtSize] and the document library belong to the
    host or to the library; the functions that use them take them as
    parameters.

    Objects.  The functions are first given on values (records and lists).
    [findTextInLabel] is given a second time on a store of objects reached
    by reference, and the two are related. *)

From Stdlib Require Import List Bool Arith ZArith NArith QArith Lia Lqa.
From Stdlib Require Import String Ascii.
From Stdlib Require SpecFloat.
Import ListNotations.

Set Implicit Arguments.

Local Open Scope Q_scope.

(** ** Numbers *)

Inductive num : Type :=
| NaN
| NegInfinity
| Fin (q : Q)
| Infinity.

Declare Scope num_scope.
Delimit Scope num_scope with num.
Bind Scope num_scope with num.

Definition Qlt_bool (a b : Q) : bool := negb (Qle_bool b a).

(** Sign of a rational: [Lt] negative, [Eq] zero, [Gt] positive. *)
Definition Qsign (q : Q) : comparison := (q ?= 0)%Q.

Definition num_neg (a : num) : num :=
  match a with
  | NaN => NaN
  | NegInfinity => Infinity
  | Fin q => Fin (- q)
  | Infinity => NegInfinity
  end.

Definition num_add (a b : num) : num :=
  match a, b with
  | NaN, _ | _, NaN => NaN
  | Infinity, NegInfinity | NegInfinity, Infinity => NaN
  | Infinity, _ | _, Infinity => Infinity
  | NegInfinity, _ | _, NegInfinity => NegInfinity
  | Fin p, Fin q => Fin (p + q)
  end.

Definition num_sub (a b : num) : num :=
  match a, b with
  | NaN, _ | _, NaN => NaN
  | Infinity, Infinity | NegInfinity, NegInfinity => NaN
  | Infinity, _ | _, NegInfinity => Infinity
  | NegInfinity, _ | _, Infinity => NegInfinity
  | Fin p, Fin q => Fin (p - q)
  end.

(** An infinity scaled by a finite factor. *)
Definition scale_inf (positive : bool) (q : Q) : num :=
  match Qsign q with
  | Eq => NaN
  | Gt => if positive then Infinity else NegInfinity
  | Lt => if positive then NegInfinity else Infinity
  end.

Definition num_mul (a b : num) : num :=
  match a, b with
  | NaN, _ | _, NaN => NaN
  | Infinity, Infinity | NegInfinity, NegInfinity => Infinity
  | Infinity, NegInfinity | NegInfinity, Infinity => NegInfinity
  | Infinity, Fin q | Fin q, Infinity => scale_inf true q
  | NegInfinity, Fin q | Fin q, NegInfinity => scale_inf false q
  | Fin p, Fin q => Fin (p * q)
  end.

(** Division.  A zero divisor is taken as [+0]; the source divides by the
    literal [2] only. *)
Definition num_div (a b : num) : num :=
  match a, b with
  | NaN, _ | _, NaN => NaN
  | (Infinity | NegInfinity), (Infinity | NegInfinity) => NaN
  | Fin _, (Infinity | NegInfinity) => Fin 0
  | Infinity, Fin q =>
      match Qsign q with Lt => NegInfinity | _ => Infinity end
  | NegInfinity, Fin q =>
      match Qsign q with Lt => Infinity | _ => NegInfinity end
  | Fin p, Fin q =>
      match Qsign q with
      | Eq => match Qsign p with
              | Eq => NaN
              | Gt => Infinity
              | Lt => NegInfinity
              end
      | _ => Fin (p / q)
      end
  end.

(** [a < b]: false as soon as one side is NaN. *)
Definition num_lt (a b : num) : bool :=
  match a, b with
  | NaN, _ | _, NaN => false
  | _, NegInfinity => false
  | NegInfinity, _ => true
  | Infinity, _ => false
  | _, Infinity => true
  | Fin p, Fin q => Qlt_bool p q
  end.

(** [a > b] is [b < a]. *)
Definition num_gt (a b : num) : bool := num_lt b a.

(** [a <= b]: false as soon as one side is NaN. *)
Definition num_le (a b : num) : bool :=
  match a, b with
  | NaN, _ | _, NaN => false
  | NegInfinity, _ => true
  | _, Infinity => true
  | _, NegInfinity => false
  | Infinity, _ => false
  | Fin p, Fin q => Qle_bool p q
  end.

Definition num_ge (a b : num) : bool := num_le b a.

(** [Math.min] and [Math.max] of two arguments: NaN if either is NaN. *)
Definition Math_min (a b : num) : num :=
  match a, b with
  | NaN, _ | _, NaN => NaN
  | _, _ => if num_le a b then a else b
  end.

Definition Math_max (a b : num) : num :=
  match a, b with
  | NaN, _ | _, NaN => NaN
  | _, _ => if num_le a b then b else a
  end.

Infix "+" := num_add : num_scope.
Infix "-" := num_sub : num_scope.
Infix "*" := num_mul : num_scope.
Infix "/" := num_div : num_scope.
Infix "<?" := num_lt (at level 70, no associativity) : num_scope.
Infix ">?" := num_gt (at level 70, no associativity) : num_scope.
Infix "<=?" := num_le (at level 70, no associativity) : num_scope.
Infix ">=?" := num_ge (at level 70, no associativity) : num_scope.

(** Integer and decimal literals of the source. *)
Definition lit (z : Z) : num := Fin (inject_Z z).
Definition lit_0_55 : num := Fin (55 # 100).

(** The value is an ordinary number: neither NaN nor infinite. *)
Definition finite (a : num) : Prop := exists q, a = Fin q.

(** Two numbers denote the same value (rationals up to [Qeq]). *)
Definition num_eq (a b : num) : Prop :=
  match a, b with
  | NaN, NaN | Infinity, Infinity | NegInfinity, NegInfinity => True
  | Fin p, Fin q => p == q
  | _, _ => False
  end.

(** ** Strings *)

(** A string is the list of its UTF-16 code units. *)
Definition jsstring : Type := list N.

(** Code units of a string literal of the source (all of them ASCII). *)
Definition js (s : string) : jsstring := map N_of_ascii (list_ascii_of_string s).

(** White space and line terminators: what [\s] matches and [trim] strips. *)
Definition isWhiteSpace (c : N) : bool :=
  ((9 <=? c) && (c <=? 13) || (c =? 32) || (c =? 160) || (c =? 5760)
   || (8192 <=? c) && (c <=? 8202) || (c =? 8232) || (c =? 8233)
   || (c =? 8239) || (c =? 8287) || (c =? 12288) || (c =? 65279))%N.

Fixpoint dropWhile (p : N -> bool) (s : jsstring) : jsstring :=
  match s with
  | [] => []
  | c :: t => if p c then dropWhile p t else s
  end.

(** [s.trim()] *)
Definition trim (s : jsstring) : jsstring :=
  rev (dropWhile isWhiteSpace (rev (dropWhile isWhiteSpace s))).

(** [s.replace(/\s+/g, '')]: every run of white space is deleted. *)
Definition removeWhiteSpace (s : jsstring) : jsstring :=
  filter (fun c => negb (isWhiteSpace c)) s.

Fixpoint startsWith (needle hay : jsstring) : bool :=
  match needle, hay with
  | [], _ => true
  | _ :: _, [] => false
  | a :: n', b :: h' => (a =? b)%N && startsWith n' h'
  end.

(** [hay.includes(needle)] *)
Fixpoint includes (hay needle : jsstring) : bool :=
  startsWith needle hay ||
  match hay with
  | [] => false
  | _ :: t => includes t needle
  end.

(** ** Regular expressions

    The fragment of the pattern language that [FNSKU_REGEX] uses, with a
    backtracking matcher that returns, in the engine's order of preference,
    every position at which a match starting at the given position can end. *)

Inductive regex : Type :=
| Chr (c : N)                          (* a literal character *)
| Class (ranges : list (N * N))        (* [a-bc-d...] *)
| Seq (r1 r2 : regex)                  (* r1 r2 *)
| Alt (r1 r2 : regex)                  (* r1|r2 *)
| Repeat (lo extra : nat) (r : regex)  (* r{lo,lo+extra}, greedy *)
| AssertStart                          (* ^ without the m flag *)
| AssertEnd.                           (* $ without the m flag *)

(** A position in the input: the number of code units before it and the
    code units from it on. *)
Definition position : Type := (nat * jsstring)%type.

Definition inClass (ranges : list (N * N)) (c : N) : bool :=
  existsb (fun r => (fst r <=? c) && (c <=? snd r))%N ranges.

Definition consume (p : N -> bool) (st : position) : list position :=
  match snd st with
  | c :: t => if p c then [(S (fst st), t)] else []
  | [] => []
  end.

Fixpoint exactly (n : nat) (step : position -> list position) (st : position)
  : list position :=
  match n with
  | O => [st]
  | S n' => flat_map (exactly n' step) (step st)
  end.

Fixpoint upTo (n : nat) (step : position -> list position) (st : position)
  : list position :=
  match n with
  | O => [st]
  | S n' => flat_map (upTo n' step) (step st) ++ [st]
  end.

Fixpoint rmatch (r : regex) (st : position) : list position :=
  match r with
  | Chr c => consume (N.eqb c) st
  | Class ranges => consume (inClass ranges) st
  | Seq r1 r2 => flat_map (rmatch r2) (rmatch r1 st)
  | Alt r1 r2 => rmatch r1 st ++ rmatch r2 st
  | Repeat lo extra r1 =>
      flat_map (upTo extra (rmatch r1)) (exactly lo (rmatch r1) st)
  | AssertStart => if Nat.eqb (fst st) 0 then [st] else []
  | AssertEnd => match snd st with [] => [st] | _ :: _ => [] end
  end.

Definition nonEmpty {A : Type} (l : list A) : bool :=
  match l with [] => false | _ :: _ => true end.

(** [r.test(s)] for a pattern without flags: a match may start anywhere. *)
Definition regex_test (r : regex) (s : jsstring) : bool :=
  existsb (fun i => nonEmpty (rmatch r (i, skipn i s))) (seq 0 (S (List.length s))).

(** The literal characters of a pattern, in sequence. *)
Fixpoint literal (c : N) (cs : jsstring) : regex :=
  match cs with
  | [] => Chr c
  | c' :: t => Seq (Chr c) (literal c' t)
  end.

Definition lit_X00 : regex := literal 88 [48; 48]%N.
Definition lit_B0 : regex := literal 66 [48]%N.

(** [[A-Z0-9]] *)
Definition upperOrDigit : list (N * N) := [(65, 90); (48, 57)]%N.

(** [const FNSKU_REGEX = /^(X00|B0)[A-Z0-9]{8,10}$/;] *)
Definition FNSKU_REGEX : regex :=
  Seq AssertStart
    (Seq (Alt lit_X00 lit_B0)
       (Seq (Repeat 8 2 (Class upperOrDigit)) AssertEnd)).

(** The shape the pattern describes: ["X00"] or ["B0"], then eight to ten
    characters, each an upper-case letter or a digit, and nothing else. *)
Definition upperOrDigitChar (c : N) : Prop :=
  (65 <= c <= 90)%N \/ (48 <= c <= 57)%N.

Definition fnskuShaped (s : jsstring) : Prop :=
  exists prefix body,
    s = prefix ++ body
    /\ (prefix = js "X00" \/ prefix = js "B0")
    /\ (8 <= List.length body <= 10)%nat
    /\ Forall upperOrDigitChar body.

(** ** Data model *)

Local Open Scope num_scope.

(** [{ x, y, width, height }] *)
Module Box.
Record t : Type := mk { x : num; y : num; width : num; height : num }.
End Box.

(** A text item: [{ str, box }] *)
Module Item.
Record t : Type := mk { str : jsstring; box : Box.t }.
End Item.

(** The accumulator of the bounding-box folds and the search window:
    [{ minX, maxX, minY, maxY }] *)
Module MinMax.
Record t : Type := mk { minX : num; maxX : num; minY : num; maxY : num }.
End MinMax.

(** A label: [{ box, items }] *)
Module Label.
Record t : Type := mk { box : Box.t; items : list Item.t }.
End Label.

(** ** Label clusterer: [findLabelsByFnsku] *)

(** [item => ({...item, box: {...item.box,
                 y: pageHeight - item.box.y - item.box.height }})] *)
Definition transformItem (pageHeight : num) (item : Item.t) : Item.t :=
  let b := Item.box item in
  Item.mk (Item.str item)
    (Box.mk (Box.x b) (pageHeight - Box.y b - Box.height b)
       (Box.width b) (Box.height b)).

(** [item => FNSKU_REGEX.test(item.str.trim())] *)
Definition isAnchor (item : Item.t) : bool :=
  regex_test FNSKU_REGEX (trim (Item.str item)).

(** [{ minX: anchor.box.x - 120, maxX: anchor.box.x + 120,
       minY: anchor.box.y - 60, maxY: anchor.box.y + 60 }] *)
Definition searchBoxOf (anchor : Item.t) : MinMax.t :=
  let b := Item.box anchor in
  MinMax.mk (Box.x b - lit 120) (Box.x b + lit 120)
            (Box.y b - lit 60) (Box.y b + lit 60).

(** The filter predicate of [labelItems]. *)
Definition inSearchBox (searchBox : MinMax.t) (item : Item.t) : bool :=
  let b := Item.box item in
  let itemCenterY := Box.y b + Box.height b / lit 2 in
  (Box.x b >? MinMax.minX searchBox) && (Box.x b <? MinMax.maxX searchBox)
  && (itemCenterY >? MinMax.minY searchBox)
  && (itemCenterY <? MinMax.maxY searchBox).

(** The seed of both folds:
    [{ minX: Infinity, maxX: -Infinity, minY: Infinity, maxY: -Infinity }] *)
Definition emptyBox : MinMax.t :=
  MinMax.mk Infinity (num_neg Infinity) Infinity (num_neg Infinity).

(** The reducer of both folds. *)
Definition unionStep (box : MinMax.t) (item : Item.t) : MinMax.t :=
  let b := Item.box item in
  MinMax.mk (Math_min (MinMax.minX box) (Box.x b))
            (Math_max (MinMax.maxX box) (Box.x b + Box.width b))
            (Math_min (MinMax.minY box) (Box.y b))
            (Math_max (MinMax.maxY box) (Box.y b + Box.height b)).

(** [items.reduce(unionStep, emptyBox)] *)
Definition unionBoxOf (items : list Item.t) : MinMax.t :=
  fold_left unionStep items emptyBox.

(** The [box] of the label returned for an anchor:
    [{ x: labelBox.minX, y: pageHeight - labelBox.maxY,
       width: labelBox.maxX - labelBox.minX,
       height: labelBox.maxY - labelBox.minY }] *)
Definition rectOfLabelBox (pageHeight : num) (labelBox : MinMax.t) : Box.t :=
  Box.mk (MinMax.minX labelBox)
         (pageHeight - MinMax.maxY labelBox)
         (MinMax.maxX labelBox - MinMax.minX labelBox)
         (MinMax.maxY labelBox - MinMax.minY labelBox).

(** The body of [anchors.map(anchor => ...)]. *)
Definition labelOfAnchor (pageHeight : num) (transformedItems : list Item.t)
    (anchor : Item.t) : Label.t :=
  let searchBox := searchBoxOf anchor in
  let labelItems := filter (inSearchBox searchBox) transformedItems in
  let labelBox := unionBoxOf labelItems in
  Label.mk (rectOfLabelBox pageHeight labelBox) labelItems.

Definition findLabelsByFnsku (items : list Item.t) (pageHeight : num)
  : list Label.t :=
  let transformedItems := map (transformItem pageHeight) items in
  let anchors := filter isAnchor transformedItems in
  map (labelOfAnchor pageHeight transformedItems) anchors.

(** ** Region resolver: [findTextInLabel] and the drawing steps *)

(** What [page.drawRectangle] and [page.drawText] are called with. *)
Inductive drawOp : Type :=
| DrawRectangle (x y width height : num)
| DrawText (text : jsstring) (x y size : num).

Section Resolver.

(** [String.prototype.toLowerCase], given by the host. *)
Variable toLowerCase : jsstring -> jsstring.

(** [font.widthOfTextAtSize], given by the document library. *)
Variable widthOfTextAtSize : jsstring -> num -> num.

(** [s.replace(/\s+/g, '').toLowerCase()] *)
Definition clean (s : jsstring) : jsstring :=
  toLowerCase (removeWhiteSpace s).

(** The filter predicate of [matchedItems]. *)
Definition isMatched (cleanSearchText : jsstring) (item : Item.t) : bool :=
  includes cleanSearchText (clean (Item.str item)).

(** The rectangle [findTextInLabel] returns around the union box:
    [{ x: unionBox.minX - 2,
       y: label.box.height + label.box.y - unionBox.maxY - 2,
       width: unionBox.maxX - unionBox.minX + 4,
       height: unionBox.maxY - unionBox.minY + 4 }] *)
Definition removalRect (label : Label.t) (unionBox : MinMax.t) : Box.t :=
  Box.mk (MinMax.minX unionBox - lit 2)
         (Box.height (Label.box label) + Box.y (Label.box label)
          - MinMax.maxY unionBox - lit 2)
         (MinMax.maxX unionBox - MinMax.minX unionBox + lit 4)
         (MinMax.maxY unionBox - MinMax.minY unionBox + lit 4).

Definition findTextInLabel (label : Label.t) (searchText : jsstring)
  : list Box.t :=
  let cleanSearchText := clean searchText in
  let matchedItems :=
    filter (isMatched cleanSearchText) (Label.items label) in
  if Nat.eqb (List.length matchedItems) 0 then []
  else
    let unionBox := unionBoxOf matchedItems in
    [ removalRect label unionBox ].

(** A string is truthy when it is not empty. *)
Definition truthy (s : jsstring) : bool := nonEmpty s.

Definition MadeInChina : jsstring := js "Made in China".

(** The removal step of the loop over labels in [onRequest]:
    [if (textToRemove) { ... page.drawRectangle(...) ... }] *)
Definition removalStep (label : Label.t) (textToRemove : jsstring)
  : list drawOp :=
  if truthy textToRemove then
    map (fun area => DrawRectangle (Box.x area) (Box.y area)
                       (Box.width area) (Box.height area))
        (findTextInLabel label textToRemove)
  else [].

(** The insertion step of the same loop:
    [if (addMadeInChina) { ... page.drawText(...) ... }] *)
Definition insertionStep (label : Label.t) (addMadeInChina : bool)
    (fontSize : num) : list drawOp :=
  if addMadeInChina then
    let text := MadeInChina in
    let textWidth := widthOfTextAtSize text fontSize in
    [ DrawText text
        (Box.x (Label.box label)
         + (Box.width (Label.box label) - textWidth) / lit 2)
        (Box.y (Label.box label) + lit 2)
        fontSize ]
  else [].

(** The body of [for (const label of labels)]. *)
Definition processLabel (textToRemove : jsstring) (addMadeInChina : bool)
    (fontSize : num) (label : Label.t) : list drawOp :=
  removalStep label textToRemove
  ++ insertionStep label addMadeInChina fontSize.

(** The body of [for (const page of pages)], from the text items on. *)
Definition processPage (textToRemove : jsstring) (addMadeInChina : bool)
    (fontSize : num) (textItems : list Item.t) (height : num)
  : list drawOp :=
  flat_map (processLabel textToRemove addMadeInChina fontSize)
           (findLabelsByFnsku textItems height).

(** *** The variant that applies modifications computed by the client *)

(** An entry of [addText]: [{ text, x, y, fontSize }] *)
Record TextInfo : Type :=
  mkTextInfo { ti_text : jsstring; ti_x : num; ti_y : num; ti_fontSize : num }.

(** An entry of [modifications.pages]: [{ removeAreas, addText }] *)
Record PageMod : Type :=
  mkPageMod { removeAreas : list Box.t; addText : list TextInfo }.

Definition drawAddedText (textInfo : TextInfo) : drawOp :=
  let textWidth :=
    widthOfTextAtSize (ti_text textInfo) (ti_fontSize textInfo) in
  DrawText (ti_text textInfo)
           (ti_x textInfo - textWidth / lit 2)
           (ti_y textInfo)
           (ti_fontSize textInfo).

(** The body of [if (pageMod) { ... }]. *)
Definition applyPageMod (pageMod : PageMod) : list drawOp :=
  map (fun area => DrawRectangle (Box.x area) (Box.y area)
                     (Box.width area) (Box.height area))
      (removeAreas pageMod)
  ++ map drawAddedText (addText pageMod).

End Resolver.

(** The operation is a text insertion. *)
Definition isDrawText (op : drawOp) : Prop :=
  match op with DrawText _ _ _ _ => True | DrawRectangle _ _ _ _ => False end.

(** ** Token extractor: [getTextItemsWithCoords] *)

Section Extractor.

(** The six groups of
    [block.match(/(\S+)\s+(\S+)\s+(\S+)\s+(\S+)\s+(\S+)\s+(\S+)\s+Tm/)],
    that is [tmMatch.slice(1)], when the block matches. *)
Variable matchTm : jsstring -> option (list jsstring).

(** The group of [block.match(/\((.*?)\)\s*Tj/)] when the block matches. *)
Variable matchTj : jsstring -> option jsstring.

(** The host's [parseFloat]. *)
Variable parseFloat : jsstring -> num.

(** [matrix[i]]; an absent entry behaves as NaN in arithmetic and
    comparisons (the pattern has six groups, so none is absent). *)
Definition entry (matrix : list num) (i : nat) : num := nth i matrix NaN.

(** The body of [for (const block of textBlocks)]. *)
Definition textItemOfBlock (block : jsstring) : option Item.t :=
  match matchTm block, matchTj block with
  | Some groups, Some text =>
      let matrix := map parseFloat groups in
      let x := entry matrix 4 in
      let y := entry matrix 5 in
      let fontSize :=
        if entry matrix 0 >? lit 0 then entry matrix 0 else entry matrix 3 in
      let approxWidth :=
        lit (Z.of_nat (List.length text)) * fontSize * lit_0_55 in
      let approxHeight := fontSize in
      Some (Item.mk text (Box.mk x y approxWidth approxHeight))
  | _, _ => None
  end.

(** [textItems] after the loop over [textBlocks]. *)
Fixpoint getTextItemsWithCoords (textBlocks : list jsstring)
  : list Item.t :=
  match textBlocks with
  | [] => []
  | block :: rest =>
      match textItemOfBlock block with
      | Some item => item :: getTextItemsWithCoords rest
      | None => getTextItemsWithCoords rest
      end
  end.

End Extractor.

(** ASCII case folding, the part of [toLowerCase] used on concrete inputs. *)
Definition asciiLower (s : jsstring) : jsstring :=
  map (fun c => if (65 <=? c) && (c <=? 90) then c + 32 else c)%N s.

(** A text item with integer coordinates. *)
Definition textItem (s : string) (x y width height : Z) : Item.t :=
  Item.mk (js s) (Box.mk (lit x) (lit y) (lit width) (lit height)).

(** [parseFloat] on an optional minus sign followed by decimal digits, the
    only operands the examples use; any other string is left as NaN here. *)
Fixpoint digitsValue (acc : Z) (s : jsstring) : option Z :=
  match s with
  | [] => Some acc
  | c :: t =>
      if ((48 <=? c) && (c <=? 57))%N
      then digitsValue (10 * acc + Z.of_N (c - 48)) t
      else None
  end.

Definition parseIntegerOperand (s : jsstring) : num :=
  match s with
  | [] => NaN
  | 45%N :: (_ :: _) as t =>
      match digitsValue 0 t with Some z => lit (- z) | None => NaN end
  | _ => match digitsValue 0 s with Some z => lit z | None => NaN end
  end.

(** ** The scenario of the specification

    A page of height 800 with the identifier ["B0ABCDEFGH"] at (100, 700)
    and the text ["SomeText"] at (90, 690); widths and heights as the
    extractor estimates them for a font size of 8. *)
Definition scenarioItems : list Item.t :=
  [ Item.mk (js "B0ABCDEFGH") (Box.mk (lit 100) (lit 700) (Fin 44) (lit 8));
    Item.mk (js "SomeText") (Box.mk (lit 90) (lit 690) (Fin (352 # 10)) (lit 8)) ].

Definition scenarioLabels : list Label.t :=
  findLabelsByFnsku scenarioItems (lit 800).

(** The same page as the extractor sees it: two text blocks, and what the
    two patterns of the extractor find in each of them. *)
Definition scenarioBlocks : list jsstring :=
  [ js "BT 8 0 0 8 100 700 Tm (B0ABCDEFGH) Tj ET";
    js "BT 8 0 0 8 90 690 Tm (SomeText) Tj ET" ].

Definition scenarioTm (block : jsstring) : option (list jsstring) :=
  if startsWith (js "BT 8 0 0 8 100 700 Tm") block
  then Some [js "8"; js "0"; js "0"; js "8"; js "100"; js "700"]
  else if startsWith (js "BT 8 0 0 8 90 690 Tm") block
  then Some [js "8"; js "0"; js "0"; js "8"; js "90"; js "690"]
  else None.

Definition scenarioTj (block : jsstring) : option jsstring :=
  if includes block (js "(B0ABCDEFGH) Tj") then Some (js "B0ABCDEFGH")
  else if includes block (js "(SomeText) Tj") then Some (js "SomeText")
  else None.

Definition scenarioExtracted : list Item.t :=
  getTextItemsWithCoords scenarioTm scenarioTj parseIntegerOperand
    scenarioBlocks.

(** ** Objects behind references

    [findTextInLabel] receives its label by reference: the label, its box,
    its array of items and each item are objects that the caller keeps.
    This second model of the function runs on a store of objects, so that
    what a call reads, allocates and leaves untouched can be stated. *)

Local Open Scope string_scope.
Local Open Scope list_scope.

(** A value is a primitive or a reference to an object of the store. *)
Inductive value : Type :=
| VUndefined
| VNum (n : num)
| VStr (s : jsstring)
| VRef (l : nat).

(** An object literal or an array. *)
Inductive object : Type :=
| Obj (props : list (string * value))
| Arr (elems : list value).

(** The store: the object of reference [l] is at index [l]; a new object
    goes to the end. *)
Definition heap : Type := list object.

Fixpoint assoc (name : string) (props : list (string * value)) : option value :=
  match props with
  | [] => None
  | (k, v) :: rest => if String.eqb k name then Some v else assoc name rest
  end.

(** [v.name]: [None] stands for the TypeError of reading a property of
    [undefined], and for a dangling reference. *)
Definition heapGet (h : heap) (v : value) (name : string) : option value :=
  match v with
  | VUndefined => None
  | VNum _ | VStr _ => Some VUndefined
  | VRef l =>
      match nth_error h l with
      | Some (Obj props) =>
          match assoc name props with
          | Some w => Some w
          | None => Some VUndefined
          end
      | Some (Arr _) => Some VUndefined
      | None => None
      end
  end.

(** The elements of the array [v] refers to. *)
Definition heapElems (h : heap) (v : value) : option (list value) :=
  match v with
  | VRef l => match nth_error h l with
              | Some (Arr elems) => Some elems
              | _ => None
              end
  | _ => None
  end.

(** Computations on the store that may throw. *)
Definition M (A : Type) : Type := heap -> option (A * heap).

Definition ret {A : Type} (a : A) : M A := fun h => Some (a, h).

Definition bind {A B : Type} (m : M A) (f : A -> M B) : M B :=
  fun h => match m h with
           | Some (a, h') => f a h'
           | None => None
           end.

Notation "x <- m ;; k" := (bind m (fun x => k))
  (at level 61, m at next level, right associativity).

Definition liftOption {A : Type} (o : heap -> option A) : M A :=
  fun h => match o h with Some a => Some (a, h) | None => None end.

(** An object literal or array literal: a fresh object, and its reference. *)
Definition alloc (o : object) : M value :=
  fun h => Some (VRef (List.length h), (h ++ [o])%list).

Definition getProp (v : value) (name : string) : M value :=
  liftOption (fun h => heapGet h v name).

Definition getElems (v : value) : M (list value) :=
  liftOption (fun h => heapElems h v).

(** A value used as a number: [undefined] counts as NaN; strings and
    objects in that place are outside the model. *)
Definition asNum (v : value) : M num :=
  liftOption (fun _ => match v with
                       | VNum n => Some n
                       | VUndefined => Some NaN
                       | _ => None
                       end).

(** A value whose [replace] method is called: it has to be a string. *)
Definition asStr (v : value) : M jsstring :=
  liftOption (fun _ => match v with VStr s => Some s | _ => None end).

Definition getNum (v : value) (name : string) : M num :=
  w <- getProp v name ;; asNum w.

(** [arr.filter(p)], up to the allocation of the new array. *)
Fixpoint filterM (p : value -> M bool) (l : list value) : M (list value) :=
  match l with
  | [] => ret []
  | v :: rest =>
      keep <- p v ;;
      kept <- filterM p rest ;;
      ret (if keep then v :: kept else kept)
  end.

(** [arr.reduce(f, acc)] *)
Fixpoint reduceM (f : value -> value -> M value) (l : list value)
    (acc : value) : M value :=
  match l with
  | [] => ret acc
  | v :: rest => acc' <- f acc v ;; reduceM f rest acc'
  end.

(** The reducer of the fold, on references: it reads the accumulator and
    the item and returns a new object.  ([item.box] is read once here and
    four times in the source; a read changes nothing.) *)
Definition unionStepRef (box item : value) : M value :=
  itemBox <- getProp item "box" ;;
  boxMinX <- getNum box "minX" ;;
  itemX <- getNum itemBox "x" ;;
  boxMaxX <- getNum box "maxX" ;;
  itemWidth <- getNum itemBox "width" ;;
  boxMinY <- getNum box "minY" ;;
  itemY <- getNum itemBox "y" ;;
  boxMaxY <- getNum box "maxY" ;;
  itemHeight <- getNum itemBox "height" ;;
  alloc (Obj [ ("minX", VNum (Math_min boxMinX itemX));
               ("maxX", VNum (Math_max boxMaxX (itemX + itemWidth)));
               ("minY", VNum (Math_min boxMinY itemY));
               ("maxY", VNum (Math_max boxMaxY (itemY + itemHeight))) ]).

Section ResolverOnReferences.

Variable toLowerCase : jsstring -> jsstring.

Definition isMatchedRef (cleanSearchText : jsstring) (item : value) : M bool :=
  s <- getProp item "str" ;;
  text <- asStr s ;;
  ret (includes cleanSearchText (clean toLowerCase text)).

(** [findTextInLabel] on references. *)
Definition findTextInLabelRef (label : value) (searchText : jsstring)
  : M value :=
  let cleanSearchText := clean toLowerCase searchText in
  labelItems <- getProp label "items" ;;
  elems <- getElems labelItems ;;
  matched <- filterM (isMatchedRef cleanSearchText) elems ;;
  matchedItems <- alloc (Arr matched) ;;
  if Nat.eqb (List.length matched) 0 then alloc (Arr [])
  else
    seed <- alloc (Obj [ ("minX", VNum Infinity);
                         ("maxX", VNum (num_neg Infinity));
                         ("minY", VNum Infinity);
                         ("maxY", VNum (num_neg Infinity)) ]) ;;
    unionBox <- reduceM unionStepRef matched seed ;;
    minX <- getNum unionBox "minX" ;;
    labelBox <- getProp label "box" ;;
    labelHeight <- getNum labelBox "height" ;;
    labelY <- getNum labelBox "y" ;;
    maxY <- getNum unionBox "maxY" ;;
    maxX <- getNum unionBox "maxX" ;;
    minY <- getNum unionBox "minY" ;;
    area <- alloc (Obj [ ("x", VNum (minX - lit 2));
                         ("y", VNum (labelHeight + labelY - maxY - lit 2));
                         ("width", VNum (maxX - minX + lit 4));
                         ("height", VNum (maxY - minY + lit 4)) ]) ;;
    alloc (Arr [area]).

End ResolverOnReferences.

(** *** Reading structured values back from the store *)

Definition readNum (h : heap) (v : value) (name : string) : option num :=
  match heapGet h v name with
  | Some (VNum n) => Some n
  | _ => None
  end.

Definition readBox (h : heap) (v : value) : option Box.t :=
  match readNum h v "x", readNum h v "y",
        readNum h v "width", readNum h v "height" with
  | Some x, Some y, Some w, Some ht => Some (Box.mk x y w ht)
  | _, _, _, _ => None
  end.

Definition readMinMax (h : heap) (v : value) : option MinMax.t :=
  match readNum h v "minX", readNum h v "maxX",
        readNum h v "minY", readNum h v "maxY" with
  | Some a, Some b, Some c, Some d => Some (MinMax.mk a b c d)
  | _, _, _, _ => None
  end.

Definition readItem (h : heap) (v : value) : option Item.t :=
  match heapGet h v "str", heapGet h v "box" with
  | Some (VStr s), Some boxRef =>
      match readBox h boxRef with
      | Some b => Some (Item.mk s b)
      | None => None
      end
  | _, _ => None
  end.

Fixpoint readAll {A : Type} (rd : value -> option A) (l : list value)
  : option (list A) :=
  match l with
  | [] => Some []
  | v :: rest =>
      match rd v, readAll rd rest with
      | Some a, Some l' => Some (a :: l')
      | _, _ => None
      end
  end.

Definition readLabel (h : heap) (v : value) : option Label.t :=
  match heapGet h v "box", heapGet h v "items" with
  | Some boxRef, Some itemsRef =>
      match readBox h boxRef, heapElems h itemsRef with
      | Some b, Some elems =>
          match readAll (readItem h) elems with
          | Some items => Some (Label.mk b items)
          | None => None
          end
      | _, _ => None
      end
  | _, _ => None
  end.

(** The array of rectangles a call returns. *)
Definition readBoxes (h : heap) (v : value) : option (list Box.t) :=
  match heapElems h v with
  | Some elems => readAll (readBox h) elems
  | None => None
  end.

(** The label of the scenario, as objects: the store holds, in this order,
    the boxes and the items of the two tokens, the array of items, the
    label's box and the label. *)
Definition scenarioHeap : heap :=
  [ Obj [ ("x", VNum (lit 100)); ("y", VNum (lit 92));
          ("width", VNum (Fin 44)); ("height", VNum (lit 8)) ];
    Obj [ ("str", VStr (js "B0ABCDEFGH")); ("box", VRef 0) ];
    Obj [ ("x", VNum (lit 90)); ("y", VNum (lit 102));
          ("width", VNum (Fin (352 # 10))); ("height", VNum (lit 8)) ];
    Obj [ ("str", VStr (js "SomeText")); ("box", VRef 2) ];
    Arr [ VRef 1; VRef 3 ];
    Obj [ ("x", VNum (lit 90)); ("y", VNum (lit 690));
          ("width", VNum (lit 54)); ("height", VNum (lit 18)) ];
    Obj [ ("box", VRef 5); ("items", VRef 4) ] ].

Definition scenarioLabelRef : value := VRef 6.

Local Close Scope string_scope.

(** [h'] is [h] with new objects added at the end: every object of [h] is
    still there, unchanged, under the same reference. *)
Definition extends (h h' : heap) : Prop := exists ext, h' = h ++ ext.

(** ** Counting drawing operations *)

Definition isRectangle (op : drawOp) : bool :=
  match op with DrawRectangle _ _ _ _ => true | DrawText _ _ _ _ => false end.

Definition isText (op : drawOp) : bool :=
  match op with DrawText _ _ _ _ => true | DrawRectangle _ _ _ _ => false end.

Definition countIf {A : Type} (p : A -> bool) (l : list A) : nat :=
  List.length (filter p l).

(** The vertical centre the window test uses: [y + height / 2]. *)
Definition centerY (item : Item.t) : num :=
  Box.y (Item.box item) + Box.height (Item.box item) / lit 2.

(** Each side of the box [u] is the side of some token of [items]. *)
Definition attainedIn (items : list Item.t) (u : MinMax.t) : Prop :=
  (exists m, In m items /\ MinMax.minX u = Box.x (Item.box m))
  /\ (exists m, In m items
                /\ MinMax.maxX u
                   = Box.x (Item.box m) + Box.width (Item.box m))
  /\ (exists m, In m items /\ MinMax.minY u = Box.y (Item.box m))
  /\ (exists m, In m items
                /\ MinMax.maxY u
                   = Box.y (Item.box m) + Box.height (Item.box m)).

(** ** The patterns of the extractor

    [getTextItemsWithCoords] reads the content stream with three patterns.
    They use literals, the classes [.], [\s] and [\S] under [+], [*] and
    [*?], and groups without nesting; this second matcher covers that
    fragment and records what the groups capture.  As before it returns the
    states a match can end in, in the engine's order of preference. *)

Inductive charClass : Type :=
| AnyChar          (* .  : any character but a line terminator *)
| Space            (* \s *)
| NonSpace.        (* \S *)

Definition isLineTerminator (c : N) : bool :=
  ((c =? 10) || (c =? 13) || (c =? 8232) || (c =? 8233))%N.

Definition inCharClass (k : charClass) (c : N) : bool :=
  match k with
  | AnyChar => negb (isLineTerminator c)
  | Space => isWhiteSpace c
  | NonSpace => negb (isWhiteSpace c)
  end.

Inductive pattern : Type :=
| Literal (s : jsstring)           (* the characters of [s] *)
| Plus (k : charClass)             (* k+ , greedy *)
| Star (k : charClass)             (* k* , greedy *)
| LazyStar (k : charClass)         (* k*? *)
| Group (p : pattern)              (* ( p ) *)
| Then (p q : pattern).            (* p q *)

(** What is left of the input after [k+], the longest run first. *)
Fixpoint plusEnds (k : charClass) (s : jsstring) : list jsstring :=
  match s with
  | c :: t => if inCharClass k c then plusEnds k t ++ [t] else []
  | [] => []
  end.

(** What is left of the input after [k*?], the shortest run first. *)
Fixpoint lazyEnds (k : charClass) (s : jsstring) : list jsstring :=
  s :: match s with
       | c :: t => if inCharClass k c then lazyEnds k t else []
       | [] => []
       end.

(** A state of the matcher: the input left and the groups captured. *)
Definition mstate : Type := (jsstring * list jsstring)%type.

(** The part of [s] that was consumed to leave [rest]. *)
Definition consumed (s rest : jsstring) : jsstring :=
  firstn (List.length s - List.length rest) s.

Fixpoint pmatch (p : pattern) (st : mstate) : list mstate :=
  match p with
  | Literal l =>
      if startsWith l (fst st)
      then [(skipn (List.length l) (fst st), snd st)] else []
  | Plus k => map (fun r => (r, snd st)) (plusEnds k (fst st))
  | Star k => map (fun r => (r, snd st)) (plusEnds k (fst st) ++ [fst st])
  | LazyStar k => map (fun r => (r, snd st)) (lazyEnds k (fst st))
  | Group q =>
      map (fun st' => (fst st', snd st' ++ [consumed (fst st) (fst st')]))
          (pmatch q st)
  | Then q r => flat_map (pmatch r) (pmatch q st)
  end.

(** [s.match(p)] for a pattern without flags: the first match in the
    engine's order at the leftmost position that has one, as the matched
    text and the groups; [None] for [null]. *)
Fixpoint pexec (p : pattern) (s : jsstring)
  : option (jsstring * list jsstring) :=
  match pmatch p (s, []) with
  | (rest, groups) :: _ => Some (consumed s rest, groups)
  | [] => match s with
          | [] => None
          | _ :: t => pexec p t
          end
  end.

(** [s.match(p) || []] for a pattern with the [g] flag: the matched texts,
    from left to right, each search starting where the last match ended
    (one character further after an empty match).  [skip] counts the
    characters of the last match that are still to be passed. *)
Fixpoint pmatchAll (p : pattern) (skip : nat) (s : jsstring)
  : list jsstring :=
  match skip with
  | S k => match s with
           | [] => []
           | _ :: t => pmatchAll p k t
           end
  | O =>
      match pmatch p (s, []) with
      | (rest, _) :: _ =>
          consumed s rest
          :: match s with
             | [] => []
             | _ :: t =>
                 pmatchAll p (List.length (consumed s rest) - 1) t
             end
      | [] => match s with
              | [] => []
              | _ :: t => pmatchAll p 0 t
              end
      end
  end.

(** [/BT(.*?)ET/g] *)
Definition BT_ET : pattern :=
  Then (Literal (js "BT")) (Then (Group (LazyStar AnyChar)) (Literal (js "ET"))).

(** [(\S+)\s+] *)
Definition operandThenSpace : pattern := Then (Group (Plus NonSpace)) (Plus Space).

(** [/(\S+)\s+(\S+)\s+(\S+)\s+(\S+)\s+(\S+)\s+(\S+)\s+Tm/] *)
Definition TM : pattern :=
  Then operandThenSpace
    (Then operandThenSpace
       (Then operandThenSpace
          (Then operandThenSpace
             (Then operandThenSpace
                (Then operandThenSpace (Literal (js "Tm"))))))).

(** [/\((.*?)\)\s*Tj/] *)
Definition TJ : pattern :=
  Then (Literal (js "("))
    (Then (Group (LazyStar AnyChar))
       (Then (Literal (js ")")) (Then (Star Space) (Literal (js "Tj"))))).

(** [contentStream.match(/BT(.*?)ET/g) || []] *)
Definition textBlocksOf (contentStream : jsstring) : list jsstring :=
  pmatchAll BT_ET 0 contentStream.

(** [tmMatch.slice(1)], when [block.match(...)] is not [null]. *)
Definition tmGroups (block : jsstring) : option (list jsstring) :=
  option_map snd (pexec TM block).

(** [tjMatch[1]], when [block.match(...)] is not [null]. *)
Definition tjText (block : jsstring) : option jsstring :=
  option_map (fun m => hd [] (snd m)) (pexec TJ block).

(** [getTextItemsWithCoords], from the text of the content stream on. *)
Definition textItemsOfStream (parseFloat : jsstring -> num)
    (contentStream : jsstring) : list Item.t :=
  getTextItemsWithCoords tmGroups tjText parseFloat
    (textBlocksOf contentStream).

(** A block as the label files have it, on one line:
    [BT a b c d e f Tm (text) Tj ET], with [sp] between the parts. *)
Definition textObject (sp a b c d e f text : jsstring) : jsstring :=
  js "BT" ++ sp ++ a ++ sp ++ b ++ sp ++ c ++ sp ++ d ++ sp ++ e ++ sp ++ f
  ++ sp ++ js "Tm" ++ sp ++ js "(" ++ text ++ js ")" ++ sp ++ js "Tj"
  ++ sp ++ js "ET".

(** White space that does not end the line. *)
Definition isInlineSpace (c : N) : bool :=
  isWhiteSpace c && negb (isLineTerminator c).

(** A character of a numeric operand: a digit, a sign or a point. *)
Definition isOperandChar (c : N) : bool :=
  ((48 <=? c) && (c <=? 57) || (c =? 43) || (c =? 45) || (c =? 46))%N.

Definition isOperand (s : jsstring) : Prop :=
  s <> [] /\ forallb isOperandChar s = true.

(** The input does not begin with a character of the class. *)
Definition notStarting (k : charClass) (r : jsstring) : Prop :=
  match r with
  | [] => True
  | c :: _ => inCharClass k c = false
  end.

(** What stands between [BT] and the string of [textObject]. *)
Definition beforeString (sp a b c d e f : jsstring) : jsstring :=
  sp ++ a ++ sp ++ b ++ sp ++ c ++ sp ++ d ++ sp ++ e ++ sp ++ f ++ sp
  ++ js "Tm" ++ sp ++ js "(".

(** What stands between the string of [textObject] and [ET]. *)
Definition behindString (sp : jsstring) : jsstring :=
  js ")" ++ sp ++ js "Tj" ++ sp.

(** The item the extractor makes of the operands [a], [d], [e], [f] of a
    [Tm] and of the string of a [Tj]. *)
Definition itemOfOperands (parseFloat : jsstring -> num) (a d e f text : jsstring)
  : Item.t :=
  let fontSize :=
    if parseFloat a >? lit 0 then parseFloat a else parseFloat d in
  Item.mk text
    (Box.mk (parseFloat e) (parseFloat f)
       (lit (Z.of_nat (List.length text)) * fontSize * lit_0_55) fontSize).

(** ** The request handler [onRequest]

    The request is given by its method and by what [request.formData()]
    yields; the response by its status, the headers the handler sets and
    its body.  A call of the platform or of the document library that can
    throw returns an [option]; every exception ends in the [catch] of the
    handler. *)

Local Open Scope string_scope.
Local Open Scope list_scope.

(** What [formData.get(name)] returns: [null], a string or a file. *)
Inductive formValue : Type :=
| FormNull
| FormString (s : jsstring)
| FormFile (name : jsstring) (bytes : list N).

Record request : Type :=
  mkRequest { method : string;
              formData : option (string -> formValue) }.

(** The texts of the error objects the handlers send; the wording of the
    source is not kept. *)
Inductive errorText : Type :=
| NoFileUploaded
| ProcessingFailed
| InvalidRequest
| ServerFailed.

Inductive header : Type :=
| AccessControlAllowOrigin (v : string)
| AccessControlAllowMethods (v : string)
| AccessControlAllowHeaders (v : string)
| ContentType (v : string)
| ContentDispositionAttachment (filename : jsstring).

Inductive body : Type :=
| BodyNull
| BodyText (s : string)
| BodyError (e : errorText)
| BodyBytes (bytes : list N).

(** [new Response(body, { status, headers })]; the status is 200 when none
    is given. *)
Record response : Type :=
  mkResponse { status : nat; headers : list header; responseBody : body }.

(** The answer to [OPTIONS]. *)
Definition preflight : response :=
  mkResponse 200
    [ AccessControlAllowOrigin "*";
      AccessControlAllowMethods "POST, OPTIONS";
      AccessControlAllowHeaders "Content-Type" ]
    BodyNull.

Definition methodNotAllowed : response :=
  mkResponse 405 [] (BodyText "Method Not Allowed").

(** The answer with the modified document. *)
Definition attachment (name : jsstring) (bytes : list N) : response :=
  mkResponse 200
    [ ContentType "application/pdf";
      ContentDispositionAttachment (js "processed_" ++ name);
      AccessControlAllowOrigin "*" ]
    (BodyBytes bytes).

(** [String(v)], as [parseInt] and [JSON.parse] see their argument. *)
Definition stringOf (v : formValue) : jsstring :=
  match v with
  | FormNull => js "null"
  | FormString s => s
  | FormFile _ _ => js "[object File]"
  end.

(** A number is truthy unless it is NaN or zero. *)
Definition numTruthy (n : num) : bool :=
  match n with
  | NaN => false
  | Fin q => negb (Qeq_bool q 0)
  | _ => true
  end.

(** All results in order, or nothing when one of them is missing. *)
Fixpoint allOrNothing {A B : Type} (f : A -> option B) (l : list A)
  : option (list B) :=
  match l with
  | [] => Some []
  | a :: rest =>
      match f a with
      | None => None
      | Some b =>
          match allOrNothing f rest with
          | None => None
          | Some bs => Some (b :: bs)
          end
      end
  end.

Section Handler.

(** The document library: [PDFDocument.load] of the file's bytes (which can
    throw), [getPages], the height of [page.getSize()], the text of
    [page.node.Content] (reading it can throw) and [save], which gives the
    bytes of the document after the drawing calls made on each page.  The
    other calls of the library ([embedFont], [widthOfTextAtSize],
    [drawRectangle], [drawText], [save]) are taken to return. *)
Variable document : Type.
Variable page : Type.
Variable load : list N -> option document.
Variable getPages : document -> list page.
Variable heightOf : page -> num.
Variable contentOf : page -> option jsstring.
Variable save : document -> list (list drawOp) -> list N.

Variable toLowerCase : jsstring -> jsstring.
Variable widthOfTextAtSize : jsstring -> num -> num.
Variable parseFloat : jsstring -> num.
Variable parseInt : jsstring -> num.

(** [formData.get('textToRemove') || ''], where it is a string; a file sent
    under this name is kept as it is, and is no string. *)
Definition textToRemoveOf (form : string -> formValue) : option jsstring :=
  match form "textToRemove" with
  | FormNull => Some []
  | FormString s => Some s
  | FormFile _ _ => None
  end.

(** [formData.get('addMadeInChina') === 'true'] *)
Definition addMadeInChinaOf (form : string -> formValue) : bool :=
  match form "addMadeInChina" with
  | FormString s => if list_eq_dec N.eq_dec s (js "true") then true else false
  | _ => false
  end.

(** [parseInt(formData.get('fontSize')) || 8] *)
Definition fontSizeOf (form : string -> formValue) : num :=
  let parsed := parseInt (stringOf (form "fontSize")) in
  if numTruthy parsed then parsed else lit 8.

(** The body of [for (const page of pages)]: the drawing calls made on the
    page.  With a file as [textToRemove] the call of [findTextInLabel] for
    the first label throws, since a file has no [replace]. *)
Definition drawingsOfPage (form : string -> formValue) (p : page)
  : option (list drawOp) :=
  let height := heightOf p in
  match contentOf p with
  | None => None
  | Some contentStream =>
      let textItems := textItemsOfStream parseFloat contentStream in
      match textToRemoveOf form with
      | Some textToRemove =>
          Some (processPage toLowerCase widthOfTextAtSize textToRemove
                  (addMadeInChinaOf form) (fontSizeOf form) textItems height)
      | None =>
          match findLabelsByFnsku textItems height with
          | [] => Some []
          | _ :: _ => None
          end
      end
  end.

(** The [try] block from [PDFDocument.load] to [pdfDoc.save]. *)
Definition processFile (form : string -> formValue) (bytes : list N)
  : option (list N) :=
  match load bytes with
  | None => None
  | Some pdfDoc =>
      match allOrNothing (drawingsOfPage form) (getPages pdfDoc) with
      | None => None
      | Some drawings => Some (save pdfDoc drawings)
      end
  end.

Definition onRequest (req : request) : response :=
  if String.eqb (method req) "OPTIONS" then preflight
  else if negb (String.eqb (method req) "POST") then methodNotAllowed
  else
    match formData req with
    | None => mkResponse 500 [] (BodyError ProcessingFailed)
    | Some form =>
        match form "file" with
        | FormFile name bytes =>
            match processFile form bytes with
            | Some modifiedPdfBytes => attachment name modifiedPdfBytes
            | None => mkResponse 500 [] (BodyError ProcessingFailed)
            end
        | _ => mkResponse 400 [] (BodyError NoFileUploaded)
        end
    end.

End Handler.

Local Close Scope string_scope.

(** * The clusterer and the removal area on binary64 numbers

    The functions [findLabelsByFnsku] and [findTextInLabel] once more, on
    the numbers the program computes with: IEEE-754 binary64, with every
    sum, difference and quotient rounded to the nearest double (ties to
    even), signed zeros, the two infinities and NaN.  The arithmetic is that
    of the standard library's [SpecFloat] at precision 53 and maximal
    exponent 1024.  Where a property depends on which side of a comparison a
    computed number falls, or on what a sum of computed numbers is, it is
    stated on this model. *)

Module B64.

Definition double : Type := SpecFloat.spec_float.

Declare Scope double_scope.
Delimit Scope double_scope with double.
Bind Scope double_scope with double.

Definition NaN : double := SpecFloat.S754_nan.
Definition Infinity : double := SpecFloat.S754_infinity false.
Definition NegInfinity : double := SpecFloat.S754_infinity true.

(** An integer literal of the source (120, 60, 2 and 4 are doubles). *)
Definition lit (z : Z) : double :=
  SpecFloat.binary_normalize 53 1024 z 0 false.

Definition add : double -> double -> double := SpecFloat.SFadd 53 1024.
Definition sub : double -> double -> double := SpecFloat.SFsub 53 1024.
Definition div : double -> double -> double := SpecFloat.SFdiv 53 1024.

(** [a < b], [a > b] and [a <= b]: false as soon as one side is NaN. *)
Definition lt (a b : double) : bool := SpecFloat.SFltb a b.
Definition gt (a b : double) : bool := lt b a.
Definition le (a b : double) : bool := SpecFloat.SFleb a b.

Definition isNaN (a : double) : bool :=
  match a with SpecFloat.S754_nan => true | _ => false end.

(** Neither NaN nor infinite. *)
Definition isFinite (a : double) : bool :=
  match a with
  | SpecFloat.S754_zero _ | SpecFloat.S754_finite _ _ _ => true
  | _ => false
  end.

(** [Math.min] and [Math.max] of two arguments: NaN if either is NaN, and
    [-0] counts as smaller than [+0]. *)
Definition Math_min (a b : double) : double :=
  match SpecFloat.SFcompare a b with
  | None => NaN
  | Some Lt => a
  | Some Gt => b
  | Some Eq => match a with SpecFloat.S754_zero true => a | _ => b end
  end.

Definition Math_max (a b : double) : double :=
  match SpecFloat.SFcompare a b with
  | None => NaN
  | Some Lt => b
  | Some Gt => a
  | Some Eq => match a with SpecFloat.S754_zero false => a | _ => b end
  end.

Infix "+" := add : double_scope.
Infix "-" := sub : double_scope.
Infix "/" := div : double_scope.
Infix "<?" := lt (at level 70, no associativity) : double_scope.
Infix ">?" := gt (at level 70, no associativity) : double_scope.
Infix "<=?" := le (at level 70, no associativity) : double_scope.

(** The real number a finite double stands for, [(-1)^s * m * 2^e]. *)
Definition valueOf (a : double) : Q :=
  match a with
  | SpecFloat.S754_finite s m e =>
      (inject_Z (if s then Zneg m else Zpos m) * Qpower (2 # 1) e)%Q
  | _ => 0%Q
  end.

Local Open Scope double_scope.

(** [{ x, y, width, height }] *)
Module Box.
Record t : Type :=
  mk { x : double; y : double; width : double; height : double }.
End Box.

(** A text item: [{ str, box }] *)
Module Item.
Record t : Type := mk { str : jsstring; box : Box.t }.
End Item.

(** [{ minX, maxX, minY, maxY }] *)
Module MinMax.
Record t : Type :=
  mk { minX : double; maxX : double; minY : double; maxY : double }.
End MinMax.

(** A label: [{ box, items }] *)
Module Label.
Record t : Type := mk { box : Box.t; items : list Item.t }.
End Label.

(** [item => ({...item, box: {...item.box,
                 y: pageHeight - item.box.y - item.box.height }})] *)
Definition transformItem (pageHeight : double) (item : Item.t) : Item.t :=
  let b := Item.box item in
  Item.mk (Item.str item)
    (Box.mk (Box.x b) (pageHeight - Box.y b - Box.height b)
       (Box.width b) (Box.height b)).

(** [item => FNSKU_REGEX.test(item.str.trim())] *)
Definition isAnchor (item : Item.t) : bool :=
  regex_test FNSKU_REGEX (trim (Item.str item)).

(** [{ minX: anchor.box.x - 120, maxX: anchor.box.x + 120,
       minY: anchor.box.y - 60, maxY: anchor.box.y + 60 }] *)
Definition searchBoxOf (anchor : Item.t) : MinMax.t :=
  let b := Item.box anchor in
  MinMax.mk (Box.x b - lit 120) (Box.x b + lit 120)
            (Box.y b - lit 60) (Box.y b + lit 60).

(** The filter predicate of [labelItems]:
    [const itemCenterY = item.box.y + item.box.height / 2;
     return item.box.x > searchBox.minX && item.box.x < searchBox.maxX
         && itemCenterY > searchBox.minY && itemCenterY < searchBox.maxY;] *)
Definition inSearchBox (searchBox : MinMax.t) (item : Item.t) : bool :=
  let b := Item.box item in
  let itemCenterY := Box.y b + Box.height b / lit 2 in
  (Box.x b >? MinMax.minX searchBox) && (Box.x b <? MinMax.maxX searchBox)
  && (itemCenterY >? MinMax.minY searchBox)
  && (itemCenterY <? MinMax.maxY searchBox).

(** The seed of both folds:
    [{ minX: Infinity, maxX: -Infinity, minY: Infinity, maxY: -Infinity }] *)
Definition emptyBox : MinMax.t :=
  MinMax.mk Infinity NegInfinity Infinity NegInfinity.

(** The reducer of both folds:
    [(box, item) => ({ minX: Math.min(box.minX, item.box.x),
                       maxX: Math.max(box.maxX, item.box.x + item.box.width),
                       minY: Math.min(box.minY, item.box.y),
                       maxY: Math.max(box.maxY,
                                      item.box.y + item.box.height) })] *)
Definition unionStep (box : MinMax.t) (item : Item.t) : MinMax.t :=
  let b := Item.box item in
  MinMax.mk (Math_min (MinMax.minX box) (Box.x b))
            (Math_max (MinMax.maxX box) (Box.x b + Box.width b))
            (Math_min (MinMax.minY box) (Box.y b))
            (Math_max (MinMax.maxY box) (Box.y b + Box.height b)).

(** [items.reduce(unionStep, emptyBox)] *)
Definition unionBoxOf (items : list Item.t) : MinMax.t :=
  fold_left unionStep items emptyBox.

(** The [box] of the label returned for an anchor:
    [{ x: labelBox.minX, y: pageHeight - labelBox.maxY,
       width: labelBox.maxX - labelBox.minX,
       height: labelBox.maxY - labelBox.minY }] *)
Definition rectOfLabelBox (pageHeight : double) (labelBox : MinMax.t)
  : Box.t :=
  Box.mk (MinMax.minX labelBox)
         (pageHeight - MinMax.maxY labelBox)
         (MinMax.maxX labelBox - MinMax.minX labelBox)
         (MinMax.maxY labelBox - MinMax.minY labelBox).

(** The body of [anchors.map(anchor => ...)]. *)
Definition labelOfAnchor (pageHeight : double)
    (transformedItems : list Item.t) (anchor : Item.t) : Label.t :=
  let searchBox := searchBoxOf anchor in
  let labelItems := filter (inSearchBox searchBox) transformedItems in
  let labelBox := unionBoxOf labelItems in
  Label.mk (rectOfLabelBox pageHeight labelBox) labelItems.

Definition findLabelsByFnsku (items : list Item.t) (pageHeight : double)
  : list Label.t :=
  let transformedItems := map (transformItem pageHeight) items in
  let anchors := filter isAnchor transformedItems in
  map (labelOfAnchor pageHeight transformedItems) anchors.

Section Resolver.

(** [String.prototype.toLowerCase], given by the host. *)
Variable toLowerCase : jsstring -> jsstring.

(** The filter predicate of [matchedItems]:
    [item => cleanSearchText.includes(
               item.str.replace(/\s+/g, '').toLowerCase())] *)
Definition isMatched (cleanSearchText : jsstring) (item : Item.t) : bool :=
  includes cleanSearchText (toLowerCase (removeWhiteSpace (Item.str item))).

(** [{ x: unionBox.minX - 2,
       y: label.box.height + label.box.y - unionBox.maxY - 2,
       width: unionBox.maxX - unionBox.minX + 4,
       height: unionBox.maxY - unionBox.minY + 4 }] *)
Definition removalRect (label : Label.t) (unionBox : MinMax.t) : Box.t :=
  Box.mk (MinMax.minX unionBox - lit 2)
         (Box.height (Label.box label) + Box.y (Label.box label)
          - MinMax.maxY unionBox - lit 2)
         (MinMax.maxX unionBox - MinMax.minX unionBox + lit 4)
         (MinMax.maxY unionBox - MinMax.minY unionBox + lit 4).

Definition findTextInLabel (label : Label.t) (searchText : jsstring)
  : list Box.t :=
  let cleanSearchText := toLowerCase (removeWhiteSpace searchText) in
  let matchedItems :=
    filter (isMatched cleanSearchText) (Label.items label) in
  if Nat.eqb (List.length matchedItems) 0 then []
  else
    let unionBox := unionBoxOf matchedItems in
    [ removalRect label unionBox ].

End Resolver.

(** [item.box.x], [item.box.y], [item.box.width], [item.box.height]. *)
Definition xOf (item : Item.t) : double := Box.x (Item.box item).
Definition yOf (item : Item.t) : double := Box.y (Item.box item).
Definition widthOf (item : Item.t) : double := Box.width (Item.box item).
Definition heightOf (item : Item.t) : double := Box.height (Item.box item).

(** No NaN among the sides of the token as the folds read them. *)
Definition numericItem (m : Item.t) : Prop :=
  isNaN (xOf m) = false /\ isNaN (xOf m + widthOf m) = false
  /\ isNaN (yOf m) = false /\ isNaN (yOf m + heightOf m) = false.

Definition numericAcc (u : MinMax.t) : Prop :=
  isNaN (MinMax.minX u) = false /\ isNaN (MinMax.maxX u) = false
  /\ isNaN (MinMax.minY u) = false /\ isNaN (MinMax.maxY u) = false.

(** [u] reaches at least as far as [acc] on every side. *)
Definition widens (acc u : MinMax.t) : Prop :=
  (MinMax.minX u <=? MinMax.minX acc) = true
  /\ (MinMax.maxX acc <=? MinMax.maxX u) = true
  /\ (MinMax.minY u <=? MinMax.minY acc) = true
  /\ (MinMax.maxY acc <=? MinMax.maxY u) = true.

(** [u] bounds the token [m]: [minX <= x], [x + width <= maxX],
    [minY <= y], [y + height <= maxY], the sums as the code computes
    them. *)
Definition boundsItem (u : MinMax.t) (m : Item.t) : Prop :=
  (MinMax.minX u <=? xOf m) = true
  /\ (xOf m + widthOf m <=? MinMax.maxX u) = true
  /\ (MinMax.minY u <=? yOf m) = true
  /\ (yOf m + heightOf m <=? MinMax.maxY u) = true.

(** Each side of [u] is the side of some token of [items]. *)
Definition attainedIn (items : list Item.t) (u : MinMax.t) : Prop :=
  (exists m, In m items /\ MinMax.minX u = xOf m)
  /\ (exists m, In m items /\ MinMax.maxX u = xOf m + widthOf m)
  /\ (exists m, In m items /\ MinMax.minY u = yOf m)
  /\ (exists m, In m items /\ MinMax.maxY u = yOf m + heightOf m).

(** The decimal literal [n / d] of an example, for integers that are
    doubles: the double nearest to the quotient. *)
Definition decimal (n d : Z) : double := lit n / lit d.

(** An item of an example. *)
Definition item (s : string) (x y width height : double) : Item.t :=
  Item.mk (js s) (Box.mk x y width height).

End B64.

(** The notations of [B64], for use outside the module. *)
Module B64Notations.
Infix "+" := B64.add : double_scope.
Infix "-" := B64.sub : double_scope.
Infix "/" := B64.div : double_scope.
Infix "<?" := B64.lt (at level 70, no associativity) : double_scope.
Infix ">?" := B64.gt (at level 70, no associativity) : double_scope.
Infix "<=?" := B64.le (at level 70, no associativity) : double_scope.
End B64Notations.
(** ** The handler that applies the modifications of the client

    The second [onRequest] of the repository reads the form field
    [modifications], parses it with [JSON.parse] and walks the value it
    gets without checking its shape.  The value is therefore modelled as
    JavaScript sees it: any JSON value, with the property reads, the index
    reads, the truth test and the [forEach] call of the source, each of
    which can throw. *)

Local Open Scope string_scope.
Local Open Scope list_scope.

#[local] Unset Elimination Schemes.

(** What [JSON.parse] can return.  The members of an object are kept as
    written; a name written twice has the value written last. *)
Inductive json : Type :=
| JNull
| JBoolean (b : bool)
| JNumber (n : B64.double)
| JString (s : jsstring)
| JArray (elements : list json)
| JObject (members : list (jsstring * json)).

#[local] Set Elimination Schemes.

(** A value the handler holds: [None] is [undefined]. *)
Definition jsvalue : Type := option json.

Fixpoint lookup (name : jsstring) (members : list (jsstring * json))
  : jsvalue :=
  match members with
  | [] => None
  | (k, v) :: rest =>
      match lookup name rest with
      | Some w => Some w
      | None => if list_eq_dec N.eq_dec k name then Some v else None
      end
  end.

(** [v.name], for the names the handler reads ([pages], [removeAreas],
    [addText], [x], [y], [width], [height], [text], [fontSize]); no
    array, string, number or boolean has a property of such a name.  The
    outer [None] is the [TypeError] of reading a property of [undefined]
    or [null]. *)
Definition get (v : jsvalue) (name : jsstring) : option jsvalue :=
  match v with
  | None => None
  | Some JNull => None
  | Some (JObject members) => Some (lookup name members)
  | Some _ => Some None
  end.

(** The decimal digits of an index, as a property name. *)
Fixpoint digitsOf (fuel n : nat) : jsstring :=
  match fuel with
  | O => []
  | S fuel' =>
      (if Nat.ltb n 10 then [] else digitsOf fuel' (Nat.div n 10))
        ++ [(48 + N.of_nat (Nat.modulo n 10))%N]
  end.

Definition indexName (i : nat) : jsstring := digitsOf (S i) i.

(** [v[i]] for an index [i]: an element of an array, a code unit of a
    string, the member named by the digits of [i] of an object,
    [undefined] elsewhere; a [TypeError] on [undefined] and [null]. *)
Definition index (v : jsvalue) (i : nat) : option jsvalue :=
  match v with
  | None => None
  | Some JNull => None
  | Some (JArray elements) => Some (nth_error elements i)
  | Some (JString s) =>
      Some (match nth_error s i with
            | Some c => Some (JString [c])
            | None => None
            end)
  | Some (JObject members) => Some (lookup (indexName i) members)
  | Some _ => Some None
  end.

(** The truth test of [if (pageMod)]. *)
Definition isTruthy (v : jsvalue) : bool :=
  match v with
  | None => false
  | Some JNull => false
  | Some (JBoolean b) => b
  | Some (JNumber n) =>
      match n with
      | SpecFloat.S754_zero _ => false
      | SpecFloat.S754_nan => false
      | _ => true
      end
  | Some (JString s) =>
      match s with
      | [] => false
      | _ :: _ => true
      end
  | Some (JArray _) => true
  | Some (JObject _) => true
  end.

(** The elements [v.forEach(f)] visits.  Only an array has a [forEach]
    that can be called: on an object [forEach] is a member or missing, and
    a member is a JSON value, never a function. *)
Definition elementsOf (v : jsvalue) : option (list json) :=
  match v with
  | Some (JArray elements) => Some elements
  | _ => None
  end.

(** A drawing call on a page, with the option values as they are passed. *)
Inductive drawCall : Type :=
| RectangleCall (x y width height : jsvalue)
| TextCall (text : jsvalue) (x : B64.double) (y size : jsvalue).

Section Modifications.

(** The document library: [PDFDocument.load], [getPages] and [save] as for
    the first handler; [widthOfTextAtSize] and the two drawing calls check
    their arguments and can throw, and [accepted] tells whether a drawing
    call returns.  [embedFont] is taken to return.  [JSON_parse] is [None]
    where [JSON.parse] throws, and [toNumber] is the conversion the
    subtraction applies to [textInfo.x]. *)
Variable document : Type.
Variable page : Type.
Variable load : list N -> option document.
Variable getPages : document -> list page.
Variable save : document -> list (list drawCall) -> list N.
Variable JSON_parse : jsstring -> option json.
Variable toNumber : jsvalue -> B64.double.
Variable widthOfTextAtSize : jsvalue -> jsvalue -> option B64.double.
Variable accepted : drawCall -> bool.

(** The body of [pageMod.removeAreas.forEach(area => ...)]. *)
Definition rectangleOf (area : json) : option drawCall :=
  match get (Some area) (js "x") with
  | None => None
  | Some x =>
      match get (Some area) (js "y") with
      | None => None
      | Some y =>
          match get (Some area) (js "width") with
          | None => None
          | Some width =>
              match get (Some area) (js "height") with
              | None => None
              | Some height =>
                  let call := RectangleCall x y width height in
                  if accepted call then Some call else None
              end
          end
      end
  end.

(** The body of [pageMod.addText.forEach(textInfo => ...)]. *)
Definition textOf (textInfo : json) : option drawCall :=
  match get (Some textInfo) (js "text") with
  | None => None
  | Some text =>
      match get (Some textInfo) (js "fontSize") with
      | None => None
      | Some fontSize =>
          match widthOfTextAtSize text fontSize with
          | None => None
          | Some textWidth =>
              match get (Some textInfo) (js "x") with
              | None => None
              | Some x =>
                  match get (Some textInfo) (js "y") with
                  | None => None
                  | Some y =>
                      let call :=
                        TextCall text
                          (B64.sub (toNumber x)
                             (B64.div textWidth (B64.lit 2)))
                          y fontSize in
                      if accepted call then Some call else None
                  end
              end
          end
      end
  end.

(** The body of the loop for one page, from [if (pageMod)] on: the calls
    made on the page, or [None] when an exception leaves the loop. *)
Definition drawingsOfPageMod (pageMod : jsvalue) : option (list drawCall) :=
  if isTruthy pageMod then
    match get pageMod (js "removeAreas") with
    | None => None
    | Some removeAreas =>
        match elementsOf removeAreas with
        | None => None
        | Some areas =>
            match allOrNothing rectangleOf areas with
            | None => None
            | Some rectangles =>
                match get pageMod (js "addText") with
                | None => None
                | Some addText =>
                    match elementsOf addText with
                    | None => None
                    | Some textInfos =>
                        match allOrNothing textOf textInfos with
                        | None => None
                        | Some texts => Some (rectangles ++ texts)
                        end
                    end
                end
            end
        end
    end
  else Some [].

(** [const pageMod = modifications.pages[i]] and the body that follows. *)
Definition drawingsOfIndex (modifications : json) (i : nat)
  : option (list drawCall) :=
  match get (Some modifications) (js "pages") with
  | None => None
  | Some pages =>
      match index pages i with
      | None => None
      | Some pageMod => drawingsOfPageMod pageMod
      end
  end.

(** The [try] block from [JSON.parse] to [pdfDoc.save]. *)
Definition applyModifications (modificationsStr : jsstring)
    (bytes : list N) : option (list N) :=
  match JSON_parse modificationsStr with
  | None => None
  | Some modifications =>
      match load bytes with
      | None => None
      | Some pdfDoc =>
          match allOrNothing (drawingsOfIndex modifications)
                  (seq 0 (List.length (getPages pdfDoc))) with
          | None => None
          | Some drawings => Some (save pdfDoc drawings)
          end
      end
  end.

(** [!modificationsStr]: the field is missing or the empty string. *)
Definition formFalsy (v : formValue) : bool :=
  match v with
  | FormNull => true
  | FormString [] => true
  | _ => false
  end.

Definition onRequest' (req : request) : response :=
  if String.eqb (method req) "OPTIONS" then preflight
  else if negb (String.eqb (method req) "POST") then methodNotAllowed
  else
    match formData req with
    | None => mkResponse 500 [ContentType "application/json"]
                (BodyError ServerFailed)
    | Some form =>
        match form "file" with
        | FormFile name bytes =>
            if formFalsy (form "modifications") then
              mkResponse 400 [ContentType "application/json"]
                (BodyError InvalidRequest)
            else
              match applyModifications (stringOf (form "modifications"))
                      bytes with
              | Some modifiedPdfBytes => attachment name modifiedPdfBytes
              | None => mkResponse 500 [ContentType "application/json"]
                          (BodyError ServerFailed)
              end
        | _ => mkResponse 400 [ContentType "application/json"]
                 (BodyError InvalidRequest)
        end
    end.

End Modifications.

(** *** An example

    A library whose documents are their page counts, that accepts every
    call, takes every text to be 10 wide and saves a document as the number
    of calls made on each page; a request with a file of two pages. *)
Module ModificationsExample.

Definition load (bytes : list N) : option nat := Some (List.length bytes).

Definition getPages (pdfDoc : nat) : list unit := repeat tt pdfDoc.

Definition save (pdfDoc : nat) (drawings : list (list drawCall)) : list N :=
  map (fun calls => N.of_nat (List.length calls)) drawings.

Definition toNumber (v : jsvalue) : B64.double :=
  match v with
  | Some (JNumber n) => n
  | _ => B64.NaN
  end.

Definition widthOfTextAtSize (text size : jsvalue) : option B64.double :=
  Some (B64.lit 10).

Definition accepted (call : drawCall) : bool := true.

Definition number (n : Z) : json := JNumber (B64.lit n).

(** [{"removeAreas":[{"x":1,"y":2,"width":3,"height":4}],
      "addText":[{"text":"Made in China","x":50,"y":7,"fontSize":8}]}] *)
Definition entry : json :=
  JObject
    [ (js "removeAreas",
       JArray [ JObject [ (js "x", number 1); (js "y", number 2);
                          (js "width", number 3); (js "height", number 4) ] ]);
      (js "addText",
       JArray [ JObject [ (js "text", JString (js "Made in China"));
                          (js "x", number 50); (js "y", number 7);
                          (js "fontSize", number 8) ] ]) ].

(** [{"pages":[entry,null,{"removeAreas":7}]}] *)
Definition modifications : json :=
  JObject
    [ (js "pages",
       JArray [ entry; JNull; JObject [ (js "removeAreas", number 7) ] ]) ].

(** [{"pages":[{"removeAreas":[null],"addText":[]}]}] *)
Definition nullArea : json :=
  JObject
    [ (js "pages",
       JArray [ JObject [ (js "removeAreas", JArray [ JNull ]);
                          (js "addText", JArray []) ] ]) ].

Definition form (name : string) : formValue :=
  if String.eqb name "file" then FormFile (js "a.pdf") [37; 80]%N
  else if String.eqb name "modifications" then FormString (js "{}")
  else FormNull.

Definition req : request := mkRequest "POST" (Some form).

End ModificationsExample.

Local Close Scope string_scope.
(** * Properties *)

(** ** Lists *)

Lemma filter_map_comm {A B : Type} (f : A -> B) (p : B -> bool) (l : list A) :
  filter p (map f l) = map f (filter (fun a => p (f a)) l).
Proof.
  induction l as [|a l IH]; simpl; [reflexivity|].
  destruct (p (f a)); simpl; now rewrite IH.
Qed.

(** ** The clusterer makes one label per anchor *)

Lemma isAnchor_transformItem (pageHeight : num) (i : Item.t) :
  isAnchor (transformItem pageHeight i) = isAnchor i.
Proof. reflexivity. Qed.

(** ** The identifier pattern *)

Lemma nonEmpty_true {A : Type} (l : list A) :
  nonEmpty l = true <-> exists a, In a l.
Proof.
  destruct l as [|a l]; simpl; split.
  - discriminate.
  - intros [a []].
  - intros _. exists a. now left.
  - reflexivity.
Qed.

Lemma in_consume (p : N -> bool) (st st' : position) :
  In st' (consume p st)
  <-> exists c, p c = true /\ snd st = c :: snd st' /\ fst st' = S (fst st).
Proof.
  unfold consume. destruct st as [i s], st' as [j t]; simpl.
  destruct s as [|c s]; simpl.
  - split; [intros []|intros (c & _ & H & _); discriminate].
  - destruct (p c) eqn:E; simpl.
    + split.
      * intros [H|[]]. inversion H; subst. now exists c.
      * intros (c' & _ & H & ->). inversion H; subst. now left.
    + split; [intros []|].
      intros (c' & Hc & H & _). inversion H; subst. congruence.
Qed.

(** [n] repetitions of a one-character step consume [n] characters that
    all satisfy the step's test. *)
Lemma in_exactly_consume (p : N -> bool) (n : nat) (st st' : position) :
  In st' (exactly n (consume p) st)
  <-> exists pre, List.length pre = n /\ forallb p pre = true
                  /\ snd st = pre ++ snd st' /\ fst st' = (fst st + n)%nat.
Proof.
  revert st. induction n as [|n IH]; intros st; simpl.
  - split.
    + intros [<-|[]]. exists []. repeat split; simpl; auto.
    + intros (pre & L & _ & E & F).
      destruct pre; [|discriminate]. simpl in E. left.
      destruct st, st'; simpl in *. f_equal; [lia|congruence].
  - rewrite in_flat_map. split.
    + intros (mid & Hm & Hr).
      apply in_consume in Hm. destruct Hm as (c & Hc & Es & Ef).
      apply IH in Hr. destruct Hr as (pre & L & Fp & E & F).
      exists (c :: pre). simpl. rewrite Hc, Fp, Es, E.
      repeat split; auto; lia.
    + intros (pre & L & Fp & E & F).
      destruct pre as [|c pre]; [discriminate|].
      simpl in *. apply andb_prop in Fp. destruct Fp as [Hc Fp].
      exists (S (fst st), pre ++ snd st'). split.
      * apply in_consume. exists c. now repeat split.
      * apply IH. exists pre. simpl. repeat split; auto; lia.
Qed.

(** Up to [n] repetitions of a one-character step. *)
Lemma in_upTo_consume (p : N -> bool) (n : nat) (st st' : position) :
  In st' (upTo n (consume p) st)
  <-> exists pre, (List.length pre <= n)%nat /\ forallb p pre = true
                  /\ snd st = pre ++ snd st'
                  /\ fst st' = (fst st + List.length pre)%nat.
Proof.
  revert st. induction n as [|n IH]; intros st; simpl.
  - split.
    + intros [<-|[]]. exists []. repeat split; simpl; auto.
    + intros (pre & L & _ & E & F).
      destruct pre; [|simpl in L; lia]. simpl in *. left.
      destruct st, st'; simpl in *. f_equal; [lia|congruence].
  - rewrite in_app_iff, in_flat_map. split.
    + intros [(mid & Hm & Hr)|[<-|[]]].
      * apply in_consume in Hm. destruct Hm as (c & Hc & Es & Ef).
        apply IH in Hr. destruct Hr as (pre & L & Fp & E & F).
        exists (c :: pre). simpl. rewrite Hc, Fp, Es, E.
        repeat split; auto; lia.
      * exists []. simpl. repeat split; auto; lia.
    + intros (pre & L & Fp & E & F).
      destruct pre as [|c pre].
      * right. left. simpl in *.
        destruct st, st'; simpl in *. f_equal; [lia|congruence].
      * left. simpl in *. apply andb_prop in Fp. destruct Fp as [Hc Fp].
        exists (S (fst st), pre ++ snd st'). split.
        -- apply in_consume. exists c. now repeat split.
        -- apply IH. exists pre. simpl. repeat split; auto; lia.
Qed.

(** A bounded repetition of a character class. *)
Lemma in_rmatch_repeat_class (ranges : list (N * N)) (lo extra : nat)
    (st st' : position) :
  In st' (rmatch (Repeat lo extra (Class ranges)) st)
  <-> exists body, (lo <= List.length body <= lo + extra)%nat
                   /\ forallb (inClass ranges) body = true
                   /\ snd st = body ++ snd st'
                   /\ fst st' = (fst st + List.length body)%nat.
Proof.
  change (rmatch (Repeat lo extra (Class ranges)) st)
    with (flat_map (upTo extra (consume (inClass ranges)))
            (exactly lo (consume (inClass ranges)) st)).
  rewrite in_flat_map. split.
  - intros (mid & Hm & Hr).
    apply in_exactly_consume in Hm. destruct Hm as (p1 & L1 & F1 & E1 & G1).
    apply in_upTo_consume in Hr. destruct Hr as (p2 & L2 & F2 & E2 & G2).
    exists (p1 ++ p2). rewrite length_app, forallb_app, F1, F2, E1, E2, app_assoc.
    repeat split; auto; lia.
  - intros (body & L & F & E & G).
    exists ((fst st + lo)%nat, skipn lo body ++ snd st').
    rewrite <- (firstn_skipn lo body) in F, E.
    rewrite forallb_app in F. apply andb_prop in F. destruct F as [F1 F2].
    split.
    + apply in_exactly_consume. exists (firstn lo body). simpl.
      rewrite <- app_assoc in E. rewrite length_firstn.
      repeat split; auto; lia.
    + apply in_upTo_consume. exists (skipn lo body). simpl.
      rewrite length_skipn. repeat split; auto; lia.
Qed.

(** A literal consumes exactly its characters. *)
Lemma in_rmatch_literal (c : N) (cs : jsstring) (st st' : position) :
  In st' (rmatch (literal c cs) st)
  <-> snd st = (c :: cs) ++ snd st'
      /\ fst st' = (fst st + List.length (c :: cs))%nat.
Proof.
  revert c st. induction cs as [|c' cs IH]; intros c st.
  - simpl. rewrite in_consume. split.
    + intros (d & Hd & E & F). apply N.eqb_eq in Hd. subst d. split; [auto|lia].
    + intros [E F]. exists c. rewrite N.eqb_refl. repeat split; auto; lia.
  - change (rmatch (literal c (c' :: cs)) st)
      with (flat_map (rmatch (literal c' cs)) (consume (N.eqb c) st)).
    rewrite in_flat_map. split.
    + intros (mid & Hm & Hr).
      apply in_consume in Hm. destruct Hm as (d & Hd & E & F).
      apply N.eqb_eq in Hd. subst d.
      apply IH in Hr. destruct Hr as [E' F'].
      rewrite E, E'. simpl in *. split; [reflexivity|lia].
    + intros [E F].
      exists (S (fst st), (c' :: cs) ++ snd st'). split.
      * apply in_consume. exists c. rewrite N.eqb_refl. now repeat split.
      * apply IH. simpl in *. split; [reflexivity|lia].
Qed.

(** A pattern that begins with [^] can only match from the first position. *)
Lemma existsb_seq_false (f : nat -> bool) (start len : nat) :
  (forall i, (start <= i)%nat -> f i = false) ->
  existsb f (seq start len) = false.
Proof.
  revert start. induction len as [|len IH]; intros start H; simpl.
  - reflexivity.
  - rewrite H by lia. simpl. apply IH. intros i Hi. apply H. lia.
Qed.

Lemma regex_test_anchored (r : regex) (s : jsstring) :
  regex_test (Seq AssertStart r) s = nonEmpty (rmatch r (0%nat, s)).
Proof.
  unfold regex_test. simpl seq. simpl existsb.
  rewrite app_nil_r.
  rewrite existsb_seq_false; [apply orb_false_r|].
  intros i Hi. simpl.
  destruct i as [|i]; [lia|]. reflexivity.
Qed.

Lemma inClass_upperOrDigit (c : N) :
  inClass upperOrDigit c = true <-> upperOrDigitChar c.
Proof.
  unfold inClass, upperOrDigit, upperOrDigitChar. simpl.
  rewrite orb_false_r, orb_true_iff, !andb_true_iff, !N.leb_le. tauto.
Qed.

Lemma forallb_upperOrDigit (s : jsstring) :
  forallb (inClass upperOrDigit) s = true <-> Forall upperOrDigitChar s.
Proof.
  rewrite forallb_forall, Forall_forall.
  split; intros H c Hc; apply inClass_upperOrDigit, H, Hc.
Qed.

Lemma FNSKU_REGEX_test_iff (s : jsstring) :
  regex_test FNSKU_REGEX s = true <-> fnskuShaped s.
Proof.
  unfold FNSKU_REGEX. rewrite regex_test_anchored, nonEmpty_true.
  split.
  - intros (st' & H).
    change (rmatch (Seq ?a ?b) ?st) with (flat_map (rmatch b) (rmatch a st)) in H.
    apply in_flat_map in H. destruct H as (m1 & H1 & H).
    change (rmatch (Seq ?a ?b) ?st) with (flat_map (rmatch b) (rmatch a st)) in H.
    apply in_flat_map in H. destruct H as (m2 & H2 & H3).
    apply in_rmatch_repeat_class in H2.
    destruct H2 as (body & L & F & E & _).
    simpl in H3. destruct (snd m2) eqn:Em2; [|destruct H3].
    rewrite app_nil_r in E.
    change (rmatch (Alt ?a ?b) ?st) with (rmatch a st ++ rmatch b st) in H1.
    apply in_app_iff in H1.
    destruct H1 as [H1|H1]; apply in_rmatch_literal in H1;
      destruct H1 as [E1 _]; simpl in E1.
    + exists (js "X00"), body. rewrite E1, E.
      repeat split; auto; try lia. now apply forallb_upperOrDigit.
    + exists (js "B0"), body. rewrite E1, E.
      repeat split; auto; try lia. now apply forallb_upperOrDigit.
  - intros (prefix & body & -> & P & L & F).
    exists ((List.length prefix + List.length body)%nat, []).
    change (rmatch (Seq ?a ?b) ?st) with (flat_map (rmatch b) (rmatch a st)).
    apply in_flat_map. exists (List.length prefix, body). split.
    + change (rmatch (Alt ?a ?b) ?st) with (rmatch a st ++ rmatch b st).
      apply in_app_iff.
      destruct P as [-> | ->]; [left|right];
        apply in_rmatch_literal; simpl; auto.
    + change (rmatch (Seq ?a ?b) ?st) with (flat_map (rmatch b) (rmatch a st)).
      apply in_flat_map.
      exists ((List.length prefix + List.length body)%nat, []). split.
      * apply in_rmatch_repeat_class. exists body. simpl.
        rewrite app_nil_r. repeat split; auto; try lia.
        now apply forallb_upperOrDigit.
      * simpl. now left.
Qed.

Lemma fnskuShaped_chars (s : jsstring) :
  fnskuShaped s -> Forall upperOrDigitChar s.
Proof.
  intros (prefix & body & -> & P & _ & F).
  apply Forall_app. split; [|exact F].
  destruct P as [-> | ->]; now apply forallb_upperOrDigit.
Qed.

(** C2, as the code has it.  A token is an anchor exactly when its
    trimmed text is, as a whole, ["X00"] or ["B0"] followed by eight to ten
    characters of [[A-Z0-9]]; it then has 10 to 13 characters.  So
    ["A012345678"] is not an anchor, and text that contains an identifier
    next to any character outside [[A-Z0-9]] is not one.  Text that
    contains an identifier is an anchor only if it is of that shape as a
    whole. *)
Theorem isAnchor_iff_fnskuShaped :
  (forall item : Item.t,
      isAnchor item = true <-> fnskuShaped (trim (Item.str item)))
  /\ (forall box : Box.t, isAnchor (Item.mk (js "A012345678") box) = false)
  /\ (forall (item : Item.t) (pre m post : jsstring),
         trim (Item.str item) = pre ++ m ++ post ->
         fnskuShaped m ->
         Exists (fun c => ~ upperOrDigitChar c) (pre ++ post) ->
         isAnchor item = false)
  /\ (forall item : Item.t,
         isAnchor item = true ->
         (10 <= List.length (trim (Item.str item)) <= 13)%nat)
  /\ (forall (item : Item.t) (pre m post : jsstring),
         trim (Item.str item) = pre ++ m ++ post ->
         fnskuShaped m ->
         (isAnchor item = true <-> fnskuShaped (pre ++ m ++ post))).
Proof.
  split; [|split; [|split; [|split]]].
  - intros item. apply FNSKU_REGEX_test_iff.
  - intros box. reflexivity.
  - intros item pre m post E _ X.
    apply not_true_is_false. intros A.
    apply FNSKU_REGEX_test_iff, fnskuShaped_chars in A.
    rewrite E in A.
    apply Forall_app in A. destruct A as [A1 A2].
    apply Forall_app in A2. destruct A2 as [_ A2].
    apply Exists_app in X. rewrite !Exists_exists in X.
    rewrite Forall_forall in A1, A2.
    destruct X as [(c & Hc & N)|(c & Hc & N)]; apply N; auto.
  - intros item A. apply FNSKU_REGEX_test_iff in A.
    destruct A as (prefix & body & -> & P & L & _).
    rewrite length_app. destruct P as [-> | ->]; simpl; lia.
  - intros item pre m post E _. rewrite <- E. apply FNSKU_REGEX_test_iff.
Qed.

Lemma isAnchor_iff_fnskuShaped_witness :
  isAnchor (textItem "  B0ABCDEFGH " 100 700 44 8) = true
  /\ isAnchor (textItem "SKU B0ABCDEFGH" 100 700 44 8) = false.
Proof.
  destruct isAnchor_iff_fnskuShaped as (A & _ & C & _). split.
  - apply A. exists (js "B0"), (js "ABCDEFGH").
    repeat split; [now right|simpl; lia|simpl; lia|].
    now apply forallb_upperOrDigit.
  - apply (C _ (js "SKU ") (js "B0ABCDEFGH") []).
    + reflexivity.
    + exists (js "B0"), (js "ABCDEFGH").
      repeat split; [now right|simpl; lia|simpl; lia|].
      now apply forallb_upperOrDigit.
    + rewrite app_nil_r. change (js "SKU ") with [83; 75; 85; 32]%N.
      do 3 apply Exists_cons_tl. apply Exists_cons_hd.
      unfold upperOrDigitChar. lia.
Defined.

(** An identifier inside longer text can be an anchor: ["B0ABCDEFGHIJ"]
    is ["B0ABCDEFGH"] followed by ["IJ"], and ["X00B0ABCDEFGH"] is
    ["B0ABCDEFGH"] after ["X00"]; both are of the shape as a whole. *)
Lemma identifier_in_longer_text_counterexample :
  fnskuShaped (js "B0ABCDEFGH")
  /\ js "B0ABCDEFGHIJ" = js "B0ABCDEFGH" ++ js "IJ"
  /\ isAnchor (textItem "B0ABCDEFGHIJ" 100 700 44 8) = true
  /\ js "X00B0ABCDEFGH" = js "X00" ++ js "B0ABCDEFGH"
  /\ isAnchor (textItem "X00B0ABCDEFGH" 100 700 44 8) = true.
Proof.
  split; [|repeat split].
  exists (js "B0"), (js "ABCDEFGH").
  repeat split; [now right|simpl; lia|simpl; lia|].
  now apply forallb_upperOrDigit.
Qed.

(** ** Membership in a label *)

Lemma inSearchBox_true (searchBox : MinMax.t) (t : Item.t) :
  inSearchBox searchBox t = true
  <-> (MinMax.minX searchBox <? Box.x (Item.box t)) = true
      /\ (Box.x (Item.box t) <? MinMax.maxX searchBox) = true
      /\ (MinMax.minY searchBox
          <? Box.y (Item.box t) + Box.height (Item.box t) / lit 2) = true
      /\ (Box.y (Item.box t) + Box.height (Item.box t) / lit 2
          <? MinMax.maxY searchBox) = true.
Proof.
  unfold inSearchBox, num_gt. rewrite !andb_true_iff. tauto.
Qed.

Lemma in_findLabelsByFnsku (items : list Item.t) (pageHeight : num)
    (label : Label.t) :
  In label (findLabelsByFnsku items pageHeight)
  <-> exists anchor,
        In anchor (map (transformItem pageHeight) items)
        /\ isAnchor anchor = true
        /\ label = labelOfAnchor pageHeight
                     (map (transformItem pageHeight) items) anchor.
Proof.
  unfold findLabelsByFnsku. rewrite in_map_iff. split.
  - intros (a & <- & Ha). apply filter_In in Ha. exists a. tauto.
  - intros (a & Ha & Hb & ->). exists a. split; [reflexivity|].
    apply filter_In. tauto.
Qed.

(** ** Substring search *)

Lemma startsWith_iff (needle hay : jsstring) :
  startsWith needle hay = true <-> exists post, hay = needle ++ post.
Proof.
  revert hay. induction needle as [|a n IH]; intros hay; simpl.
  - split; [intros _; now exists hay|reflexivity].
  - destruct hay as [|b h].
    + split; [discriminate|intros (post & E); discriminate].
    + rewrite andb_true_iff, N.eqb_eq, IH. split.
      * intros (-> & post & ->). now exists post.
      * intros (post & E). inversion E; subst. split; [reflexivity|now exists post].
Qed.

Lemma includes_iff (hay needle : jsstring) :
  includes hay needle = true
  <-> exists pre post, hay = pre ++ needle ++ post.
Proof.
  induction hay as [|c h IH].
  - simpl. rewrite orb_false_r, startsWith_iff. split.
    + intros (post & E). now exists [], post.
    + intros (pre & post & E). destruct pre; [now exists post|discriminate].
  - change (includes (c :: h) needle)
      with (startsWith needle (c :: h) || includes h needle).
    rewrite orb_true_iff, startsWith_iff, IH. split.
    + intros [(post & E)|(pre & post & E)].
      * now exists [], post.
      * exists (c :: pre), post. simpl. now rewrite E.
    + intros (pre & post & E). destruct pre as [|c' pre].
      * left. now exists post.
      * right. inversion E; subst. now exists pre, post.
Qed.

(** ** Removal areas *)

(** *** An empty search text *)

(** [findTextInLabel] returns the empty list, for an empty search text,
    exactly when no token of the label has a text that is empty once
    white space is stripped and letters are lower-cased. *)
Lemma findTextInLabel_empty_search
    (toLowerCase : jsstring -> jsstring) (label : Label.t) :
  toLowerCase [] = [] ->
  findTextInLabel toLowerCase label [] = []
  <-> forall item : Item.t,
        In item (Label.items label) ->
        toLowerCase (removeWhiteSpace (Item.str item)) <> [].
Proof.
  intros E. unfold findTextInLabel, clean. simpl removeWhiteSpace. rewrite E.
  set (matchedItems := filter _ _).
  assert (M : matchedItems = []
              <-> forall item, In item (Label.items label) ->
                               toLowerCase (removeWhiteSpace (Item.str item))
                               <> []).
  { split.
    - intros Em item Hi Hc.
      assert (Hin : In item matchedItems).
      { apply filter_In. split; [exact Hi|].
        unfold isMatched, clean. now rewrite Hc. }
      rewrite Em in Hin. destruct Hin.
    - intros H. destruct matchedItems as [|i rest] eqn:Em; [reflexivity|].
      assert (Hin : In i matchedItems) by (rewrite Em; now left).
      apply filter_In in Hin. destruct Hin as [Hi Hm].
      unfold isMatched, clean in Hm.
      destruct (toLowerCase (removeWhiteSpace (Item.str i))) eqn:Ec.
      + now apply H in Hi.
      + discriminate. }
  rewrite <- M. destruct matchedItems; simpl; split; congruence.
Qed.

(** C8, as the code has it.  With an empty search text the removal step of
    [onRequest] is skipped by its guard [if (textToRemove)], whatever the
    tokens of the label: no removal area is produced, and a page is left
    with text insertions only.  [findTextInLabel] itself, given an empty
    search text, returns the empty list exactly when no token of the label
    has a text that is empty once cleaned. *)
Theorem empty_search_no_removal_areas
    (toLowerCase : jsstring -> jsstring)
    (widthOfTextAtSize : jsstring -> num -> num) :
  toLowerCase [] = [] ->
  (forall label : Label.t, removalStep toLowerCase label [] = [])
  /\ (forall (addMadeInChina : bool) (fontSize : num)
             (textItems : list Item.t) (height : num) (op : drawOp),
         In op (processPage toLowerCase widthOfTextAtSize []
                  addMadeInChina fontSize textItems height) ->
         isDrawText op)
  /\ (forall label : Label.t,
         findTextInLabel toLowerCase label [] = []
         <-> forall item : Item.t,
               In item (Label.items label) ->
               toLowerCase (removeWhiteSpace (Item.str item)) <> []).
Proof.
  intros E. split; [reflexivity|]. split.
  - intros addMadeInChina fontSize textItems height op H.
    unfold processPage in H. apply in_flat_map in H.
    destruct H as (label & _ & H).
    unfold processLabel in H. simpl in H.
    unfold insertionStep in H.
    destruct addMadeInChina; simpl in H; [|contradiction].
    destruct H as [<-|[]]. exact I.
  - intros label. now apply findTextInLabel_empty_search.
Qed.

Lemma empty_search_no_removal_areas_witness :
  removalStep asciiLower
    (hd (Label.mk (Box.mk NaN NaN NaN NaN) []) scenarioLabels) []
  = []
  /\ findTextInLabel asciiLower
       (hd (Label.mk (Box.mk NaN NaN NaN NaN) []) scenarioLabels) []
     = [].
Proof.
  destruct (empty_search_no_removal_areas asciiLower (fun _ _ => Fin 50)
              eq_refl) as (A & _ & C).
  split; [apply A|].
  apply C. intros item [<-|[<-|[]]]; discriminate.
Defined.

(** C8 as stated fails for [findTextInLabel] on its own: on a page with an
    identifier and, next to it, a text made of one space, the label holds
    both tokens, and the empty search text matches the blank one, since the
    empty string contains the empty string.  The area returned is that
    token's box, widened by 2. *)
Lemma empty_search_blank_token_counterexample :
  let blank := Item.mk (js " ")
                 (Box.mk (lit 150) (lit 700) (Fin (44 # 10)) (lit 8)) in
  let labels :=
    findLabelsByFnsku [textItem "B0ABCDEFGH" 100 700 44 8; blank] (lit 800) in
  map (fun l => map Item.str (Label.items l)) labels
  = [[js "B0ABCDEFGH"; js " "]]
  /\ map (fun l => findTextInLabel asciiLower l (js "")) labels
     = [[Box.mk (Fin 148) (Fin 606) (Fin (84 # 10)) (Fin 12)]].
Proof. split; reflexivity. Qed.

(** ** Insertion placement *)

Lemma centre_minus_half (bx bw tw : num) :
  num_eq (bx + (bw - tw) / lit 2) (bx + bw / lit 2 - tw / lit 2).
Proof.
  destruct bx as [| |x|], bw as [| |w|], tw as [| |t|]; simpl; try exact I.
  unfold inject_Z. field.
Qed.

(** C6.  The text is drawn at [x = box.x + (box.width - textWidth) / 2],
    which is the horizontal centre of the label box minus half the text
    width, and at [y = box.y + 2], two units above the bottom edge.  In the
    box [{x:0, y:0, width:200, height:50}] that is [x = 100 - textWidth/2]
    and [y = 2], whatever the text width, hence for any font size.  The
    variant that applies the client's modifications draws at
    [x = textInfo.x - textWidth / 2], [y = textInfo.y]. *)
Theorem insertion_placement
    (widthOfTextAtSize : jsstring -> num -> num)
    (label : Label.t) (fontSize : num) :
  let box := Label.box label in
  let textWidth := widthOfTextAtSize MadeInChina fontSize in
  (exists x y : num,
      insertionStep widthOfTextAtSize label true fontSize
      = [DrawText MadeInChina x y fontSize]
      /\ x = Box.x box + (Box.width box - textWidth) / lit 2
      /\ num_eq x (Box.x box + Box.width box / lit 2 - textWidth / lit 2)
      /\ y = Box.y box + lit 2
      /\ (box = Box.mk (lit 0) (lit 0) (lit 200) (lit 50) ->
          num_eq x (lit 100 - textWidth / lit 2) /\ num_eq y (lit 2)))
  /\ (forall textInfo : TextInfo,
         drawAddedText widthOfTextAtSize textInfo
         = DrawText (ti_text textInfo)
             (ti_x textInfo
              - widthOfTextAtSize (ti_text textInfo) (ti_fontSize textInfo)
                / lit 2)
             (ti_y textInfo) (ti_fontSize textInfo)).
Proof.
  intros box textWidth. split; [|reflexivity].
  eexists. eexists. split; [reflexivity|].
  fold box. fold textWidth.
  repeat split.
  - apply centre_minus_half.
  - rewrite H. simpl.
    destruct textWidth as [| |t|]; simpl; try exact I.
    unfold inject_Z. field.
  - rewrite H. simpl. reflexivity.
Qed.

Lemma insertion_placement_witness :
  exists x y : num,
    insertionStep (fun _ _ => Fin 50)
      (Label.mk (Box.mk (lit 0) (lit 0) (lit 200) (lit 50)) []) true (lit 8)
    = [DrawText MadeInChina x y (lit 8)]
    /\ num_eq x (lit 100 - Fin 50 / lit 2) /\ num_eq y (lit 2).
Proof.
  destruct (insertion_placement (fun _ _ => Fin 50)
              (Label.mk (Box.mk (lit 0) (lit 0) (lit 200) (lit 50)) [])
              (lit 8)) as ((x & y & E & _ & _ & _ & Hc) & _).
  exists x, y. split; [exact E|].
  exact (Hc eq_refl).
Defined.

(** ** Text items of the extractor *)

Section ExtractorFacts.

Variable matchTm : jsstring -> option (list jsstring).
Variable matchTj : jsstring -> option jsstring.
Variable parseFloat : jsstring -> num.

Lemma in_getTextItemsWithCoords (textBlocks : list jsstring) (item : Item.t) :
  In item (getTextItemsWithCoords matchTm matchTj parseFloat textBlocks)
  <-> exists block,
        In block textBlocks
        /\ textItemOfBlock matchTm matchTj parseFloat block = Some item.
Proof.
  induction textBlocks as [|b rest IH]; simpl.
  - split; [intros []|intros (block & [] & _)].
  - destruct (textItemOfBlock matchTm matchTj parseFloat b) as [it|] eqn:E.
    + simpl. rewrite IH. split.
      * intros [<-|(block & Hb & Hi)]; [exists b; auto|exists block; auto].
      * intros (block & [<-|Hb] & Hi).
        -- left. congruence.
        -- right. now exists block.
    + rewrite IH. split.
      * intros (block & Hb & Hi). exists block; auto.
      * intros (block & [<-|Hb] & Hi); [congruence|now exists block].
Qed.

(** C7, as the code has it.  Every text item comes from a block whose
    [Tm] operands [a b c d e f] and shown string both matched.  Its font
    size is [a] when [a > 0] and [d] otherwise (so also when [a] is
    negative, zero or NaN); its position is [(e, f)], its width
    [text.length * fontSize * 0.55] and its height [fontSize]. *)
Theorem text_item_geometry (textBlocks : list jsstring) (item : Item.t) :
  In item (getTextItemsWithCoords matchTm matchTj parseFloat textBlocks) ->
  exists (block : jsstring) (groups : list jsstring) (text : jsstring),
    In block textBlocks
    /\ matchTm block = Some groups
    /\ matchTj block = Some text
    /\ let matrix := map parseFloat groups in
       let a := entry matrix 0 in
       let d := entry matrix 3 in
       let e := entry matrix 4 in
       let f := entry matrix 5 in
       let fontSize := if a >? lit 0 then a else d in
       Item.str item = text
       /\ Box.x (Item.box item) = e
       /\ Box.y (Item.box item) = f
       /\ Box.width (Item.box item)
          = lit (Z.of_nat (List.length text)) * fontSize * lit_0_55
       /\ Box.height (Item.box item) = fontSize.
Proof.
  intros H. apply in_getTextItemsWithCoords in H.
  destruct H as (block & Hb & Hi).
  unfold textItemOfBlock in Hi.
  destruct (matchTm block) as [groups|] eqn:Em; [|discriminate].
  destruct (matchTj block) as [text|] eqn:Ej; [|discriminate].
  exists block, groups, text.
  injection Hi as <-. simpl. repeat split; auto.
Qed.

End ExtractorFacts.

(** The operands of [BT -8 0 0 8 10 20 Tm (x) Tj ET]. *)
Lemma text_item_geometry_witness :
  exists item : Item.t,
    getTextItemsWithCoords
      (fun _ => Some [js "-8"; js "0"; js "0"; js "8"; js "10"; js "20"])
      (fun _ => Some (js "x")) parseIntegerOperand
      [js "BT -8 0 0 8 10 20 Tm (x) Tj ET"]
    = [item]
    /\ Box.x (Item.box item) = lit 10
    /\ Box.y (Item.box item) = lit 20
    /\ Box.height (Item.box item) = lit 8.
Proof.
  eexists. split; [reflexivity|].
  destruct (text_item_geometry
              (fun _ => Some [js "-8"; js "0"; js "0"; js "8"; js "10"; js "20"])
              (fun _ => Some (js "x")) parseIntegerOperand
              [js "BT -8 0 0 8 10 20 Tm (x) Tj ET"] _ (or_introl eq_refl))
    as (block & groups & text & _ & Em & Ej & _ & X & Y & _ & Hh).
  injection Em as <-. injection Ej as <-.
  rewrite X, Y, Hh. repeat split.
Defined.

(** C7 as the specification states it fails for a negative [a]: in the block
    [BT -8 0 0 8 10 20 Tm (x) Tj ET] the operand [a = -8] is not zero, yet
    the font size, hence the height, is [d = 8]. *)
Lemma font_size_negative_a_counterexample :
  let matchTm := fun _ : jsstring =>
    Some [js "-8"; js "0"; js "0"; js "8"; js "10"; js "20"] in
  let matchTj := fun _ : jsstring => Some (js "x") in
  let block := js "BT -8 0 0 8 10 20 Tm (x) Tj ET" in
  let a := parseIntegerOperand (js "-8") in
  exists item : Item.t,
    textItemOfBlock matchTm matchTj parseIntegerOperand block = Some item
    /\ a = lit (-8)
    /\ ~ num_eq a (lit 0)
    /\ Box.height (Item.box item) = lit 8
    /\ ~ num_eq (Box.height (Item.box item)) a.
Proof.
  eexists. split; [reflexivity|]. simpl.
  repeat split; intros H; vm_compute in H; discriminate.
Qed.

(** ** Order on numbers *)

Lemma num_lt_Fin (a b : Q) : (Fin a <? Fin b) = true <-> (a < b)%Q.
Proof.
  simpl. unfold Qlt_bool. rewrite negb_true_iff. split.
  - intros H. apply Qnot_le_lt. intros L.
    apply Qle_bool_iff in L. congruence.
  - intros H. apply not_true_is_false. intros L.
    apply Qle_bool_iff in L. lra.
Qed.

(** ** The resolver on references *)

Local Open Scope string_scope.
Local Open Scope list_scope.

Unset Implicit Arguments.

Lemma extends_refl (h : heap) : extends h h.
Proof. exists []. now rewrite app_nil_r. Qed.

Lemma extends_trans (h1 h2 h3 : heap) :
  extends h1 h2 -> extends h2 h3 -> extends h1 h3.
Proof.
  intros (e1 & ->) (e2 & ->). exists (e1 ++ e2)%list. now rewrite app_assoc.
Qed.

Lemma extends_snoc (h : heap) (o : object) : extends h (h ++ [o]).
Proof. now exists [o]. Qed.

Lemma nth_error_extends (h h' : heap) (l : nat) (o : object) :
  extends h h' -> nth_error h l = Some o -> nth_error h' l = Some o.
Proof.
  intros (ext & ->) H. rewrite nth_error_app1; [exact H|].
  apply nth_error_Some. congruence.
Qed.

Lemma nth_error_fresh (h : heap) (o : object) :
  nth_error (h ++ [o]) (List.length h) = Some o.
Proof. rewrite nth_error_app2, Nat.sub_diag; [reflexivity|lia]. Qed.

(** *** What is read from a store is read from every extension of it *)

Lemma heapGet_extends (h h' : heap) (v : value) (name : string) (w : value) :
  extends h h' -> heapGet h v name = Some w -> heapGet h' v name = Some w.
Proof.
  intros E. destruct v as [| | |l]; simpl; auto.
  destruct (nth_error h l) as [o|] eqn:N; [|discriminate].
  now rewrite (nth_error_extends _ _ _ _ E N).
Qed.

Lemma heapElems_extends (h h' : heap) (v : value) (elems : list value) :
  extends h h' -> heapElems h v = Some elems -> heapElems h' v = Some elems.
Proof.
  intros E. destruct v as [| | |l]; simpl; auto.
  destruct (nth_error h l) as [o|] eqn:N; [|discriminate].
  now rewrite (nth_error_extends _ _ _ _ E N).
Qed.

Lemma readNum_Some (h : heap) (v : value) (name : string) (n : num) :
  readNum h v name = Some n <-> heapGet h v name = Some (VNum n).
Proof.
  unfold readNum. destruct (heapGet h v name) as [[| | |]|]; split;
    congruence.
Qed.

Lemma readNum_extends (h h' : heap) (v : value) (name : string) (n : num) :
  extends h h' -> readNum h v name = Some n -> readNum h' v name = Some n.
Proof.
  intros E. rewrite !readNum_Some. now apply heapGet_extends.
Qed.

Lemma readBox_Some (h : heap) (v : value) (b : Box.t) :
  readBox h v = Some b
  <-> readNum h v "x" = Some (Box.x b) /\ readNum h v "y" = Some (Box.y b)
      /\ readNum h v "width" = Some (Box.width b)
      /\ readNum h v "height" = Some (Box.height b).
Proof.
  unfold readBox. destruct b as [x y w ht]. simpl.
  destruct (readNum h v "x"), (readNum h v "y"),
           (readNum h v "width"), (readNum h v "height");
    (split; intros H;
     [ try discriminate; injection H as <- <- <- <-; repeat split
     | decompose [and] H; congruence ]).
Qed.

Lemma readBox_extends (h h' : heap) (v : value) (b : Box.t) :
  extends h h' -> readBox h v = Some b -> readBox h' v = Some b.
Proof.
  intros E. rewrite !readBox_Some. intros (X & Y & W & H).
  repeat split; eapply readNum_extends; eassumption.
Qed.

Lemma readMinMax_Some (h : heap) (v : value) (u : MinMax.t) :
  readMinMax h v = Some u
  <-> readNum h v "minX" = Some (MinMax.minX u)
      /\ readNum h v "maxX" = Some (MinMax.maxX u)
      /\ readNum h v "minY" = Some (MinMax.minY u)
      /\ readNum h v "maxY" = Some (MinMax.maxY u).
Proof.
  unfold readMinMax. destruct u as [a b c d]. simpl.
  destruct (readNum h v "minX"), (readNum h v "maxX"),
           (readNum h v "minY"), (readNum h v "maxY");
    (split; intros H;
     [ try discriminate; injection H as <- <- <- <-; repeat split
     | decompose [and] H; congruence ]).
Qed.

Lemma readItem_Some (h : heap) (v : value) (it : Item.t) :
  readItem h v = Some it
  <-> heapGet h v "str" = Some (VStr (Item.str it))
      /\ exists boxRef, heapGet h v "box" = Some boxRef
                        /\ readBox h boxRef = Some (Item.box it).
Proof.
  unfold readItem. destruct it as [s b]. simpl. split.
  - destruct (heapGet h v "str") as [[| |s'|]|]; try discriminate.
    destruct (heapGet h v "box") as [boxRef|]; try discriminate.
    destruct (readBox h boxRef) as [b'|] eqn:B; try discriminate.
    intros H. injection H as -> ->. split; [reflexivity|now exists boxRef].
  - intros (-> & boxRef & -> & ->). reflexivity.
Qed.

Lemma readItem_extends (h h' : heap) (v : value) (it : Item.t) :
  extends h h' -> readItem h v = Some it -> readItem h' v = Some it.
Proof.
  intros E. rewrite !readItem_Some. intros (S & boxRef & B & R).
  split; [eapply heapGet_extends; eassumption|].
  exists boxRef. split; [eapply heapGet_extends|eapply readBox_extends];
    eassumption.
Qed.

Lemma readAll_extends {A : Type} (rd rd' : value -> option A)
    (l : list value) (r : list A) :
  (forall v a, rd v = Some a -> rd' v = Some a) ->
  readAll rd l = Some r -> readAll rd' l = Some r.
Proof.
  intros Hrd. revert r. induction l as [|v l IH]; intros r; simpl; auto.
  destruct (rd v) as [a|] eqn:Ev; [|discriminate].
  destruct (readAll rd l) as [r'|]; [|discriminate].
  intros H. injection H as <-.
  now rewrite (Hrd _ _ Ev), (IH _ eq_refl).
Qed.

Lemma readLabel_extends (h h' : heap) (v : value) (label : Label.t) :
  extends h h' -> readLabel h v = Some label -> readLabel h' v = Some label.
Proof.
  intros E. unfold readLabel.
  destruct (heapGet h v "box") as [boxRef|] eqn:B; [|discriminate].
  destruct (heapGet h v "items") as [itemsRef|] eqn:I; [|discriminate].
  destruct (readBox h boxRef) as [b|] eqn:RB; [|discriminate].
  destruct (heapElems h itemsRef) as [elems|] eqn:EL; [|discriminate].
  destruct (readAll (readItem h) elems) as [items|] eqn:RA; [|discriminate].
  intros H.
  rewrite (heapGet_extends _ _ _ _ _ E B), (heapGet_extends _ _ _ _ _ E I).
  rewrite (readBox_extends _ _ _ _ E RB), (heapElems_extends _ _ _ _ E EL).
  rewrite (readAll_extends (readItem h) (readItem h') elems items
             (fun v a => readItem_extends h h' v a E) RA).
  exact H.
Qed.

Lemma readBoxes_extends (h h' : heap) (v : value) (boxes : list Box.t) :
  extends h h' -> readBoxes h v = Some boxes -> readBoxes h' v = Some boxes.
Proof.
  intros E. unfold readBoxes.
  destruct (heapElems h v) as [elems|] eqn:EL; [|discriminate].
  rewrite (heapElems_extends _ _ _ _ E EL).
  apply readAll_extends. intros w b. now apply readBox_extends.
Qed.

(** *** Running the steps *)

Lemma bind_run {A B : Type} (m : M A) (f : A -> M B) (h h' : heap) (a : A) :
  m h = Some (a, h') -> bind m f h = f a h'.
Proof. unfold bind. now intros ->. Qed.

Lemma getProp_run (h : heap) (v : value) (name : string) (w : value) :
  heapGet h v name = Some w -> getProp v name h = Some (w, h).
Proof. unfold getProp, liftOption. now intros ->. Qed.

Lemma getNum_run (h : heap) (v : value) (name : string) (n : num) :
  readNum h v name = Some n -> getNum v name h = Some (n, h).
Proof.
  rewrite readNum_Some. intros H. unfold getNum.
  now rewrite (bind_run _ _ _ _ _ (getProp_run _ _ _ _ H)).
Qed.

Lemma getElems_run (h : heap) (v : value) (elems : list value) :
  heapElems h v = Some elems -> getElems v h = Some (elems, h).
Proof. unfold getElems, liftOption. now intros ->. Qed.

Lemma readNum_fresh (h : heap) (props : list (string * value))
    (name : string) (n : num) :
  assoc name props = Some (VNum n) ->
  readNum (h ++ [Obj props]) (VRef (List.length h)) name = Some n.
Proof.
  intros H. unfold readNum. simpl. now rewrite nth_error_fresh, H.
Qed.

(** One step of the fold reads the accumulator and the item and returns a
    fresh object that holds what [unionStep] computes. *)
Lemma unionStepRef_spec (h : heap) (acc iv : value) (u : MinMax.t)
    (it : Item.t) :
  readMinMax h acc = Some u -> readItem h iv = Some it ->
  exists o,
    unionStepRef acc iv h = Some (VRef (List.length h), (h ++ [o])%list)
    /\ readMinMax (h ++ [o]) (VRef (List.length h)) = Some (unionStep u it).
Proof.
  intros U I.
  apply readMinMax_Some in U. destruct U as (U1 & U2 & U3 & U4).
  apply readItem_Some in I. destruct I as (_ & boxRef & B & R).
  apply readBox_Some in R. destruct R as (X & Y & W & H).
  eexists. unfold unionStepRef.
  rewrite (bind_run _ _ _ _ _ (getProp_run _ _ _ _ B)).
  rewrite (bind_run _ _ _ _ _ (getNum_run _ _ _ _ U1)), (bind_run _ _ _ _ _ (getNum_run _ _ _ _ X)).
  rewrite (bind_run _ _ _ _ _ (getNum_run _ _ _ _ U2)), (bind_run _ _ _ _ _ (getNum_run _ _ _ _ W)).
  rewrite (bind_run _ _ _ _ _ (getNum_run _ _ _ _ U3)), (bind_run _ _ _ _ _ (getNum_run _ _ _ _ Y)).
  rewrite (bind_run _ _ _ _ _ (getNum_run _ _ _ _ U4)), (bind_run _ _ _ _ _ (getNum_run _ _ _ _ H)).
  split; [reflexivity|].
  apply readMinMax_Some. unfold unionStep. simpl.
  repeat split; now apply readNum_fresh.
Qed.

Lemma reduceM_unionStepRef_spec (l : list value) (items : list Item.t)
    (h : heap) (acc : value) (u : MinMax.t) :
  readAll (readItem h) l = Some items -> readMinMax h acc = Some u ->
  exists v h',
    reduceM unionStepRef l acc h = Some (v, h')
    /\ extends h h'
    /\ readMinMax h' v = Some (fold_left unionStep items u).
Proof.
  revert items h acc u.
  induction l as [|iv l IH]; intros items h acc u RA U; simpl in *.
  - injection RA as <-. exists acc, h.
    repeat split; auto using extends_refl.
  - destruct (readItem h iv) as [it|] eqn:I; [|discriminate].
    destruct (readAll (readItem h) l) as [rest|] eqn:R; [|discriminate].
    injection RA as <-.
    destruct (unionStepRef_spec h acc iv u it U I) as (o & Run & U').
    rewrite (bind_run _ _ _ _ _ Run).
    assert (R' : readAll (readItem (h ++ [o])) l = Some rest).
    { eapply readAll_extends; [|exact R].
      intros w a. apply readItem_extends, extends_snoc. }
    destruct (IH _ _ _ _ R' U') as (v & h' & Run' & E & U'').
    exists v, h'. repeat split; auto.
    eapply extends_trans; [apply extends_snoc|exact E].
Qed.

Section ResolverOnReferencesFacts.

Variable toLowerCase : jsstring -> jsstring.

Lemma isMatchedRef_run (cleanSearchText : jsstring) (h : heap) (iv : value)
    (it : Item.t) :
  readItem h iv = Some it ->
  isMatchedRef toLowerCase cleanSearchText iv h
  = Some (isMatched toLowerCase cleanSearchText it, h).
Proof.
  intros I. apply readItem_Some in I. destruct I as (S & _).
  unfold isMatchedRef, bind, getProp, asStr, liftOption, ret.
  now rewrite S.
Qed.

(** The filter reads the items and leaves the store as it is. *)
Lemma filterM_isMatchedRef_spec (cleanSearchText : jsstring)
    (l : list value) (items : list Item.t) (h : heap) :
  readAll (readItem h) l = Some items ->
  exists matched,
    filterM (isMatchedRef toLowerCase cleanSearchText) l h = Some (matched, h)
    /\ readAll (readItem h) matched
       = Some (filter (isMatched toLowerCase cleanSearchText) items).
Proof.
  revert items. induction l as [|iv l IH]; intros items RA; simpl in *.
  - injection RA as <-. now exists [].
  - destruct (readItem h iv) as [it|] eqn:I; [|discriminate].
    destruct (readAll (readItem h) l) as [rest|] eqn:R; [|discriminate].
    injection RA as <-.
    destruct (IH _ eq_refl) as (kept & Run & RK).
    rewrite (bind_run _ _ _ _ _ (isMatchedRef_run cleanSearchText h iv it I)).
    rewrite (bind_run _ _ _ _ _ Run). unfold ret.
    eexists. split; [reflexivity|]. simpl.
    destruct (isMatched toLowerCase cleanSearchText it);
      simpl; [rewrite I, RK|rewrite RK]; reflexivity.
Qed.

(** Run on a store that holds the label, the resolver on references
    returns, in an extension of the store, an array that holds the
    rectangles of [findTextInLabel]. *)
Lemma findTextInLabelRef_spec (h : heap) (labelRef : value) (label : Label.t)
    (searchText : jsstring) :
  readLabel h labelRef = Some label ->
  exists result h',
    findTextInLabelRef toLowerCase labelRef searchText h = Some (result, h')
    /\ extends h h'
    /\ readBoxes h' result
       = Some (findTextInLabel toLowerCase label searchText).
Proof.
  unfold readLabel.
  destruct (heapGet h labelRef "box") as [boxRef|] eqn:B; [|discriminate].
  destruct (heapGet h labelRef "items") as [itemsRef|] eqn:I; [|discriminate].
  destruct (readBox h boxRef) as [b|] eqn:RB; [|discriminate].
  destruct (heapElems h itemsRef) as [elems|] eqn:EL; [|discriminate].
  destruct (readAll (readItem h) elems) as [items|] eqn:RA; [|discriminate].
  intros L. injection L as <-.
  destruct (filterM_isMatchedRef_spec (clean toLowerCase searchText) elems
              items h RA)
    as (matched & Run & RM).
  unfold findTextInLabelRef, findTextInLabel. simpl Label.items.
  rewrite (bind_run _ _ _ _ _ (getProp_run _ _ _ _ I)).
  rewrite (bind_run _ _ _ _ _ (getElems_run _ _ _ EL)).
  rewrite (bind_run _ _ _ _ _ Run).
  unfold alloc at 1. unfold bind at 1.
  set (h1 := (h ++ [Arr matched])%list).
  assert (E1 : extends h h1) by apply extends_snoc.
  set (matchedItems := filter _ items) in *.
  assert (LEN : List.length matched = List.length matchedItems).
  { clear - RM. revert RM. generalize matchedItems.
    induction matched as [|v m IH]; intros mi; simpl.
    - intros H. now injection H as <-.
    - destruct (readItem h v); [|discriminate].
      destruct (readAll (readItem h) m) as [r|]; [|discriminate].
      intros H. injection H as <-. simpl. f_equal. now apply IH. }
  rewrite LEN.
  destruct (Nat.eqb (List.length matchedItems) 0).
  - eexists. eexists. split; [reflexivity|]. split.
    + eapply extends_trans; [exact E1|apply extends_snoc].
    + unfold readBoxes. simpl. now rewrite nth_error_fresh.
  - unfold alloc at 1. unfold bind at 1.
    set (seed := Obj _). set (h2 := (h1 ++ [seed])%list).
    assert (E2 : extends h h2)
      by (eapply extends_trans; [exact E1|apply extends_snoc]).
    assert (U0 : readMinMax h2 (VRef (List.length h1)) = Some emptyBox).
    { apply readMinMax_Some. unfold h2, seed.
      repeat split; now apply readNum_fresh. }
    assert (RM2 : readAll (readItem h2) matched = Some matchedItems).
    { eapply readAll_extends; [|exact RM].
      intros w a. now apply readItem_extends. }
    destruct (reduceM_unionStepRef_spec matched matchedItems h2 _ _ RM2 U0)
      as (ub & h3 & RunR & E3 & U).
    rewrite (bind_run _ _ _ _ _ RunR).
    fold (unionBoxOf matchedItems) in U.
    apply readMinMax_Some in U. destruct U as (U1 & U2 & U3 & U4).
    assert (E03 : extends h h3) by (eapply extends_trans; eassumption).
    pose proof (heapGet_extends _ _ _ _ _ E03 B) as B3.
    pose proof (readBox_extends _ _ _ _ E03 RB) as RB3.
    apply readBox_Some in RB3. destruct RB3 as (_ & Y3 & _ & H3).
    rewrite (bind_run _ _ _ _ _ (getNum_run _ _ _ _ U1)).
    rewrite (bind_run _ _ _ _ _ (getProp_run _ _ _ _ B3)).
    rewrite (bind_run _ _ _ _ _ (getNum_run _ _ _ _ H3)), (bind_run _ _ _ _ _ (getNum_run _ _ _ _ Y3)).
    rewrite (bind_run _ _ _ _ _ (getNum_run _ _ _ _ U4)), (bind_run _ _ _ _ _ (getNum_run _ _ _ _ U2)).
    rewrite (bind_run _ _ _ _ _ (getNum_run _ _ _ _ U3)).
    unfold alloc at 1. unfold bind at 1.
    eexists. eexists. split; [reflexivity|]. split.
    + eapply extends_trans; [exact E03|].
      eapply extends_trans; apply extends_snoc.
    + unfold readBoxes. simpl heapElems. rewrite nth_error_fresh.
      simpl readAll.
      set (area := Obj _).
      assert (RBox : readBox ((h3 ++ [area]) ++ [Arr [VRef (List.length h3)]])
                       (VRef (List.length h3))
                     = Some (removalRect (Label.mk b items)
                               (unionBoxOf matchedItems))).
      { apply (readBox_extends (h3 ++ [area])); [apply extends_snoc|].
        apply readBox_Some. unfold area, removalRect. simpl.
        repeat split; now apply readNum_fresh. }
      now rewrite RBox.
Qed.

(** C9.  A call of [findTextInLabel] on a label held in the store returns
    the rectangles that the function of the label and the search text
    determines, and only adds objects to the store: every object that was
    there, the label, its box, its items and their boxes among them, is
    unchanged.  So a second call on the same label and text returns equal
    rectangles, the label reads the same after each call, and the result
    of the first call is not touched by the second. *)
Theorem findTextInLabel_deterministic_and_pure
    (h : heap) (labelRef : value) (label : Label.t) (searchText : jsstring) :
  readLabel h labelRef = Some label ->
  exists (r1 : value) (h1 : heap) (r2 : value) (h2 : heap),
    findTextInLabelRef toLowerCase labelRef searchText h = Some (r1, h1)
    /\ findTextInLabelRef toLowerCase labelRef searchText h1 = Some (r2, h2)
    /\ readBoxes h1 r1 = Some (findTextInLabel toLowerCase label searchText)
    /\ readBoxes h2 r2 = Some (findTextInLabel toLowerCase label searchText)
    /\ readBoxes h2 r1 = readBoxes h1 r1
    /\ extends h h1 /\ extends h1 h2
    /\ readLabel h1 labelRef = Some label
    /\ readLabel h2 labelRef = Some label.
Proof.
  intros L.
  destruct (findTextInLabelRef_spec h labelRef label searchText L)
    as (r1 & h1 & Run1 & E1 & R1).
  pose proof (readLabel_extends _ _ _ _ E1 L) as L1.
  destruct (findTextInLabelRef_spec h1 labelRef label searchText L1)
    as (r2 & h2 & Run2 & E2 & R2).
  exists r1, h1, r2, h2. repeat split; auto.
  - rewrite R1. now apply (readBoxes_extends h1 h2).
  - now apply (readLabel_extends h1 h2).
Qed.

End ResolverOnReferencesFacts.

Lemma findTextInLabel_deterministic_and_pure_witness :
  exists (r1 : value) (h1 : heap) (r2 : value) (h2 : heap),
    findTextInLabelRef asciiLower scenarioLabelRef (js "SomeText")
      scenarioHeap = Some (r1, h1)
    /\ findTextInLabelRef asciiLower scenarioLabelRef (js "SomeText") h1
       = Some (r2, h2)
    /\ readBoxes h2 r2 = readBoxes h1 r1
    /\ readLabel h2 scenarioLabelRef = readLabel scenarioHeap scenarioLabelRef.
Proof.
  destruct (findTextInLabel_deterministic_and_pure asciiLower
              scenarioHeap scenarioLabelRef
              (hd (Label.mk (Box.mk NaN NaN NaN NaN) []) scenarioLabels)
              (js "SomeText") eq_refl)
    as (r1 & h1 & r2 & h2 & Run1 & Run2 & R1 & R2 & _ & _ & _ & _ & L2).
  exists r1, h1, r2, h2. repeat split; auto.
  now rewrite R1, R2.
Defined.

Set Implicit Arguments.

Local Close Scope string_scope.

(** ** Order on doubles *)

Import B64Notations.
Local Open Scope double_scope.

Unset Implicit Arguments.

Ltac double_cases :=
  repeat match goal with
         | x : B64.double |- _ => destruct x as [[|]|[|]| |[|] ? ?]
         end;
  unfold B64.le, B64.lt, B64.gt, B64.Math_min, B64.Math_max, B64.isNaN,
         SpecFloat.SFleb, SpecFloat.SFltb, SpecFloat.SFcompare in *;
  cbn [negb] in *;
  repeat match goal with
         | H : context [Z.compare ?a ?b] |- _ =>
             destruct (Z.compare_spec a b)
         | |- context [Z.compare ?a ?b] =>
             destruct (Z.compare_spec a b)
         | H : context [Pos.compare_cont Eq ?a ?b] |- _ =>
             change (Pos.compare_cont Eq a b) with (Pos.compare a b) in *;
             destruct (Pos.compare_spec a b)
         | |- context [Pos.compare_cont Eq ?a ?b] =>
             change (Pos.compare_cont Eq a b) with (Pos.compare a b) in *;
             destruct (Pos.compare_spec a b)
         end;
  subst; cbn [CompOpp] in *;
  try reflexivity; try discriminate; try congruence; try lia.

Lemma double_le_refl (a : B64.double) :
  B64.isNaN a = false -> (a <=? a) = true.
Proof. intros H. double_cases. Qed.

Lemma double_le_trans (a b c : B64.double) :
  (a <=? b) = true -> (b <=? c) = true -> (a <=? c) = true.
Proof. intros H1 H2. double_cases. Qed.

Lemma Math_min_le (a b : B64.double) :
  B64.isNaN a = false -> B64.isNaN b = false ->
  (B64.Math_min a b <=? a) = true /\ (B64.Math_min a b <=? b) = true
  /\ B64.isNaN (B64.Math_min a b) = false.
Proof. intros Ha Hb. double_cases; repeat split; double_cases. Qed.

Lemma Math_max_ge (a b : B64.double) :
  B64.isNaN a = false -> B64.isNaN b = false ->
  (a <=? B64.Math_max a b) = true /\ (b <=? B64.Math_max a b) = true
  /\ B64.isNaN (B64.Math_max a b) = false.
Proof. intros Ha Hb. double_cases; repeat split; double_cases. Qed.

Lemma Math_min_is_argument (a b : B64.double) :
  B64.Math_min a b = a \/ B64.Math_min a b = b.
Proof. double_cases; auto. Qed.

Lemma Math_max_is_argument (a b : B64.double) :
  B64.Math_max a b = a \/ B64.Math_max a b = b.
Proof. double_cases; auto. Qed.

(** ** The folds on doubles *)

Lemma B64_unionStep_spec (acc : B64.MinMax.t) (m : B64.Item.t) :
  B64.numericAcc acc -> B64.numericItem m ->
  B64.numericAcc (B64.unionStep acc m)
  /\ B64.widens acc (B64.unionStep acc m)
  /\ B64.boundsItem (B64.unionStep acc m) m.
Proof.
  intros (A1 & A2 & A3 & A4) (M1 & M2 & M3 & M4).
  destruct (Math_min_le _ _ A1 M1) as (L1 & R1 & N1).
  destruct (Math_max_ge _ _ A2 M2) as (L2 & R2 & N2).
  destruct (Math_min_le _ _ A3 M3) as (L3 & R3 & N3).
  destruct (Math_max_ge _ _ A4 M4) as (L4 & R4 & N4).
  unfold B64.numericAcc, B64.widens, B64.boundsItem, B64.unionStep.
  cbn [B64.MinMax.minX B64.MinMax.maxX B64.MinMax.minY B64.MinMax.maxY].
  repeat split; assumption.
Qed.

Lemma B64_fold_unionStep_bounds (items : list B64.Item.t)
    (acc : B64.MinMax.t) :
  B64.numericAcc acc -> Forall B64.numericItem items ->
  let u := fold_left B64.unionStep items acc in
  B64.numericAcc u /\ B64.widens acc u
  /\ forall m, In m items -> B64.boundsItem u m.
Proof.
  revert acc. induction items as [|i items IH]; intros acc A F; simpl.
  - split; [exact A|]. split; [|intros m []].
    destruct A as (A1 & A2 & A3 & A4).
    repeat split; now apply double_le_refl.
  - inversion F as [|? ? Fi Fr]; subst.
    destruct (B64_unionStep_spec acc i A Fi) as (A' & W & B).
    destruct (IH _ A' Fr) as (Au & Wu & Bu).
    split; [exact Au|]. split.
    + destruct W as (W1 & W2 & W3 & W4), Wu as (V1 & V2 & V3 & V4).
      repeat split; eapply double_le_trans; eassumption.
    + intros m [<-|Hm]; [|now apply Bu].
      destruct Wu as (V1 & V2 & V3 & V4), B as (B1 & B2 & B3 & B4).
      repeat split; eapply double_le_trans; eassumption.
Qed.

Lemma B64_unionBoxOf_bounds (items : list B64.Item.t) (m : B64.Item.t) :
  Forall B64.numericItem items -> In m items ->
  B64.boundsItem (B64.unionBoxOf items) m.
Proof.
  intros F Hm.
  destruct (B64_fold_unionStep_bounds items B64.emptyBox) as (_ & _ & B);
    [repeat split|exact F|now apply B].
Qed.

Lemma B64_fold_unionStep_attained (all rest : list B64.Item.t)
    (acc : B64.MinMax.t) :
  incl rest all -> B64.attainedIn all acc ->
  B64.attainedIn all (fold_left B64.unionStep rest acc).
Proof.
  revert acc. induction rest as [|i rest IH]; intros acc Hin A; simpl.
  - exact A.
  - apply IH; [intros x Hx; apply Hin; now right|].
    assert (Hi : In i all) by (apply Hin; now left).
    destruct A as ((m1 & I1 & E1) & (m2 & I2 & E2)
                   & (m3 & I3 & E3) & (m4 & I4 & E4)).
    unfold B64.attainedIn, B64.unionStep.
    cbn [B64.MinMax.minX B64.MinMax.maxX B64.MinMax.minY B64.MinMax.maxY].
    fold (B64.xOf i) (B64.yOf i) (B64.widthOf i) (B64.heightOf i).
    repeat split.
    + destruct (Math_min_is_argument (B64.MinMax.minX acc) (B64.xOf i))
        as [-> | ->]; [now exists m1|now exists i].
    + destruct (Math_max_is_argument (B64.MinMax.maxX acc)
                  (B64.xOf i + B64.widthOf i))
        as [-> | ->]; [now exists m2|now exists i].
    + destruct (Math_min_is_argument (B64.MinMax.minY acc) (B64.yOf i))
        as [-> | ->]; [now exists m3|now exists i].
    + destruct (Math_max_is_argument (B64.MinMax.maxY acc)
                  (B64.yOf i + B64.heightOf i))
        as [-> | ->]; [now exists m4|now exists i].
Qed.

Lemma B64_Math_min_Infinity (b : B64.double) :
  B64.Math_min B64.Infinity b = b.
Proof. destruct b as [[|]|[|]| |[|] ? ?]; reflexivity. Qed.

Lemma B64_Math_max_NegInfinity (b : B64.double) :
  B64.Math_max B64.NegInfinity b = b.
Proof. destruct b as [[|]|[|]| |[|] ? ?]; reflexivity. Qed.

(** The box of a fold over a non-empty list: every side is attained. *)
Lemma B64_unionBoxOf_attained (items : list B64.Item.t) :
  items <> [] -> B64.attainedIn items (B64.unionBoxOf items).
Proof.
  destruct items as [|i rest]; [congruence|]. intros _.
  unfold B64.unionBoxOf.
  change (fold_left B64.unionStep (i :: rest) B64.emptyBox)
    with (fold_left B64.unionStep rest (B64.unionStep B64.emptyBox i)).
  apply B64_fold_unionStep_attained.
  - intros x Hx. now right.
  - unfold B64.attainedIn, B64.unionStep, B64.emptyBox.
    cbn [B64.MinMax.minX B64.MinMax.maxX B64.MinMax.minY B64.MinMax.maxY].
    rewrite !B64_Math_min_Infinity, !B64_Math_max_NegInfinity.
    repeat split; exists i; split; auto; now left.
Qed.

(** ** The labels of a page, anchor by anchor *)

Lemma B64_labels_of_anchors (items : list B64.Item.t)
    (pageHeight : B64.double) :
  Forall2
    (fun anchor label =>
       label = B64.labelOfAnchor pageHeight
                 (map (B64.transformItem pageHeight) items) anchor)
    (filter B64.isAnchor (map (B64.transformItem pageHeight) items))
    (B64.findLabelsByFnsku items pageHeight).
Proof.
  unfold B64.findLabelsByFnsku.
  induction (filter B64.isAnchor (map (B64.transformItem pageHeight) items))
    as [|a l IH]; simpl; constructor; auto.
Qed.

Lemma Forall2_impl {A B : Type} (P Q : A -> B -> Prop) (l : list A)
    (l' : list B) :
  (forall a b, P a b -> Q a b) -> Forall2 P l l' -> Forall2 Q l l'.
Proof. intros H F. induction F; constructor; auto. Qed.

Lemma B64_inSearchBox_true (searchBox : B64.MinMax.t) (t : B64.Item.t) :
  B64.inSearchBox searchBox t = true
  <-> (B64.MinMax.minX searchBox <? B64.xOf t) = true
      /\ (B64.xOf t <? B64.MinMax.maxX searchBox) = true
      /\ (B64.MinMax.minY searchBox
          <? B64.yOf t + B64.heightOf t / B64.lit 2) = true
      /\ (B64.yOf t + B64.heightOf t / B64.lit 2
          <? B64.MinMax.maxY searchBox) = true.
Proof.
  unfold B64.inSearchBox, B64.gt, B64.xOf, B64.yOf, B64.heightOf.
  rewrite !andb_true_iff. tauto.
Qed.

(** ** One label for each anchor *)

(** C1.  [findLabelsByFnsku] returns one label for each token of the page
    whose trimmed text has the shape of an identifier, in the order of the
    tokens and without merging: the anchors are the tokens after the
    coordinate transform [y' = pageHeight - y - height], and the label of an
    anchor holds the transformed tokens of the page that pass the four
    comparisons against the window around this anchor, with the box the
    fold makes of them.  So there are as many labels as anchor tokens. *)
Theorem one_label_per_anchor (items : list B64.Item.t)
    (pageHeight : B64.double) :
  let transformed :=
    map (fun item =>
           B64.Item.mk (B64.Item.str item)
             (B64.Box.mk (B64.xOf item)
                (pageHeight - B64.yOf item - B64.heightOf item)
                (B64.widthOf item) (B64.heightOf item)))
        items in
  let anchors :=
    filter (fun t => regex_test FNSKU_REGEX (trim (B64.Item.str t)))
           transformed in
  let labels := B64.findLabelsByFnsku items pageHeight in
  (forall t, In t anchors
             <-> In t transformed /\ fnskuShaped (trim (B64.Item.str t)))
  /\ List.length labels
     = List.length
         (filter (fun item =>
                    regex_test FNSKU_REGEX (trim (B64.Item.str item)))
                 items)
  /\ Forall2
       (fun anchor label =>
          let members :=
            filter
              (fun t =>
                 (B64.xOf t >? B64.xOf anchor - B64.lit 120)
                 && (B64.xOf t <? B64.xOf anchor + B64.lit 120)
                 && (B64.yOf t + B64.heightOf t / B64.lit 2
                     >? B64.yOf anchor - B64.lit 60)
                 && (B64.yOf t + B64.heightOf t / B64.lit 2
                     <? B64.yOf anchor + B64.lit 60))
              transformed in
          let u :=
            fold_left
              (fun box m =>
                 B64.MinMax.mk
                   (B64.Math_min (B64.MinMax.minX box) (B64.xOf m))
                   (B64.Math_max (B64.MinMax.maxX box)
                      (B64.xOf m + B64.widthOf m))
                   (B64.Math_min (B64.MinMax.minY box) (B64.yOf m))
                   (B64.Math_max (B64.MinMax.maxY box)
                      (B64.yOf m + B64.heightOf m)))
              members
              (B64.MinMax.mk B64.Infinity B64.NegInfinity
                             B64.Infinity B64.NegInfinity) in
          label
          = B64.Label.mk
              (B64.Box.mk (B64.MinMax.minX u)
                 (pageHeight - B64.MinMax.maxY u)
                 (B64.MinMax.maxX u - B64.MinMax.minX u)
                 (B64.MinMax.maxY u - B64.MinMax.minY u))
              members)
       anchors labels.
Proof.
  intros transformed anchors labels. split; [|split].
  - intros t. unfold anchors. rewrite filter_In.
    now rewrite FNSKU_REGEX_test_iff.
  - unfold labels, B64.findLabelsByFnsku.
    rewrite length_map, filter_map_comm, length_map. reflexivity.
  - exact (B64_labels_of_anchors items pageHeight).
Qed.

(** ** Membership in a label *)

(** C3.  For every anchor, in the order of the page, a transformed token
    [t] is among the items of that anchor's label exactly when the four
    strict comparisons of the source hold between the doubles it computes:
    [ax - 120 < t.x], [t.x < ax + 120], [ay - 60 < t.y + t.height / 2] and
    [t.y + t.height / 2 < ay + 60], with [(ax, ay)] the transformed
    position of the anchor.  Two tokens with the same [x] and the same
    computed centre are both in or both out. *)
Theorem label_membership_window (items : list B64.Item.t)
    (pageHeight : B64.double) :
  let transformed :=
    map (fun item =>
           B64.Item.mk (B64.Item.str item)
             (B64.Box.mk (B64.xOf item)
                (pageHeight - B64.yOf item - B64.heightOf item)
                (B64.widthOf item) (B64.heightOf item)))
        items in
  let anchors :=
    filter (fun t => regex_test FNSKU_REGEX (trim (B64.Item.str t)))
           transformed in
  let centre := fun t => B64.yOf t + B64.heightOf t / B64.lit 2 in
  Forall2
    (fun anchor label =>
       let ax := B64.xOf anchor in
       let ay := B64.yOf anchor in
       (forall t,
           In t (B64.Label.items label)
           <-> In t transformed
               /\ (ax - B64.lit 120 <? B64.xOf t) = true
               /\ (B64.xOf t <? ax + B64.lit 120) = true
               /\ (ay - B64.lit 60 <? centre t) = true
               /\ (centre t <? ay + B64.lit 60) = true)
       /\ (forall t t',
              In t transformed -> In t' transformed ->
              B64.xOf t = B64.xOf t' -> centre t = centre t' ->
              (In t (B64.Label.items label)
               <-> In t' (B64.Label.items label))))
    anchors (B64.findLabelsByFnsku items pageHeight).
Proof.
  intros transformed anchors centre.
  assert (K : Forall2
                (fun anchor label =>
                   forall t,
                     In t (B64.Label.items label)
                     <-> In t transformed
                         /\ (B64.xOf anchor - B64.lit 120 <? B64.xOf t)
                            = true
                         /\ (B64.xOf t <? B64.xOf anchor + B64.lit 120)
                            = true
                         /\ (B64.yOf anchor - B64.lit 60 <? centre t) = true
                         /\ (centre t <? B64.yOf anchor + B64.lit 60) = true)
                anchors (B64.findLabelsByFnsku items pageHeight)).
  { eapply Forall2_impl; [|exact (B64_labels_of_anchors items pageHeight)].
    intros anchor label -> t.
    unfold B64.labelOfAnchor. cbn [B64.Label.items].
    rewrite filter_In, B64_inSearchBox_true. reflexivity. }
  eapply Forall2_impl; [|exact K].
  intros anchor label H. cbv zeta. split; [exact H|].
  intros t t' Ht Ht' Ex Ec. rewrite (H t), (H t'), Ex, Ec. tauto.
Qed.

(** Read with real numbers the four inequalities say more than the code
    decides.  An identifier at [x = 100], [y = -1e18] with height 8 on a
    page of height 0 has the transformed position [(100, 1e18)]; as real
    numbers [ay - 60 < ay + 4 < ay + 60], but [ay - 60] and [ay + 4] both
    round to [ay], so the anchor is not in its own label. *)
Lemma window_in_real_numbers_counterexample :
  let token :=
    B64.item "B0ABCDEFGH" (B64.lit 100) (B64.lit (- 10 ^ 18)) (B64.lit 44)
             (B64.lit 8) in
  let t := B64.transformItem (B64.lit 0) token in
  let ax := B64.valueOf (B64.xOf t) in
  let ay := B64.valueOf (B64.yOf t) in
  let centre := (ay + B64.valueOf (B64.heightOf t) / 2)%Q in
  B64.isAnchor t = true
  /\ (ax - 120 < B64.valueOf (B64.xOf t))%Q
  /\ (B64.valueOf (B64.xOf t) < ax + 120)%Q
  /\ (ay - 60 < centre)%Q /\ (centre < ay + 60)%Q
  /\ map B64.Label.items (B64.findLabelsByFnsku [token] (B64.lit 0)) = [[]].
Proof. vm_compute. repeat split; reflexivity. Qed.

(** ** The removal area *)



(** The scenario of the specification from the tokens on: a page of height
    800 with the identifier at (100, 700) and ["SomeText"] at (90, 690),
    font size 8, widths [length * 8 * 0.55].  Both tokens are gathered into
    the one label of the page, and the search for ["SomeText"] gives the
    rectangle at (88, 596), 39.2 wide and 12 high. *)
Example scenario_in_doubles :
  let items :=
    [ B64.item "B0ABCDEFGH" (B64.lit 100) (B64.lit 700) (B64.lit 44)
               (B64.lit 8);
      B64.item "SomeText" (B64.lit 90) (B64.lit 690) (B64.decimal 352 10)
               (B64.lit 8) ] in
  map (fun label => map B64.Item.str (B64.Label.items label))
      (B64.findLabelsByFnsku items (B64.lit 800))
  = [[js "B0ABCDEFGH"; js "SomeText"]]
  /\ map B64.Label.box (B64.findLabelsByFnsku items (B64.lit 800))
     = [ B64.Box.mk (B64.lit 90) (B64.lit 690) (B64.lit 54) (B64.lit 18) ]
  /\ map (fun label => B64.findTextInLabel asciiLower label (js "SomeText"))
         (B64.findLabelsByFnsku items (B64.lit 800))
     = [[ B64.Box.mk (B64.lit 88) (B64.lit 596) (B64.decimal 392 10)
                     (B64.lit 12) ]].
Proof. vm_compute. repeat split; reflexivity. Qed.

(** ** The union box and the rectangles made of it *)




(** ** The anchor and its own window *)

Lemma double_between_finite (a b c : B64.double) :
  (a <? b) = true -> (b <? c) = true -> B64.isFinite b = true.
Proof.
  intros H1 H2.
  destruct a as [[|]|[|]| |[|] ? ?], b as [[|]|[|]| |[|] ? ?],
           c as [[|]|[|]| |[|] ? ?];
    try reflexivity; discriminate.
Qed.

Lemma double_add_finite (a b : B64.double) :
  B64.isFinite (a + b) = true ->
  B64.isFinite a = true /\ B64.isFinite b = true.
Proof.
  destruct a as [[|]|[|]| |[|] ? ?], b as [[|]|[|]| |[|] ? ?];
    intros H; try (split; reflexivity); discriminate.
Qed.

Lemma double_half_finite (a : B64.double) :
  B64.isFinite (a / B64.lit 2) = true -> B64.isFinite a = true.
Proof.
  destruct a as [[|]|[|]| |[|] ? ?]; intros H; try reflexivity;
    discriminate.
Qed.


(** The scenario of the specification: the anchor passes its own test. *)
Example scenario_anchor_own_test :
  let ax := B64.lit 100 in
  let ay := B64.lit 92 in
  let h := B64.lit 8 in
  (ax - B64.lit 120 <? ax) && (ax <? ax + B64.lit 120)
  && (ay - B64.lit 60 <? ay + h / B64.lit 2)
  && (ay + h / B64.lit 2 <? ay + B64.lit 60) = true.
Proof. reflexivity. Qed.


Set Implicit Arguments.

Local Close Scope double_scope.

(** * Further properties of the code *)

(** ** Drawing operations of a page *)

Lemma countIf_app {A : Type} (p : A -> bool) (l1 l2 : list A) :
  countIf p (l1 ++ l2) = (countIf p l1 + countIf p l2)%nat.
Proof. unfold countIf. now rewrite filter_app, length_app. Qed.

Lemma countIf_flat_map_le {A B : Type} (p : B -> bool) (f : A -> list B)
    (l : list A) (k : nat) :
  (forall a, In a l -> (countIf p (f a) <= k)%nat) ->
  (countIf p (flat_map f l) <= k * List.length l)%nat.
Proof.
  induction l as [|a l IH]; intros H; simpl.
  - unfold countIf. simpl. lia.
  - rewrite countIf_app.
    assert (countIf p (f a) <= k)%nat by (apply H; now left).
    assert (countIf p (flat_map f l) <= k * List.length l)%nat
      by (apply IH; intros b Hb; apply H; now right).
    lia.
Qed.

Lemma countIf_flat_map_eq {A B : Type} (p : B -> bool) (f : A -> list B)
    (l : list A) (k : nat) :
  (forall a, In a l -> countIf p (f a) = k) ->
  countIf p (flat_map f l) = (k * List.length l)%nat.
Proof.
  induction l as [|a l IH]; intros H; simpl.
  - unfold countIf. simpl. lia.
  - rewrite countIf_app, (H a) by now left.
    rewrite IH by (intros b Hb; apply H; now right). lia.
Qed.

(** [findTextInLabel] returns no rectangle or one. *)
Lemma findTextInLabel_at_most_one
    (toLowerCase : jsstring -> jsstring) (label : Label.t)
    (searchText : jsstring) :
  (List.length (findTextInLabel toLowerCase label searchText) <= 1)%nat.
Proof.
  unfold findTextInLabel.
  destruct (Nat.eqb _ 0); simpl; lia.
Qed.

Lemma length_findLabelsByFnsku (items : list Item.t) (pageHeight : num) :
  List.length (findLabelsByFnsku items pageHeight)
  = List.length (filter isAnchor items).
Proof.
  unfold findLabelsByFnsku.
  rewrite length_map, filter_map_comm, length_map.
  now rewrite (filter_ext _ isAnchor (isAnchor_transformItem pageHeight)).
Qed.

(** X1.  On a page, [onRequest] draws one "Made in China" text for each
    identifier token when the option is set and none otherwise, and at most
    one white rectangle for each identifier token.  A page without an
    identifier token is left as it is, whatever the options. *)
Theorem page_draws_per_identifier
    (toLowerCase : jsstring -> jsstring)
    (widthOfTextAtSize : jsstring -> num -> num)
    (textToRemove : jsstring) (addMadeInChina : bool) (fontSize : num)
    (textItems : list Item.t) (height : num) :
  let identifiers := List.length (filter isAnchor textItems) in
  let ops := processPage toLowerCase widthOfTextAtSize textToRemove
               addMadeInChina fontSize textItems height in
  countIf isText ops = (if addMadeInChina then identifiers else 0)%nat
  /\ (countIf isRectangle ops <= identifiers)%nat
  /\ (identifiers = 0%nat -> ops = []).
Proof.
  intros identifiers ops. unfold ops, processPage.
  pose proof (length_findLabelsByFnsku textItems height) as L.
  fold identifiers in L.
  set (labels := findLabelsByFnsku textItems height) in *.
  split; [|split].
  - rewrite countIf_flat_map_eq
      with (k := (if addMadeInChina then 1 else 0)%nat).
    + rewrite L. destruct addMadeInChina; lia.
    + intros label _. unfold processLabel. rewrite countIf_app.
      assert (R : countIf isText (removalStep toLowerCase label textToRemove)
                  = 0%nat).
      { unfold removalStep. destruct (truthy textToRemove); [|reflexivity].
        unfold countIf.
        induction (findTextInLabel toLowerCase label textToRemove);
          simpl; auto. }
      rewrite R. unfold insertionStep.
      destruct addMadeInChina; reflexivity.
  - rewrite <- L, <- (Nat.mul_1_l (List.length labels)).
    apply countIf_flat_map_le.
    intros label _. unfold processLabel. rewrite countIf_app.
    assert (T : countIf isRectangle
                  (insertionStep widthOfTextAtSize label addMadeInChina
                     fontSize) = 0%nat)
      by (unfold insertionStep; destruct addMadeInChina; reflexivity).
    rewrite T, Nat.add_0_r. unfold removalStep.
    destruct (truthy textToRemove); [|unfold countIf; simpl; lia].
    unfold countIf.
    eapply Nat.le_trans; [apply filter_length_le|].
    rewrite length_map. apply findTextInLabel_at_most_one.
  - intros Z. rewrite Z in L.
    destruct labels; [reflexivity|discriminate].
Qed.

(** ** Which tokens a search text matches *)

Lemma includes_nil (hay : jsstring) : includes hay [] = true.
Proof. destruct hay; reflexivity. Qed.

(** X2.  A token whose text is empty once white space is stripped and
    letters are lower-cased is matched by every search text, because every
    string contains the empty string.  A label that holds such a token
    therefore yields a removal area for any search text, also one that
    occurs nowhere in the label. *)
Theorem blank_token_always_matched
    (toLowerCase : jsstring -> jsstring) (label : Label.t)
    (searchText : jsstring) (item : Item.t) :
  In item (Label.items label) ->
  toLowerCase (removeWhiteSpace (Item.str item)) = [] ->
  isMatched toLowerCase (clean toLowerCase searchText) item = true
  /\ exists area : Box.t,
       findTextInLabel toLowerCase label searchText = [area].
Proof.
  intros Hi Hc.
  assert (M : isMatched toLowerCase (clean toLowerCase searchText) item = true).
  { unfold isMatched, clean. rewrite Hc. apply includes_nil. }
  split; [exact M|].
  unfold findTextInLabel.
  set (matchedItems := filter _ (Label.items label)).
  assert (Hin : In item matchedItems) by (apply filter_In; now split).
  destruct matchedItems as [|m rest]; [destruct Hin|].
  eexists. reflexivity.
Qed.

Lemma blank_token_always_matched_witness :
  exists area : Box.t,
    findTextInLabel asciiLower
      (Label.mk (Box.mk (lit 0) (lit 0) (lit 200) (lit 50))
                [textItem "Lot 7" 10 10 30 8; textItem " " 150 10 4 8])
      (js "Made in China")
    = [area].
Proof.
  apply (blank_token_always_matched asciiLower
           (Label.mk (Box.mk (lit 0) (lit 0) (lit 200) (lit 50))
                     [textItem "Lot 7" 10 10 30 8; textItem " " 150 10 4 8])
           (js "Made in China") (textItem " " 150 10 4 8)).
  - right. left. reflexivity.
  - reflexivity.
Defined.

(** X3.  A matched token is never longer than the search text, both
    stripped of white space and lower-cased: a token that contains the
    search phrase and more is not matched. *)
Theorem matched_token_not_longer
    (toLowerCase : jsstring -> jsstring) (searchText : jsstring)
    (item : Item.t) :
  isMatched toLowerCase (clean toLowerCase searchText) item = true ->
  (List.length (clean toLowerCase (Item.str item))
   <= List.length (clean toLowerCase searchText))%nat.
Proof.
  unfold isMatched. intros H. apply includes_iff in H.
  destruct H as (pre & post & E). rewrite E, !length_app. lia.
Qed.

Lemma matched_token_not_longer_witness :
  (List.length (clean asciiLower (js "Some Text"))
   <= List.length (clean asciiLower (js "awesome text here")))%nat.
Proof.
  apply (matched_token_not_longer asciiLower (js "awesome text here")
           (textItem "Some Text" 0 0 0 0)).
  reflexivity.
Defined.

(** ** Geometry of a label *)

Lemma strictly_between_close (lo hi a b : num) (w : Q) :
  (lo <? a) = true -> (a <? hi) = true ->
  (lo <? b) = true -> (b <? hi) = true ->
  num_eq (hi - lo) (Fin w) ->
  (a - b <? Fin w) = true.
Proof.
  destruct lo as [| |l|], hi as [| |h|], a as [| |x|], b as [| |y|];
    simpl; try discriminate; try contradiction.
  change (Qlt_bool ?p ?q) with (Fin p <? Fin q).
  rewrite !num_lt_Fin. intros H1 H2 H3 H4 E. lra.
Qed.

(** X4.  Two items of one label are close to each other: their [x]
    differ by less than 240 and their vertical centres by less than 120,
    since both lie strictly inside the same window of 240 by 120. *)
Theorem label_items_close
    (items : list Item.t) (pageHeight : num) (label : Label.t)
    (t1 t2 : Item.t) :
  In label (findLabelsByFnsku items pageHeight) ->
  In t1 (Label.items label) -> In t2 (Label.items label) ->
  (Box.x (Item.box t1) - Box.x (Item.box t2) <? lit 240) = true
  /\ (centerY t1 - centerY t2 <? lit 120) = true.
Proof.
  intros Hl H1 H2.
  apply in_findLabelsByFnsku in Hl. destruct Hl as (anchor & _ & _ & ->).
  simpl in H1, H2. apply filter_In in H1, H2.
  destruct H1 as [_ W1], H2 as [_ W2].
  apply inSearchBox_true in W1, W2.
  destruct W1 as (A1 & B1 & C1 & D1), W2 as (A2 & B2 & C2 & D2).
  unfold searchBoxOf in *. simpl in *.
  assert (F1 : finite (Box.x (Item.box anchor))).
  { destruct (Box.x (Item.box anchor)) as [| |q|];
      try (destruct (Box.x (Item.box t1)); discriminate).
    now exists q. }
  assert (F2 : finite (Box.y (Item.box anchor))).
  { destruct (Box.y (Item.box anchor)) as [| |q|];
      try (destruct (Box.y (Item.box t1) + Box.height (Item.box t1) / lit 2);
           discriminate).
    now exists q. }
  destruct F1 as (ax & Ex), F2 as (ay & Ey). rewrite Ex, Ey in *.
  split.
  - eapply strictly_between_close; eauto.
    simpl. unfold inject_Z. lra.
  - unfold centerY. eapply strictly_between_close; eauto.
    simpl. unfold inject_Z. lra.
Qed.

Lemma label_items_close_witness :
  (lit 100 - lit 90 <? lit 240) = true
  /\ (lit 92 + lit 8 / lit 2 - (lit 102 + lit 8 / lit 2) <? lit 120) = true.
Proof.
  apply (label_items_close scenarioItems (lit 800)
           (hd (Label.mk (Box.mk NaN NaN NaN NaN) []) scenarioLabels)
           (transformItem (lit 800)
              (Item.mk (js "B0ABCDEFGH")
                 (Box.mk (lit 100) (lit 700) (Fin 44) (lit 8))))
           (transformItem (lit 800)
              (Item.mk (js "SomeText")
                 (Box.mk (lit 90) (lit 690) (Fin (352 # 10)) (lit 8))))).
  - left. reflexivity.
  - left. reflexivity.
  - right. left. reflexivity.
Defined.

(** ** The union box is the smallest one *)

Lemma Math_min_Infinity (b : num) : Math_min Infinity b = b.
Proof. destruct b; reflexivity. Qed.

Lemma Math_max_NegInfinity (b : num) : Math_max NegInfinity b = b.
Proof. destruct b; reflexivity. Qed.

Lemma Math_min_either (a b : num) : Math_min a b = a \/ Math_min a b = b.
Proof.
  destruct a, b; simpl; auto;
    match goal with |- context [if ?c then _ else _] => destruct c end; auto.
Qed.

Lemma Math_max_either (a b : num) : Math_max a b = a \/ Math_max a b = b.
Proof.
  destruct a, b; simpl; auto;
    match goal with |- context [if ?c then _ else _] => destruct c end; auto.
Qed.

Lemma fold_unionStep_attained (all rest : list Item.t) (acc : MinMax.t) :
  incl rest all -> attainedIn all acc ->
  attainedIn all (fold_left unionStep rest acc).
Proof.
  revert acc. induction rest as [|i rest IH]; intros acc Hin A; simpl.
  - exact A.
  - apply IH; [intros x Hx; apply Hin; now right|].
    assert (Hi : In i all) by (apply Hin; now left).
    destruct A as ((m1 & I1 & E1) & (m2 & I2 & E2)
                   & (m3 & I3 & E3) & (m4 & I4 & E4)).
    unfold attainedIn, unionStep; simpl. repeat split.
    + destruct (Math_min_either (MinMax.minX acc) (Box.x (Item.box i)))
        as [-> | ->]; [now exists m1|now exists i].
    + destruct (Math_max_either (MinMax.maxX acc)
                  (Box.x (Item.box i) + Box.width (Item.box i)))
        as [-> | ->]; [now exists m2|now exists i].
    + destruct (Math_min_either (MinMax.minY acc) (Box.y (Item.box i)))
        as [-> | ->]; [now exists m3|now exists i].
    + destruct (Math_max_either (MinMax.maxY acc)
                  (Box.y (Item.box i) + Box.height (Item.box i)))
        as [-> | ->]; [now exists m4|now exists i].
Qed.

(** X5.  The box a fold computes over a non-empty token set is tight: its
    left side is the [x] of some token of the set, its right side the
    [x + width] of some token, its top the [y] of some token and its
    bottom the [y + height] of some token.  In particular the seeds
    [Infinity] and [-Infinity] do not survive the first token. *)
Theorem union_box_is_tight (items : list Item.t) :
  items <> [] -> attainedIn items (unionBoxOf items).
Proof.
  destruct items as [|i rest]; [congruence|]. intros _.
  unfold unionBoxOf.
  change (fold_left unionStep (i :: rest) emptyBox)
    with (fold_left unionStep rest (unionStep emptyBox i)).
  apply fold_unionStep_attained.
  - intros x Hx. now right.
  - unfold attainedIn, unionStep, emptyBox.
    cbn [MinMax.minX MinMax.maxX MinMax.minY MinMax.maxY num_neg].
    rewrite !Math_min_Infinity, !Math_max_NegInfinity.
    repeat split; exists i; split; auto; now left.
Qed.

Lemma union_box_is_tight_witness :
  attainedIn scenarioItems (unionBoxOf scenarioItems).
Proof. apply union_box_is_tight. discriminate. Defined.

(** ** White space around an identifier *)

Lemma dropWhile_all (p : N -> bool) (l r : jsstring) :
  forallb p l = true -> dropWhile p (l ++ r) = dropWhile p r.
Proof.
  induction l as [|c l IH]; simpl; [reflexivity|].
  intros H. apply andb_prop in H. destruct H as [Hc Hl].
  rewrite Hc. now apply IH.
Qed.

Lemma dropWhile_app_all (p : N -> bool) (s r : jsstring) :
  forallb p r = true ->
  dropWhile p (s ++ r)
  = match dropWhile p s with [] => [] | _ :: _ => dropWhile p s ++ r end.
Proof.
  intros Hr. induction s as [|c s IH]; simpl.
  - rewrite <- (app_nil_r r), dropWhile_all by exact Hr. reflexivity.
  - destruct (p c); [exact IH|reflexivity].
Qed.

Lemma trim_padding (before s after : jsstring) :
  forallb isWhiteSpace before = true -> forallb isWhiteSpace after = true ->
  trim (before ++ s ++ after) = trim s.
Proof.
  intros Hb Ha. unfold trim. f_equal.
  rewrite dropWhile_all by exact Hb.
  rewrite dropWhile_app_all by exact Ha.
  destruct (dropWhile isWhiteSpace s) as [|c t] eqn:E; [reflexivity|].
  rewrite rev_app_distr. apply dropWhile_all.
  rewrite forallb_forall in *. intros x Hx. apply Ha. now apply in_rev.
Qed.

(** X6.  White space before and after the text of a token never changes
    whether the token is an anchor: the pattern is tested on the trimmed
    text.  So an identifier padded with blanks, tabs or line breaks is
    still an anchor. *)
Theorem anchor_ignores_padding
    (before s after : jsstring) (box box' : Box.t) :
  forallb isWhiteSpace before = true -> forallb isWhiteSpace after = true ->
  isAnchor (Item.mk (before ++ s ++ after) box) = isAnchor (Item.mk s box').
Proof.
  intros Hb Ha. unfold isAnchor. simpl. now rewrite trim_padding.
Qed.

Lemma anchor_ignores_padding_witness :
  isAnchor (textItem "  X00ABCDEFGHI " 0 0 0 0) = true.
Proof.
  change (textItem "  X00ABCDEFGHI " 0 0 0 0)
    with (Item.mk (js "  " ++ js "X00ABCDEFGHI" ++ js " ")
            (Box.mk (lit 0) (lit 0) (lit 0) (lit 0))).
  rewrite (anchor_ignores_padding (js "  ") (js "X00ABCDEFGHI") (js " ")
             (Box.mk (lit 0) (lit 0) (lit 0) (lit 0))
             (Box.mk (lit 0) (lit 0) (lit 0) (lit 0)) eq_refl eq_refl).
  reflexivity.
Defined.

(** ** Blocks the extractor drops *)

Section ExtractorPolicy.

Variable matchTm : jsstring -> option (list jsstring).
Variable matchTj : jsstring -> option jsstring.
Variable parseFloat : jsstring -> num.

Lemma getTextItemsWithCoords_app (blocks1 blocks2 : list jsstring) :
  getTextItemsWithCoords matchTm matchTj parseFloat (blocks1 ++ blocks2)
  = getTextItemsWithCoords matchTm matchTj parseFloat blocks1
    ++ getTextItemsWithCoords matchTm matchTj parseFloat blocks2.
Proof.
  induction blocks1 as [|b rest IH]; simpl; [reflexivity|].
  destruct (textItemOfBlock matchTm matchTj parseFloat b);
    simpl; now rewrite IH.
Qed.

(** X7.  A block in which the [Tm] pattern or the [Tj] pattern finds
    nothing is dropped without a trace: the items extracted are those of
    the remaining blocks, in the same order, as if the block were not
    there.  So there are never more items than blocks. *)
Theorem unmatched_block_is_dropped
    (before after : list jsstring) (block : jsstring) :
  matchTm block = None \/ matchTj block = None ->
  getTextItemsWithCoords matchTm matchTj parseFloat
    (before ++ block :: after)
  = getTextItemsWithCoords matchTm matchTj parseFloat (before ++ after)
  /\ (List.length
        (getTextItemsWithCoords matchTm matchTj parseFloat
           (before ++ block :: after))
      < List.length (before ++ block :: after))%nat.
Proof.
  intros H.
  assert (D : textItemOfBlock matchTm matchTj parseFloat block = None).
  { unfold textItemOfBlock.
    destruct H as [-> | ->]; [reflexivity|].
    destruct (matchTm block); reflexivity. }
  assert (L : forall blocks,
             (List.length
                (getTextItemsWithCoords matchTm matchTj parseFloat blocks)
              <= List.length blocks)%nat).
  { induction blocks as [|b rest IH]; simpl; [lia|].
    destruct (textItemOfBlock matchTm matchTj parseFloat b); simpl; lia. }
  rewrite !getTextItemsWithCoords_app. simpl. rewrite D.
  split; [reflexivity|].
  rewrite !length_app. simpl.
  pose proof (L before). pose proof (L after). lia.
Qed.

End ExtractorPolicy.

Lemma unmatched_block_is_dropped_witness :
  getTextItemsWithCoords scenarioTm scenarioTj parseIntegerOperand
    (js "BT /F1 8 Tf ET" :: scenarioBlocks)
  = scenarioExtracted.
Proof.
  apply (unmatched_block_is_dropped scenarioTm scenarioTj parseIntegerOperand
           [] scenarioBlocks (js "BT /F1 8 Tf ET")).
  left. reflexivity.
Defined.

(** ** The matcher with groups *)

Lemma flat_map_map {A B C : Type} (f : B -> list C) (g : A -> B)
    (l : list A) :
  flat_map f (map g l) = flat_map (fun a => f (g a)) l.
Proof. induction l as [|a l IH]; simpl; [reflexivity|now rewrite IH]. Qed.

Lemma flat_map_flat_map {A B C : Type} (f : B -> list C) (g : A -> list B)
    (l : list A) :
  flat_map f (flat_map g l) = flat_map (fun a => flat_map f (g a)) l.
Proof.
  induction l as [|a l IH]; simpl; [reflexivity|].
  now rewrite flat_map_app, IH.
Qed.

Lemma consumed_app (x r : jsstring) : consumed (x ++ r) r = x.
Proof.
  unfold consumed. rewrite length_app, Nat.add_sub.
  rewrite firstn_app, Nat.sub_diag, firstn_all. simpl. apply app_nil_r.
Qed.


Lemma plusEnds_notStarting (k : charClass) (r : jsstring) :
  notStarting k r -> plusEnds k r = [].
Proof. destruct r as [|c t]; simpl; [reflexivity|now intros ->]. Qed.

(** After [k+] on a run [x] of the class that ends where [r] begins, a
    continuation that fails inside the run sees only the end of the run. *)
Lemma flat_map_plusEnds {C : Type} (k : charClass) (f : jsstring -> list C)
    (x r : jsstring) :
  x <> [] -> forallb (inCharClass k) x = true -> notStarting k r ->
  (forall i, (0 < i < List.length x)%nat -> f (skipn i x ++ r) = []) ->
  flat_map f (plusEnds k (x ++ r)) = f r.
Proof.
  induction x as [|c x IH]; [congruence|].
  intros _ Hx Hr Hf. simpl in Hx. apply andb_prop in Hx.
  destruct Hx as [Hc Hx]. simpl. rewrite Hc.
  rewrite flat_map_app. simpl. rewrite app_nil_r.
  destruct x as [|c' x'].
  - simpl. rewrite (plusEnds_notStarting k r Hr). reflexivity.
  - rewrite IH; try assumption; try discriminate.
    + pose proof (Hf 1%nat) as H1. cbn [skipn app] in H1. cbn [app].
      rewrite H1 by (simpl; lia). apply app_nil_r.
    + intros i Hi. apply (Hf (S i)). simpl in *. lia.
Qed.

(** After [k*?] on a run [x] of the class, a continuation that fails
    inside the run is first tried with success where the run ends. *)
Lemma flat_map_lazyEnds {C : Type} (k : charClass) (f : jsstring -> list C)
    (x r : jsstring) :
  forallb (inCharClass k) x = true ->
  (forall i, (i < List.length x)%nat -> f (skipn i x ++ r) = []) ->
  flat_map f (lazyEnds k (x ++ r)) = flat_map f (lazyEnds k r).
Proof.
  induction x as [|c x IH]; intros Hx Hf; [reflexivity|].
  simpl in Hx. apply andb_prop in Hx. destruct Hx as [Hc Hx].
  change (lazyEnds k ((c :: x) ++ r))
    with ((c :: x ++ r)
          :: (if inCharClass k c then lazyEnds k (x ++ r) else [])).
  rewrite Hc. simpl flat_map.
  pose proof (Hf 0%nat) as H0. cbn [skipn app] in H0.
  rewrite H0 by (simpl; lia). simpl.
  apply IH; [exact Hx|].
  intros i Hi. apply (Hf (S i)). simpl. lia.
Qed.

Lemma lazyEnds_head (k : charClass) (r : jsstring) :
  exists tl, lazyEnds k r = r :: tl.
Proof. destruct r; simpl; eexists; reflexivity. Qed.

(** Where the continuation first succeeds after [k*?]. *)
Lemma flat_map_lazyEnds_first {C : Type} (k : charClass)
    (f : jsstring -> list C) (s : jsstring) (y : C) (tl : list C) :
  flat_map f (lazyEnds k s) = y :: tl ->
  exists x r tl',
    s = x ++ r /\ forallb (inCharClass k) x = true
    /\ (forall i, (i < List.length x)%nat -> f (skipn i x ++ r) = [])
    /\ f r = y :: tl'.
Proof.
  revert y tl. induction s as [|c s IH]; intros y tl H.
  - simpl in H. rewrite app_nil_r in H.
    exists [], [], tl. repeat split; auto. intros i Hi. simpl in Hi. lia.
  - change (lazyEnds k (c :: s))
      with ((c :: s) :: (if inCharClass k c then lazyEnds k s else []))
      in H.
    simpl flat_map in H.
    destruct (f (c :: s)) as [|y' tl'] eqn:E.
    + simpl in H. destruct (inCharClass k c) eqn:Hc; [|discriminate].
      destruct (IH _ _ H) as (x & r & tl'' & -> & Hx & Hf & Hy).
      exists (c :: x), r, tl''. repeat split; auto.
      * simpl. now rewrite Hc, Hx.
      * intros [|i] Hi; [exact E|]. apply Hf. simpl in Hi. lia.
    + simpl in H. injection H as <- _.
      exists [], (c :: s), tl'. repeat split; auto.
      intros i Hi. simpl in Hi. lia.
Qed.

Lemma in_plusEnds (k : charClass) (s r : jsstring) :
  In r (plusEnds k s) ->
  exists x, x <> [] /\ forallb (inCharClass k) x = true /\ s = x ++ r.
Proof.
  revert r. induction s as [|c s IH]; intros r H; [destruct H|].
  simpl in H. destruct (inCharClass k c) eqn:Hc; [|destruct H].
  apply in_app_iff in H. destruct H as [H|[<-|[]]].
  - destruct (IH _ H) as (x & _ & Hx & ->).
    exists (c :: x). repeat split; [discriminate|simpl; now rewrite Hc, Hx].
  - exists [c]. repeat split; [discriminate|simpl; now rewrite Hc].
Qed.

(** [s.match(p)] passes over the positions at which nothing matches. *)
Lemma pexec_skip (p : pattern) (x s : jsstring) :
  (forall i, (i < List.length x)%nat -> pmatch p ((skipn i x ++ s : jsstring), []) = []) ->
  pexec p (x ++ s) = pexec p s.
Proof.
  induction x as [|c x IH]; intros H; [reflexivity|].
  cbn [pexec app].
  pose proof (H 0%nat) as H0. cbn [skipn app] in H0.
  rewrite H0 by (simpl; lia).
  apply IH. intros i Hi. apply (H (S i)). simpl. lia.
Qed.

Lemma pexec_here (p : pattern) (s rest : jsstring) (groups : list jsstring)
    (tl : list mstate) :
  pmatch p (s, []) = (rest, groups) :: tl ->
  pexec p s = Some (consumed s rest, groups).
Proof. intros H. destruct s; simpl; now rewrite H. Qed.

Lemma pexec_none (p : pattern) (s : jsstring) :
  (forall i, (i <= List.length s)%nat -> pmatch p ((skipn i s : jsstring), []) = []) ->
  pexec p s = None.
Proof.
  induction s as [|c s IH]; intros H.
  - pose proof (H 0%nat) as H0. cbn [skipn] in H0.
    simpl. now rewrite H0 by (simpl; lia).
  - cbn [pexec].
    pose proof (H 0%nat) as H0. cbn [skipn] in H0.
    rewrite H0 by (simpl; lia).
    apply IH. intros i Hi. apply (H (S i)). simpl. lia.
Qed.

(** What [s.match(p)] returns was matched at some position of [s]. *)
Lemma pexec_some (p : pattern) (s m : jsstring) (groups : list jsstring) :
  pexec p s = Some (m, groups) ->
  exists pre s' rest : jsstring,
    s = pre ++ s' /\ In (rest, groups) (pmatch p (s', []))
    /\ m = consumed s' rest.
Proof.
  induction s as [|c s IH]; intros H.
  - cbn [pexec] in H.
    destruct (pmatch p (([] : jsstring), [])) as [|[rest g] tl] eqn:E;
      [discriminate|].
    injection H as <- <-. exists [], [], rest. rewrite E.
    repeat split; auto. now left.
  - cbn [pexec] in H.
    destruct (pmatch p ((c :: s : jsstring), [])) as [|[rest g] tl] eqn:E.
    + destruct (IH H) as (pre & s' & rest & -> & Hin & ->).
      exists (c :: pre), s', rest. repeat split; auto.
    + injection H as <- <-. exists [], (c :: s), rest. rewrite E.
      repeat split; auto. now left.
Qed.

(** *** Characters *)

Unset Implicit Arguments.

Ltac char_lia :=
  unfold isOperandChar, isInlineSpace, isWhiteSpace, isLineTerminator,
         inCharClass in *;
  repeat rewrite ?negb_true_iff, ?negb_false_iff, ?orb_true_iff,
                 ?andb_true_iff, ?orb_false_iff, ?andb_false_iff,
                 ?N.leb_le, ?N.eqb_eq, ?N.leb_gt, ?N.eqb_neq in *;
  lia.

Lemma forallb_impl {A : Type} (p q : A -> bool) (l : list A) :
  (forall a, p a = true -> q a = true) ->
  forallb p l = true -> forallb q l = true.
Proof.
  intros H. rewrite !forallb_forall. intros F a Ha. apply H, F, Ha.
Qed.

Lemma skipn_head {A : Type} (i : nat) (x : list A) :
  (i < List.length x)%nat -> exists c t, skipn i x = c :: t /\ In c x.
Proof.
  revert i. induction x as [|a x IH]; intros i Hi; [simpl in Hi; lia|].
  destruct i as [|i].
  - exists a, x. split; [reflexivity|now left].
  - destruct (IH i) as (c & t & E & Hc); [simpl in Hi; lia|].
    exists c, t. split; [exact E|now right].
Qed.

Lemma startsWith_head_ne (c0 c : N) (p t : jsstring) :
  (c0 =? c)%N = false -> startsWith (c0 :: p) (c :: t) = false.
Proof. simpl. now intros ->. Qed.

(** A pattern whose first character occurs nowhere in [x] starts nowhere
    in [x]. *)
Lemma startsWith_nowhere (c0 : N) (p x r : jsstring) (i : nat) :
  forallb (fun c => negb (c0 =? c)%N) x = true ->
  (i < List.length x)%nat ->
  startsWith (c0 :: p) (skipn i x ++ r) = false.
Proof.
  intros F Hi. destruct (skipn_head i x Hi) as (c & t & -> & Hc).
  rewrite forallb_forall in F. specialize (F c Hc).
  apply negb_true_iff in F. simpl. now rewrite F.
Qed.

(** A two-character pattern that does not occur in [x] starts nowhere in
    [x], also when [x] is continued by something that does not begin with
    its second character. *)
Lemma startsWith_not_included (c0 c1 : N) (x r : jsstring) (i : nat) :
  includes x [c0; c1] = false ->
  match r with [] => True | c :: _ => (c1 =? c)%N = false end ->
  (i < List.length x)%nat ->
  startsWith [c0; c1] (skipn i x ++ r) = false.
Proof.
  revert i. induction x as [|a x IH]; intros i Hn Hr Hi; [simpl in Hi; lia|].
  change (includes (a :: x) [c0; c1])
    with (startsWith [c0; c1] (a :: x) || includes x [c0; c1]) in Hn.
  apply orb_false_iff in Hn. destruct Hn as [Hs Hn].
  destruct i as [|i].
  - cbn [skipn app]. simpl in Hs |- *.
    destruct (c0 =? a)%N; [|reflexivity]. simpl in *.
    destruct x as [|b x]; simpl in *.
    + destruct r as [|c r]; [reflexivity|]. now rewrite Hr.
    + rewrite andb_true_r in *. exact Hs.
  - cbn [skipn]. apply IH; auto. simpl in Hi. lia.
Qed.

Lemma flat_map_nil {A B : Type} (f : A -> list B) (l : list A) :
  (forall a, In a l -> f a = []) -> flat_map f l = [].
Proof.
  induction l as [|a l IH]; intros H; simpl; [reflexivity|].
  rewrite (H a) by now left. apply IH. intros b Hb. apply H. now right.
Qed.

Lemma in_lazyEnds_suffix (k : charClass) (s a : jsstring) :
  In a (lazyEnds k s) -> exists x, s = x ++ a.
Proof.
  revert a. induction s as [|c s IH]; intros a H.
  - simpl in H. destruct H as [<-|[]]. now exists [].
  - change (lazyEnds k (c :: s))
      with ((c :: s) :: (if inCharClass k c then lazyEnds k s else [])) in H.
    destruct H as [<-|H]; [now exists []|].
    destruct (inCharClass k c); [|destruct H].
    destruct (IH _ H) as (x & ->). now exists (c :: x).
Qed.

(** *** Operands before [Tm] *)

Lemma operandThenSpace_space_first (q : pattern) (c : N) (t : jsstring)
    (caps : list jsstring) :
  isWhiteSpace c = true ->
  pmatch (Then operandThenSpace q) ((c :: t : jsstring), caps) = [].
Proof.
  intros W. cbn [pmatch operandThenSpace fst snd plusEnds inCharClass].
  rewrite W. reflexivity.
Qed.

Lemma literal_Tm_space_first (c : N) (t : jsstring) (caps : list jsstring) :
  isWhiteSpace c = true ->
  pmatch (Literal (js "Tm")) ((c :: t : jsstring), caps) = [].
Proof.
  intros W. cbn [pmatch fst].
  assert (E : startsWith (js "Tm") (c :: t) = false)
    by (apply (startsWith_head_ne 84 c [109%N] t); char_lia).
  now rewrite E.
Qed.

(** An operand, the white space after it, and then a pattern that cannot
    begin with white space: the operand is captured whole. *)
Lemma operandThenSpace_then (q : pattern) (g ws rest : jsstring)
    (caps : list jsstring) :
  g <> [] -> forallb (inCharClass NonSpace) g = true ->
  ws <> [] -> forallb (inCharClass Space) ws = true ->
  notStarting Space rest ->
  (forall c t caps', isWhiteSpace c = true ->
                     pmatch q ((c :: t : jsstring), caps') = []) ->
  pmatch (Then operandThenSpace q) ((g ++ ws ++ rest : jsstring), caps)
  = pmatch q (rest, caps ++ [g]).
Proof.
  intros Hg Fg Hw Fw Hr Hq.
  cbn [pmatch operandThenSpace fst snd].
  rewrite flat_map_flat_map, !flat_map_map. cbn [fst snd].
  rewrite flat_map_plusEnds; auto.
  - rewrite consumed_app, flat_map_map.
    rewrite flat_map_plusEnds; auto.
    intros i Hi.
    destruct (skipn_head i ws) as (c & t & -> & Hc); [lia|].
    rewrite forallb_forall in Fw. apply Hq. apply (Fw c Hc).
  - destruct ws as [|w ws']; [congruence|]. simpl in Fw |- *.
    apply andb_prop in Fw. destruct Fw as [Fw _]. now rewrite Fw.
  - intros i Hi.
    destruct (skipn_head i g) as (c & t & -> & Hc); [lia|].
    rewrite forallb_forall in Fg. specialize (Fg c Hc). simpl in Fg.
    apply negb_true_iff in Fg. simpl. now rewrite Fg.
Qed.

Lemma notStarting_Space_token (g r : jsstring) :
  g <> [] -> forallb (inCharClass NonSpace) g = true ->
  notStarting Space (g ++ r).
Proof.
  destruct g as [|c g]; [congruence|]. simpl. intros _ H.
  apply andb_prop in H. destruct H as [H _]. now apply negb_true_iff.
Qed.

(** Six operands separated by white space, then whatever follows. *)
Lemma TM_on_operands (sp t1 t2 t3 t4 t5 t6 rest : jsstring) :
  sp <> [] -> forallb (inCharClass Space) sp = true ->
  Forall (fun t => t <> [] /\ forallb (inCharClass NonSpace) t = true)
         [t1; t2; t3; t4; t5; t6] ->
  notStarting Space rest ->
  pmatch TM
    ((t1 ++ sp ++ t2 ++ sp ++ t3 ++ sp ++ t4 ++ sp ++ t5 ++ sp ++ t6 ++ sp
      ++ rest : jsstring), [])
  = pmatch (Literal (js "Tm")) (rest, [t1; t2; t3; t4; t5; t6]).
Proof.
  intros Hs Fs F Hr.
  repeat match goal with
         | H : Forall _ (_ :: _) |- _ =>
             let N := fresh "N" in let K := fresh "K" in
             inversion H as [|? ? [N K] ?]; subst; clear H
         end.
  unfold TM.
  rewrite operandThenSpace_then; auto using notStarting_Space_token,
    operandThenSpace_space_first.
  rewrite operandThenSpace_then; auto using notStarting_Space_token,
    operandThenSpace_space_first.
  rewrite operandThenSpace_then; auto using notStarting_Space_token,
    operandThenSpace_space_first.
  rewrite operandThenSpace_then; auto using notStarting_Space_token,
    operandThenSpace_space_first.
  rewrite operandThenSpace_then; auto using notStarting_Space_token,
    operandThenSpace_space_first.
  change (pmatch
            (Then operandThenSpace (Literal (js "Tm")))
            ((t6 ++ sp ++ rest : jsstring), [t1; t2; t3; t4; t5])
          = pmatch (Literal (js "Tm")) (rest, [t1; t2; t3; t4; t5] ++ [t6])).
  apply operandThenSpace_then; auto using literal_Tm_space_first.
Qed.

(** *** What a match of the [Tm] pattern looks like *)

Lemma in_literal (l s r : jsstring) (caps caps' : list jsstring) :
  In (r, caps') (pmatch (Literal l) (s, caps)) ->
  s = l ++ r /\ caps' = caps.
Proof.
  cbn [pmatch fst snd]. destruct (startsWith l s) eqn:E; [|intros []].
  intros [H|[]]. inversion H; subst.
  apply startsWith_iff in E. destruct E as (post & ->).
  rewrite skipn_app, Nat.sub_diag, skipn_all. now split.
Qed.

Lemma in_operandThenSpace (q : pattern) (s r : jsstring)
    (caps caps' : list jsstring) :
  In (r, caps') (pmatch (Then operandThenSpace q) (s, caps)) ->
  exists g ws mid : jsstring,
    s = g ++ ws ++ mid
    /\ (g <> [] /\ forallb (inCharClass NonSpace) g = true)
    /\ (ws <> [] /\ forallb (inCharClass Space) ws = true)
    /\ In (r, caps') (pmatch q (mid, caps ++ [g])).
Proof.
  cbn [pmatch operandThenSpace fst snd].
  rewrite flat_map_flat_map, !flat_map_map. cbn [fst snd].
  rewrite in_flat_map. intros (a & Ha & H).
  apply in_plusEnds in Ha. destruct Ha as (g & Hg & Fg & ->).
  rewrite consumed_app, flat_map_map in H.
  apply in_flat_map in H. destruct H as (mid & Hm & H).
  apply in_plusEnds in Hm. destruct Hm as (ws & Hw & Fw & ->).
  exists g, ws, mid. repeat split; auto.
Qed.

(** *** What a block looks like *)

Lemma in_pmatchAll (p : pattern) (s b : jsstring) (skip : nat) :
  In b (pmatchAll p skip s) ->
  exists (pre s' rest : jsstring) (groups : list jsstring)
         (tl : list mstate),
    s = pre ++ s' /\ pmatch p (s', []) = (rest, groups) :: tl
    /\ b = consumed s' rest.
Proof.
  revert skip. induction s as [|c s IH]; intros skip H.
  - destruct skip; [|destruct H]. cbn [pmatchAll] in H.
    destruct (pmatch p (([] : jsstring), [])) as [|[rest groups] tl] eqn:E;
      [destruct H|].
    destruct H as [<-|[]]. exists [], [], rest, groups, tl. now repeat split.
  - destruct skip as [|k].
    + cbn [pmatchAll] in H.
      destruct (pmatch p ((c :: s : jsstring), [])) as [|[rest groups] tl]
        eqn:E.
      * destruct (IH _ H) as (pre & s' & rest & groups & tl & -> & E' & ->).
        exists (c :: pre), s', rest, groups, tl. now repeat split.
      * destruct H as [<-|H].
        -- exists [], (c :: s), rest, groups, tl. now repeat split.
        -- destruct (IH _ H) as (pre & s' & rest' & groups' & tl' & -> & E'
                                 & ->).
           exists (c :: pre), s', rest', groups', tl'. now repeat split.
    + cbn [pmatchAll] in H.
      destruct (IH _ H) as (pre & s' & rest & groups & tl & -> & E' & ->).
      exists (c :: pre), s', rest, groups, tl. now repeat split.
Qed.

Lemma flat_map_one {A B : Type} (f : A -> list B) (a : A) :
  flat_map f [a] = f a.
Proof. simpl. apply app_nil_r. Qed.

Lemma BT_ET_first (s rest : jsstring) (groups : list jsstring)
    (tl : list mstate) :
  pmatch BT_ET (s, []) = (rest, groups) :: tl ->
  exists inner : jsstring,
    s = js "BT" ++ inner ++ js "ET" ++ rest
    /\ groups = [inner]
    /\ forallb (inCharClass AnyChar) inner = true
    /\ (forall i, (i < List.length inner)%nat ->
                  startsWith (js "ET") (skipn i inner ++ js "ET" ++ rest)
                  = false).
Proof.
  unfold BT_ET. cbn [pmatch fst snd].
  destruct (startsWith (js "BT") s) eqn:E; [|discriminate].
  apply startsWith_iff in E. destruct E as (X & ->).
  rewrite flat_map_one, flat_map_map, flat_map_map.
  cbn [fst snd app].
  intros H. apply flat_map_lazyEnds_first in H.
  destruct H as (inner & r & tl' & E & F & Hn & Hr).
  change (skipn (List.length (js "BT")) (js "BT" ++ X)) with X in *.
  destruct (startsWith (js "ET") r) eqn:Er; [|discriminate].
  apply startsWith_iff in Er. destruct Er as (post & ->).
  change (skipn (List.length (js "ET")) (js "ET" ++ post)) with post in Hr.
  rewrite E, consumed_app in Hr.
  injection Hr as Hp Hg _. subst post groups X.
  exists inner. repeat split; auto.
  intros i Hi. specialize (Hn i Hi).
  destruct (startsWith (js "ET") (skipn i inner ++ js "ET" ++ rest));
    [discriminate|reflexivity].
Qed.

(** X8.  [getTextItemsWithCoords]: every block that
    [contentStream.match(/BT(.*?)ET/g)] returns is a piece of the content
    stream of the form [BT inner ET], where [inner] has no line terminator
    and does not contain [ET].  So a text object that spans more than one
    line is never a block, and a block ends at the first [ET] after its
    [BT], whatever that [ET] is part of. *)
Theorem text_blocks_are_single_line (contentStream block : jsstring) :
  In block (textBlocksOf contentStream) ->
  exists pre inner post : jsstring,
    contentStream = pre ++ block ++ post
    /\ block = js "BT" ++ inner ++ js "ET"
    /\ forallb (fun c => negb (isLineTerminator c)) inner = true
    /\ includes inner (js "ET") = false.
Proof.
  intros H. apply in_pmatchAll in H.
  destruct H as (pre & s' & rest & groups & tl & -> & E & ->).
  apply BT_ET_first in E. destruct E as (inner & -> & _ & F & Hn).
  exists pre, inner, rest.
  replace (js "BT" ++ inner ++ js "ET" ++ rest)
    with ((js "BT" ++ inner ++ js "ET") ++ rest)
    by (now rewrite <- !app_assoc).
  rewrite consumed_app. repeat split; auto.
  destruct (includes inner (js "ET")) eqn:I; [|reflexivity].
  apply includes_iff in I. destruct I as (p & q & ->).
  specialize (Hn (List.length p)).
  rewrite skipn_app, Nat.sub_diag, skipn_all, length_app in Hn.
  cbn [skipn app] in Hn. rewrite <- !app_assoc in Hn.
  assert (T : startsWith (js "ET") (js "ET" ++ q ++ js "ET" ++ rest) = true)
    by (apply startsWith_iff; eexists; reflexivity).
  rewrite Hn in T; [discriminate|]. simpl. lia.
Qed.

Lemma text_blocks_are_single_line_witness :
  exists pre inner post : jsstring,
    js "q BT (a) Tj ET Q" = pre ++ js "BT (a) Tj ET" ++ post
    /\ js "BT (a) Tj ET" = js "BT" ++ inner ++ js "ET"
    /\ forallb (fun c => negb (isLineTerminator c)) inner = true
    /\ includes inner (js "ET") = false.
Proof.
  apply (text_blocks_are_single_line (js "q BT (a) Tj ET Q")
                                     (js "BT (a) Tj ET")).
  vm_compute. now left.
Defined.

(** X9.  [getTextItemsWithCoords]: when the [Tm] pattern matches a block,
    its six groups are six non-empty runs without white space, each followed
    by white space, and the last white space is followed by [Tm]; the matrix
    always has six entries. *)
Theorem tm_operands_shape (block : jsstring) (groups : list jsstring) :
  tmGroups block = Some groups ->
  exists pre post g1 w1 g2 w2 g3 w3 g4 w4 g5 w5 g6 w6 : jsstring,
    groups = [g1; g2; g3; g4; g5; g6]
    /\ block = pre ++ g1 ++ w1 ++ g2 ++ w2 ++ g3 ++ w3 ++ g4 ++ w4
               ++ g5 ++ w5 ++ g6 ++ w6 ++ js "Tm" ++ post
    /\ Forall (fun g => g <> []
                        /\ forallb (fun c => negb (isWhiteSpace c)) g = true)
              groups
    /\ Forall (fun w => w <> [] /\ forallb isWhiteSpace w = true)
              [w1; w2; w3; w4; w5; w6].
Proof.
  unfold tmGroups. intros H.
  destruct (pexec TM block) as [[m gs]|] eqn:E; [|discriminate].
  injection H as ->.
  apply pexec_some in E. destruct E as (pre & s' & rest & -> & H & _).
  unfold TM in H.
  apply in_operandThenSpace in H.
  destruct H as (g1 & w1 & s1 & -> & G1 & W1 & H).
  apply in_operandThenSpace in H.
  destruct H as (g2 & w2 & s2 & -> & G2 & W2 & H).
  apply in_operandThenSpace in H.
  destruct H as (g3 & w3 & s3 & -> & G3 & W3 & H).
  apply in_operandThenSpace in H.
  destruct H as (g4 & w4 & s4 & -> & G4 & W4 & H).
  apply in_operandThenSpace in H.
  destruct H as (g5 & w5 & s5 & -> & G5 & W5 & H).
  apply in_operandThenSpace in H.
  destruct H as (g6 & w6 & s6 & -> & G6 & W6 & H).
  apply in_literal in H. destruct H as (-> & ->).
  exists pre, rest, g1, w1, g2, w2, g3, w3, g4, w4, g5, w5, g6, w6.
  repeat split.
  - repeat (constructor; [assumption|]). constructor.
  - repeat (constructor; [assumption|]). constructor.
Qed.

Lemma tm_operands_shape_witness :
  exists pre post g1 w1 g2 w2 g3 w3 g4 w4 g5 w5 g6 w6 : jsstring,
    [js "1"; js "0"; js "0"; js "1"; js "50"; js "700"]
    = [g1; g2; g3; g4; g5; g6]
    /\ js "BT /F1 8 Tf 1 0 0 1 50 700 Tm (x) Tj ET"
       = pre ++ g1 ++ w1 ++ g2 ++ w2 ++ g3 ++ w3 ++ g4 ++ w4
         ++ g5 ++ w5 ++ g6 ++ w6 ++ js "Tm" ++ post
    /\ Forall (fun g => g <> []
                        /\ forallb (fun c => negb (isWhiteSpace c)) g = true)
              [js "1"; js "0"; js "0"; js "1"; js "50"; js "700"]
    /\ Forall (fun w => w <> [] /\ forallb isWhiteSpace w = true)
              [w1; w2; w3; w4; w5; w6].
Proof.
  apply (tm_operands_shape (js "BT /F1 8 Tf 1 0 0 1 50 700 Tm (x) Tj ET")).
  vm_compute. reflexivity.
Defined.

(** *** A text object on one line *)

Ltac char_facts :=
  cbv beta in *; cbn [inCharClass] in *; char_lia.

Ltac solve_forallb :=
  rewrite ?forallb_app;
  repeat (apply andb_true_intro; split);
  first [ reflexivity
        | eapply forallb_impl; [|eassumption];
          let c := fresh "c" in let H := fresh "H" in
          intros c H; char_facts ].

Lemma pmatch_literal_here (l r : jsstring) (caps : list jsstring) :
  pmatch (Literal l) ((l ++ r : jsstring), caps) = [(r, caps)].
Proof.
  cbn [pmatch fst snd].
  assert (E : startsWith l (l ++ r) = true)
    by (apply startsWith_iff; now exists r).
  rewrite E, skipn_app, Nat.sub_diag, skipn_all. reflexivity.
Qed.

Lemma pmatch_Then (q r : pattern) (st : mstate) :
  pmatch (Then q r) st = flat_map (pmatch r) (pmatch q st).
Proof. reflexivity. Qed.

Lemma pmatch_Group_LazyStar (k : charClass) (s : jsstring)
    (caps : list jsstring) :
  pmatch (Group (LazyStar k)) (s, caps)
  = map (fun r : jsstring => (r, caps ++ [consumed s r])) (lazyEnds k s).
Proof. cbn [pmatch fst snd]. now rewrite map_map. Qed.

Lemma pmatch_Star (k : charClass) (s : jsstring) (caps : list jsstring) :
  pmatch (Star k) (s, caps)
  = map (fun r : jsstring => (r, caps)) (plusEnds k s ++ [s]).
Proof. reflexivity. Qed.

Lemma skipn_app_lt {A : Type} (i : nat) (x y : list A) :
  (i < List.length x)%nat -> skipn i (x ++ y) = skipn i x ++ y.
Proof.
  intros H. rewrite skipn_app.
  replace (i - List.length x)%nat with 0%nat by lia. reflexivity.
Qed.

Lemma startsWith_nowhere_app (pat x y : jsstring) (n : nat) :
  (forall i, (i < List.length x)%nat ->
             startsWith pat (skipn i x ++ y) = false) ->
  (forall i, (i < n)%nat -> startsWith pat (skipn i y) = false) ->
  forall i, (i < List.length x + n)%nat ->
            startsWith pat (skipn i (x ++ y)) = false.
Proof.
  intros Hx Hy i Hi.
  destruct (Nat.lt_ge_cases i (List.length x)) as [L|G].
  - rewrite skipn_app_lt by exact L. now apply Hx.
  - rewrite skipn_app, skipn_all2 by exact G. cbn [app]. apply Hy. lia.
Qed.

Lemma isOperand_token (t : jsstring) :
  isOperand t ->
  t <> [] /\ forallb (inCharClass NonSpace) t = true.
Proof.
  intros [N F]. split; [exact N|]. solve_forallb.
Qed.

Lemma isOperand_not_Tm (t r : jsstring) (caps : list jsstring) :
  isOperand t -> pmatch (Literal (js "Tm")) ((t ++ r : jsstring), caps) = [].
Proof.
  intros [N F]. destruct t as [|c t]; [congruence|].
  simpl in F. apply andb_prop in F. destruct F as [F _].
  cbn [pmatch fst app].
  assert (E : startsWith (js "Tm") (c :: t ++ r) = false)
    by (apply (startsWith_head_ne 84 c [109%N]); char_facts).
  now rewrite E.
Qed.

(** The [Tm] pattern on [BT a b c d e f Tm ...]: the match starts at [a]. *)
Lemma pexec_TM_operands (sp a b c d e f rest : jsstring) :
  sp <> [] -> forallb isInlineSpace sp = true ->
  Forall isOperand [a; b; c; d; e; f] ->
  tmGroups (js "BT" ++ sp ++ a ++ sp ++ b ++ sp ++ c ++ sp ++ d ++ sp ++ e
            ++ sp ++ f ++ sp ++ js "Tm" ++ rest)
  = Some [a; b; c; d; e; f].
Proof.
  intros Ns Fs F.
  repeat match goal with
         | H : Forall _ (_ :: _) |- _ =>
             let O := fresh "O" in inversion H as [|? ? O ?]; subst; clear H
         end.
  assert (Fs' : forallb (inCharClass Space) sp = true) by solve_forallb.
  pose proof (isOperand_token a O) as Ta.
  pose proof (isOperand_token b O0) as Tb.
  pose proof (isOperand_token c O1) as Tc.
  pose proof (isOperand_token d O2) as Td.
  pose proof (isOperand_token e O3) as Te.
  pose proof (isOperand_token f O4) as Tf.
  set (S' := a ++ sp ++ b ++ sp ++ c ++ sp ++ d ++ sp ++ e ++ sp ++ f ++ sp
             ++ js "Tm" ++ rest).
  assert (A0 : forall t1 : jsstring,
             t1 <> [] -> forallb (inCharClass NonSpace) t1 = true ->
             pmatch TM ((t1 ++ sp ++ S' : jsstring), []) = []).
  { intros t1 N1 F1. unfold S'.
    rewrite TM_on_operands.
    - now apply isOperand_not_Tm.
    - exact Ns.
    - exact Fs'.
    - repeat (constructor; [auto|]). constructor.
    - destruct Tf as [Nf Tf]. now apply notStarting_Space_token. }
  assert (A3 : pmatch TM ((S' : jsstring), [])
               = [(rest, [a; b; c; d; e; f])]).
  { unfold S'. rewrite TM_on_operands.
    - apply pmatch_literal_here.
    - exact Ns.
    - exact Fs'.
    - repeat (constructor; [auto|]). constructor.
    - reflexivity. }
  unfold tmGroups.
  assert (E : pexec TM (js "BT" ++ sp ++ S') = pexec TM S').
  { transitivity (pexec TM ([84%N] ++ sp ++ S')).
    - apply (pexec_skip TM [66%N] ([84%N] ++ sp ++ S')).
      intros i Hi. assert (i = 0%nat) as -> by (simpl in Hi; lia).
      apply (A0 (js "BT")); [discriminate|reflexivity].
    - transitivity (pexec TM (sp ++ S')).
      + apply (pexec_skip TM [84%N] (sp ++ S')).
        intros i Hi. assert (i = 0%nat) as -> by (simpl in Hi; lia).
        apply (A0 [84%N]); [discriminate|reflexivity].
      + apply pexec_skip. intros i Hi.
        destruct (skipn_head i sp Hi) as (c0 & t & -> & Hc).
        rewrite forallb_forall in Fs'. unfold TM.
        apply operandThenSpace_space_first. apply (Fs' c0 Hc). }
  rewrite E. erewrite pexec_here by exact A3. reflexivity.
Qed.

Lemma TJ_not_paren (c : N) (t : jsstring) (caps : list jsstring) :
  (40 =? c)%N = false -> pmatch TJ ((c :: t : jsstring), caps) = [].
Proof.
  intros H. unfold TJ. cbn [pmatch fst snd].
  assert (E : startsWith (js "(") (c :: t) = false)
    by (apply (startsWith_head_ne 40 c [] t); exact H).
  now rewrite E.
Qed.

(** The [Tj] pattern on [... (text) Tj ...], when no parenthesis comes
    before and the text has no closing parenthesis. *)
Lemma pexec_TJ_text (before text sp rest : jsstring) :
  forallb (fun c => negb (40 =? c)%N) before = true ->
  forallb (fun c => negb (isLineTerminator c) && negb (41 =? c)%N) text
  = true ->
  sp <> [] -> forallb isInlineSpace sp = true ->
  tjText (before ++ js "(" ++ text ++ js ")" ++ sp ++ js "Tj" ++ rest)
  = Some text.
Proof.
  intros Fb Ft Ns Fs. unfold tjText.
  rewrite pexec_skip.
  2:{ intros i Hi. destruct (skipn_head i before Hi) as (c0 & t & -> & Hc).
      rewrite forallb_forall in Fb. specialize (Fb c0 Hc).
      apply negb_true_iff in Fb. cbn [app]. now apply TJ_not_paren. }
  assert (H : exists tl,
             pmatch TJ ((js "(" ++ text ++ js ")" ++ sp ++ js "Tj" ++ rest
                         : jsstring), [])
             = (rest, [text]) :: tl).
  { unfold TJ.
    rewrite pmatch_Then, pmatch_literal_here, flat_map_one.
    rewrite pmatch_Then, pmatch_Group_LazyStar, flat_map_map.
    rewrite flat_map_lazyEnds.
    - destruct (lazyEnds_head AnyChar (js ")" ++ sp ++ js "Tj" ++ rest))
        as (tl & ->).
      cbn [flat_map].
      rewrite pmatch_Then, pmatch_literal_here, flat_map_one.
      rewrite consumed_app.
      rewrite pmatch_Then, pmatch_Star, map_app, flat_map_app, flat_map_map.
      rewrite flat_map_plusEnds.
      + rewrite pmatch_literal_here. cbn [app]. eexists. reflexivity.
      + exact Ns.
      + solve_forallb.
      + reflexivity.
      + intros i Hi. destruct (skipn_head i sp) as (c0 & t & -> & Hc); [lia|].
        rewrite forallb_forall in Fs. specialize (Fs c0 Hc).
        cbn [fst app].
        assert (E : startsWith (js "Tj") (c0 :: t ++ js "Tj" ++ rest) = false)
          by (apply (startsWith_head_ne 84 c0 [106%N]); char_facts).
        cbn [pmatch fst snd]. now rewrite E.
    - solve_forallb.
    - intros i Hi. destruct (skipn_head i text Hi) as (c0 & t & -> & Hc).
      rewrite forallb_forall in Ft. specialize (Ft c0 Hc).
      cbn [pmatch fst snd app].
      assert (E : startsWith (js ")")
                    (c0 :: t ++ js ")" ++ sp ++ js "Tj" ++ rest) = false)
        by (apply (startsWith_head_ne 41 c0 []); char_facts).
      now rewrite E. }
  destruct H as (tl & H).
  erewrite pexec_here by exact H. reflexivity.
Qed.

(** A string without a closing parenthesis has no [Tj] match. *)
Lemma pexec_TJ_none (s : jsstring) :
  forallb (fun c => negb (41 =? c)%N) s = true -> tjText s = None.
Proof.
  intros F. unfold tjText. rewrite pexec_none; [reflexivity|].
  intros i _. unfold TJ. cbn [pmatch fst snd].
  destruct (startsWith (js "(") (skipn i s)); [|reflexivity].
  rewrite flat_map_one. cbn [fst snd]. apply flat_map_nil. intros st Hst.
  rewrite map_map in Hst. apply in_map_iff in Hst.
  destruct Hst as (a & <- & Ha). cbn [fst snd].
  apply in_lazyEnds_suffix in Ha. destruct Ha as (x & Ex).
  destruct a as [|c0 a']; [reflexivity|].
  assert (Hc : In c0 s).
  { assert (In c0 (skipn (List.length (js "(")) (skipn i s)))
      by (rewrite Ex; apply in_or_app; right; now left).
    rewrite skipn_skipn in H.
    rewrite <- (firstn_skipn (List.length (js "(") + i) s).
    apply in_or_app. now right. }
  rewrite forallb_forall in F. specialize (F c0 Hc).
  apply negb_true_iff in F.
  assert (E : startsWith (js ")") (c0 :: a') = false)
    by (apply (startsWith_head_ne 41 c0 []); exact F).
  now rewrite E.
Qed.

(** The block pattern on [BT inner ET rest], when [ET] starts nowhere
    before. *)
Lemma pmatch_BT_ET_block (inner rest : jsstring) :
  forallb (inCharClass AnyChar) inner = true ->
  (forall i, (i < List.length inner)%nat ->
             startsWith (js "ET") (skipn i (inner ++ js "ET" ++ rest))
             = false) ->
  exists tl,
    pmatch BT_ET ((js "BT" ++ inner ++ js "ET" ++ rest : jsstring), [])
    = (rest, [inner]) :: tl.
Proof.
  intros F Hn. unfold BT_ET.
  rewrite pmatch_Then, pmatch_literal_here, flat_map_one.
  rewrite pmatch_Then, pmatch_Group_LazyStar, flat_map_map.
  rewrite flat_map_lazyEnds.
  - destruct (lazyEnds_head AnyChar (js "ET" ++ rest)) as (tl & ->).
    cbn [flat_map]. rewrite pmatch_literal_here, consumed_app.
    cbn [app]. eexists. reflexivity.
  - exact F.
  - intros i Hi. specialize (Hn i Hi). rewrite skipn_app_lt in Hn by exact Hi.
    cbn [pmatch fst snd]. now rewrite Hn.
Qed.

Lemma pmatchAll_pass (p : pattern) (x r : jsstring) :
  pmatchAll p (List.length x) (x ++ r) = pmatchAll p 0 r.
Proof.
  induction x as [|c x IH]; [reflexivity|]. exact IH.
Qed.

Lemma pmatchAll_first (p : pattern) (b rest : jsstring)
    (groups : list jsstring) (tl : list mstate) :
  b <> [] ->
  pmatch p ((b ++ rest : jsstring), []) = (rest, groups) :: tl ->
  pmatchAll p 0 (b ++ rest) = b :: pmatchAll p 0 rest.
Proof.
  intros N H. destruct b as [|c b]; [congruence|].
  cbn [app] in H |- *. cbn [pmatchAll]. rewrite H.
  change (c :: b ++ rest) with ((c :: b) ++ rest).
  rewrite consumed_app. cbn [List.length].
  rewrite Nat.sub_succ, Nat.sub_0_r, pmatchAll_pass. reflexivity.
Qed.

Lemma BT_ET_not_BT (s : jsstring) :
  startsWith (js "BT") s = false -> pmatch BT_ET (s, []) = [].
Proof. intros H. unfold BT_ET. cbn [pmatch fst snd]. now rewrite H. Qed.

Lemma pmatchAll_skip_prefix (p : pattern) (x s : jsstring) :
  (forall i, (i < List.length x)%nat ->
             pmatch p ((skipn i x ++ s : jsstring), []) = []) ->
  pmatchAll p 0 (x ++ s) = pmatchAll p 0 s.
Proof.
  induction x as [|c x IH]; intros H; [reflexivity|].
  cbn [pmatchAll app].
  pose proof (H 0%nat) as H0. cbn [skipn app] in H0.
  rewrite H0 by (simpl; lia).
  apply IH. intros i Hi. apply (H (S i)). simpl. lia.
Qed.

(** Two characters that start nowhere in [x1 ++ x2 ++ x3]: the first is
    not in [x1] nor in [x3], and the pair is not in [x2]. *)
Lemma two_chars_nowhere (c0 c1 : N) (x1 x2 x3 tail : jsstring) :
  forallb (fun c => negb (c0 =? c)%N) x1 = true ->
  includes x2 [c0; c1] = false ->
  match x3 ++ tail with [] => True | c :: _ => (c1 =? c)%N = false end ->
  forallb (fun c => negb (c0 =? c)%N) x3 = true ->
  forall i, (i < List.length x1 + (List.length x2 + List.length x3))%nat ->
            startsWith [c0; c1] (skipn i (x1 ++ x2 ++ x3 ++ tail)) = false.
Proof.
  intros F1 I2 H3 F3.
  apply startsWith_nowhere_app.
  - intros i Hi. now apply startsWith_nowhere.
  - apply startsWith_nowhere_app.
    + intros i Hi. now apply startsWith_not_included.
    + intros i Hi. rewrite skipn_app_lt by exact Hi.
      now apply startsWith_nowhere.
Qed.

Lemma textBlocksOf_skip (pre s : jsstring) :
  includes pre (js "BT") = false ->
  startsWith (js "B") s = true ->
  textBlocksOf (pre ++ s) = textBlocksOf s.
Proof.
  intros I Hs. unfold textBlocksOf. apply pmatchAll_skip_prefix.
  intros i Hi. apply BT_ET_not_BT.
  apply (startsWith_not_included 66 84 pre s i I); [|exact Hi].
  apply startsWith_iff in Hs. destruct Hs as (post & ->). reflexivity.
Qed.

(** The block pattern on the stream from [BT] on: the block ends at the
    first [ET]. *)
Lemma block_at_first_ET (u t v rest : jsstring) :
  forallb (fun ch => negb (isLineTerminator ch) && negb (69 =? ch)%N) u
  = true ->
  forallb (fun ch => negb (isLineTerminator ch)) t = true ->
  includes t (js "ET") = false ->
  forallb (fun ch => negb (isLineTerminator ch) && negb (69 =? ch)%N) v
  = true ->
  match v with [] => True | ch :: _ => (84 =? ch)%N = false end ->
  textBlocksOf (js "BT" ++ (u ++ t ++ v) ++ js "ET" ++ rest)
  = (js "BT" ++ (u ++ t ++ v) ++ js "ET") :: textBlocksOf rest.
Proof.
  intros Fu Ft It Fv Hv. unfold textBlocksOf.
  destruct (pmatch_BT_ET_block (u ++ t ++ v) rest) as (tl & H).
  - rewrite !forallb_app. repeat (apply andb_true_intro; split).
    + eapply forallb_impl; [|exact Fu]. intros ch Hc. char_facts.
    + exact Ft.
    + eapply forallb_impl; [|exact Fv]. intros ch Hc. char_facts.
  - intros i Hi. rewrite <- !app_assoc.
    apply (two_chars_nowhere 69 84 u t v (js "ET" ++ rest)).
    + eapply forallb_impl; [|exact Fu]. intros ch Hc. char_facts.
    + exact It.
    + destruct v; [reflexivity|exact Hv].
    + eapply forallb_impl; [|exact Fv]. intros ch Hc. char_facts.
    + rewrite !length_app in Hi. lia.
  - replace (js "BT" ++ (u ++ t ++ v) ++ js "ET" ++ rest)
      with ((js "BT" ++ (u ++ t ++ v) ++ js "ET") ++ rest)
      by (now rewrite <- !app_assoc).
    apply pmatchAll_first with (groups := [u ++ t ++ v]) (tl := tl).
    + discriminate.
    + rewrite <- !app_assoc. rewrite <- !app_assoc in H. exact H.
Qed.

Section TextObject.

Variables sp a b c d e f : jsstring.
Hypothesis separated : sp <> [].
Hypothesis inline : forallb isInlineSpace sp = true.
Hypothesis operands : Forall isOperand [a; b; c; d; e; f].


Lemma textObject_parts (text : jsstring) :
  textObject sp a b c d e f text
  = js "BT" ++ (beforeString sp a b c d e f ++ text ++ behindString sp)
    ++ js "ET".
Proof.
  unfold textObject, beforeString, behindString.
  now rewrite <- !app_assoc.
Qed.

Lemma operand_chars :
  Forall (fun t => forallb isOperandChar t = true) [a; b; c; d; e; f].
Proof.
  eapply Forall_impl; [|exact operands]. now intros t [_ F].
Qed.

Lemma beforeString_chars (q : N -> bool) :
  (forall ch, isOperandChar ch = true -> q ch = true) ->
  (forall ch, isInlineSpace ch = true -> q ch = true) ->
  forallb q (js "Tm") = true -> forallb q (js "(") = true ->
  forallb q (beforeString sp a b c d e f) = true.
Proof.
  intros Ho Hs L1 L2. pose proof operand_chars as F.
  repeat match goal with
         | H : Forall _ (_ :: _) |- _ =>
             let O := fresh "O" in inversion H as [|? ? O ?]; subst; clear H
         end.
  assert (S' : forallb q sp = true) by (now apply (forallb_impl isInlineSpace)).
  unfold beforeString. rewrite !forallb_app, S', L1, L2.
  rewrite !(forallb_impl isOperandChar q _ Ho) by assumption.
  reflexivity.
Qed.

Lemma behindString_chars (q : N -> bool) :
  (forall ch, isInlineSpace ch = true -> q ch = true) ->
  forallb q (js ")") = true -> forallb q (js "Tj") = true ->
  forallb q (behindString sp) = true.
Proof.
  intros Hs L1 L2.
  assert (S' : forallb q sp = true) by (now apply (forallb_impl isInlineSpace)).
  unfold behindString. rewrite !forallb_app, S', L1, L2. reflexivity.
Qed.

Lemma textObject_tmGroups (text : jsstring) :
  tmGroups (textObject sp a b c d e f text) = Some [a; b; c; d; e; f].
Proof.
  apply (pexec_TM_operands sp a b c d e f
           (sp ++ js "(" ++ text ++ js ")" ++ sp ++ js "Tj" ++ sp
            ++ js "ET"));
    assumption.
Qed.

Lemma textObject_tjText (text : jsstring) :
  forallb (fun ch => negb (isLineTerminator ch) && negb (41 =? ch)%N) text
  = true ->
  tjText (textObject sp a b c d e f text) = Some text.
Proof.
  intros Ft.
  replace (textObject sp a b c d e f text)
    with ((js "BT" ++ sp ++ a ++ sp ++ b ++ sp ++ c ++ sp ++ d ++ sp ++ e
           ++ sp ++ f ++ sp ++ js "Tm" ++ sp)
          ++ js "(" ++ text ++ js ")" ++ sp ++ js "Tj" ++ sp ++ js "ET")
    by (unfold textObject; now rewrite <- !app_assoc).
  apply pexec_TJ_text; try assumption.
  pose proof operand_chars as F.
  repeat match goal with
         | H : Forall _ (_ :: _) |- _ =>
             let O := fresh "O" in inversion H as [|? ? O ?]; subst; clear H
         end.
  solve_forallb.
Qed.

End TextObject.

Lemma app_assoc_3 (x y z post : jsstring) :
  (x ++ y ++ z) ++ post = x ++ y ++ z ++ post.
Proof. now rewrite <- !app_assoc. Qed.

Lemma textObject_items (parseFloat : jsstring -> num)
    (pre sp a b c d e f text post : jsstring) :
  includes pre (js "BT") = false ->
  sp <> [] -> forallb isInlineSpace sp = true ->
  Forall isOperand [a; b; c; d; e; f] ->
  forallb (fun ch => negb (isLineTerminator ch) && negb (41 =? ch)%N) text
  = true ->
  includes text (js "ET") = false ->
  textItemsOfStream parseFloat
    (pre ++ textObject sp a b c d e f text ++ post)
  = itemOfOperands parseFloat a d e f text :: textItemsOfStream parseFloat post.
Proof.
  intros Hpre Ns Fs Fo Ft It. unfold textItemsOfStream.
  rewrite textBlocksOf_skip; [|exact Hpre|reflexivity].
  rewrite textObject_parts, app_assoc_3.
  rewrite block_at_first_ET.
  - cbn [getTextItemsWithCoords]. unfold textItemOfBlock.
    rewrite <- textObject_parts.
    rewrite textObject_tmGroups, textObject_tjText by assumption.
    reflexivity.
  - apply beforeString_chars; try assumption; try reflexivity;
      intros; char_facts.
  - eapply forallb_impl; [|exact Ft]. intros ch Hc. char_facts.
  - exact It.
  - apply behindString_chars; try assumption; try reflexivity;
      intros; char_facts.
  - reflexivity.
Qed.

(** X10.  [getTextItemsWithCoords]: a text object written on one line,
    [BT a b c d e f Tm (text) Tj ET] with digits, signs and points as
    operands, where [text] has no closing parenthesis, no line break and
    does not contain [ET], yields exactly one item: [text] at
    [(parseFloat e, parseFloat f)], as high as the font size and
    [text.length * fontSize * 0.55] wide.  What precedes the object is
    skipped when it does not contain [BT], and the extraction goes on
    behind the object. *)
Theorem text_object_is_extracted (parseFloat : jsstring -> num)
    (pre sp a b c d e f text post : jsstring) :
  includes pre (js "BT") = false ->
  sp <> [] -> forallb isInlineSpace sp = true ->
  Forall isOperand [a; b; c; d; e; f] ->
  forallb (fun ch => negb (isLineTerminator ch) && negb (41 =? ch)%N) text
  = true ->
  includes text (js "ET") = false ->
  let fontSize :=
    if parseFloat a >? lit 0 then parseFloat a else parseFloat d in
  textItemsOfStream parseFloat
    (pre ++ textObject sp a b c d e f text ++ post)
  = Item.mk text
      (Box.mk (parseFloat e) (parseFloat f)
         (lit (Z.of_nat (List.length text)) * fontSize * lit_0_55) fontSize)
    :: textItemsOfStream parseFloat post.
Proof.
  intros Hpre Ns Fs Fo Ft It fontSize.
  now rewrite textObject_items.
Qed.

Lemma text_object_is_extracted_witness :
  textItemsOfStream parseIntegerOperand
    (js "q " ++ textObject (js " ") (js "8") (js "0") (js "0") (js "8")
                  (js "100") (js "92") (js "B0ABCDEFGH") ++ js " Q")
  = Item.mk (js "B0ABCDEFGH")
      (Box.mk (lit 100) (lit 92) (lit 10 * lit 8 * lit_0_55) (lit 8))
    :: textItemsOfStream parseIntegerOperand (js " Q").
Proof.
  apply (text_object_is_extracted parseIntegerOperand (js "q ") (js " ")
           (js "8") (js "0") (js "0") (js "8") (js "100") (js "92")
           (js "B0ABCDEFGH") (js " Q")).
  - reflexivity.
  - discriminate.
  - reflexivity.
  - repeat (constructor; [split; [discriminate|reflexivity]|]). constructor.
  - reflexivity.
  - reflexivity.
Defined.

(** X11.  [getTextItemsWithCoords]: when the string of such a text object
    contains [ET], the block ends at the first [ET] of the string, has no
    [Tj] match and yields no item; the extraction goes on in the rest of the
    string. *)
Theorem string_with_ET_is_cut (parseFloat : jsstring -> num)
    (pre sp a b c d e f t1 t2 post : jsstring) :
  includes pre (js "BT") = false ->
  sp <> [] -> forallb isInlineSpace sp = true ->
  Forall isOperand [a; b; c; d; e; f] ->
  forallb (fun ch => negb (isLineTerminator ch) && negb (41 =? ch)%N) t1
  = true ->
  includes t1 (js "ET") = false ->
  textItemsOfStream parseFloat
    (pre ++ textObject sp a b c d e f (t1 ++ js "ET" ++ t2) ++ post)
  = textItemsOfStream parseFloat
      (t2 ++ js ")" ++ sp ++ js "Tj" ++ sp ++ js "ET" ++ post).
Proof.
  intros Hpre Ns Fs Fo Ft It. unfold textItemsOfStream.
  rewrite textBlocksOf_skip; [|exact Hpre|reflexivity].
  replace (textObject sp a b c d e f (t1 ++ js "ET" ++ t2) ++ post)
    with (js "BT" ++ (beforeString sp a b c d e f ++ t1 ++ []) ++ js "ET"
          ++ (t2 ++ js ")" ++ sp ++ js "Tj" ++ sp ++ js "ET" ++ post))
    by (unfold textObject, beforeString;
        now rewrite app_nil_r, <- !app_assoc).
  rewrite block_at_first_ET.
  - cbn [getTextItemsWithCoords]. unfold textItemOfBlock.
    rewrite (pexec_TJ_none
               (js "BT" ++ (beforeString sp a b c d e f ++ t1 ++ [])
                ++ js "ET")).
    + now destruct (tmGroups _).
    + rewrite !forallb_app. repeat (apply andb_true_intro; split);
        try reflexivity.
      * apply beforeString_chars; try assumption; try reflexivity;
          intros; char_facts.
      * eapply forallb_impl; [|exact Ft]. intros ch Hc. char_facts.
  - apply beforeString_chars; try assumption; try reflexivity;
      intros; char_facts.
  - eapply forallb_impl; [|exact Ft]. intros ch Hc. char_facts.
  - exact It.
  - reflexivity.
  - exact I.
Qed.

Lemma string_with_ET_is_cut_witness :
  textItemsOfStream parseIntegerOperand
    (js "q " ++ textObject (js " ") (js "8") (js "0") (js "0") (js "8")
                  (js "100") (js "92") (js "B0" ++ js "ET" ++ js "ABCDEF")
     ++ js " Q")
  = textItemsOfStream parseIntegerOperand
      (js "ABCDEF" ++ js ")" ++ js " " ++ js "Tj" ++ js " " ++ js "ET"
       ++ js " Q").
Proof.
  apply (string_with_ET_is_cut parseIntegerOperand (js "q ") (js " ")
           (js "8") (js "0") (js "0") (js "8") (js "100") (js "92")
           (js "B0") (js "ABCDEF") (js " Q")).
  - reflexivity.
  - discriminate.
  - reflexivity.
  - repeat (constructor; [split; [discriminate|reflexivity]|]). constructor.
  - reflexivity.
  - reflexivity.
Defined.

(** X17.  [getTextItemsWithCoords]: a [BT] that is directly followed by a
    line break opens no block, because [.] does not match a line
    terminator: the extraction goes on behind the line break as if the
    [BT] were not there.  A text object written with one operator per line
    is therefore not extracted. *)
Theorem line_break_after_BT (parseFloat : jsstring -> num)
    (pre rest : jsstring) (c : N) :
  includes pre (js "BT") = false ->
  isLineTerminator c = true ->
  textItemsOfStream parseFloat (pre ++ js "BT" ++ c :: rest)
  = textItemsOfStream parseFloat rest.
Proof.
  intros Hpre Hc. unfold textItemsOfStream. f_equal.
  rewrite textBlocksOf_skip; [|exact Hpre|reflexivity].
  unfold textBlocksOf.
  assert (E0 : pmatch BT_ET ((js "BT" ++ c :: rest : jsstring), []) = []).
  { unfold BT_ET.
    rewrite pmatch_Then, pmatch_literal_here, flat_map_one.
    rewrite pmatch_Then, pmatch_Group_LazyStar, flat_map_map.
    cbn [lazyEnds inCharClass]. rewrite Hc. cbn [negb flat_map].
    rewrite app_nil_r. cbn [pmatch fst snd].
    assert (E : startsWith (js "ET") (c :: rest) = false)
      by (apply (startsWith_head_ne 69 c [84%N]); char_facts).
    now rewrite E. }
  assert (E1 : pmatch BT_ET ((84%N :: c :: rest : jsstring), []) = [])
    by (now apply BT_ET_not_BT).
  assert (E2 : pmatch BT_ET ((c :: rest : jsstring), []) = []).
  { apply BT_ET_not_BT. apply (startsWith_head_ne 66 c [84%N]). char_facts. }
  change (js "BT" ++ c :: rest) with (66%N :: 84%N :: c :: rest) in *.
  cbn [pmatchAll]. rewrite E0, E1, E2. reflexivity.
Qed.

Lemma line_break_after_BT_witness :
  textItemsOfStream parseIntegerOperand
    (js "q " ++ js "BT"
     ++ 10%N :: js "8 0 0 8 100 92 Tm (B0ABCDEFGH) Tj ET")
  = textItemsOfStream parseIntegerOperand
      (js "8 0 0 8 100 92 Tm (B0ABCDEFGH) Tj ET").
Proof.
  apply (line_break_after_BT parseIntegerOperand (js "q ")
           (js "8 0 0 8 100 92 Tm (B0ABCDEFGH) Tj ET") 10%N).
  - reflexivity.
  - reflexivity.
Defined.

(** ** The request handlers *)

Local Open Scope string_scope.
Local Open Scope list_scope.

Lemma allOrNothing_Some {A B : Type} (f : A -> option B) (l : list A)
    (bs : list B) :
  allOrNothing f l = Some bs <-> Forall2 (fun a b => f a = Some b) l bs.
Proof.
  revert bs. induction l as [|a l IH]; intros bs; simpl.
  - split.
    + intros H. injection H as <-. constructor.
    + intros H. inversion H. reflexivity.
  - destruct (f a) as [b|] eqn:Ea.
    + destruct (allOrNothing f l) as [bs'|] eqn:El.
      * split.
        -- intros H. injection H as <-. constructor; [exact Ea|].
           now apply IH.
        -- intros H. inversion H as [|? b' ? bs'' Hb Hr]; subst.
           apply IH in Hr. congruence.
      * split; [discriminate|].
        intros H. inversion H as [|? b' ? bs'' Hb Hr]; subst.
        apply IH in Hr. discriminate.
    + split; [discriminate|].
      intros H. inversion H; subst. congruence.
Qed.

Section HandlerFacts.

Variable document : Type.
Variable page : Type.
Variable load : list N -> option document.
Variable getPages : document -> list page.
Variable heightOf : page -> num.
Variable contentOf : page -> option jsstring.
Variable save : document -> list (list drawOp) -> list N.
Variable toLowerCase : jsstring -> jsstring.
Variable widthOfTextAtSize : jsstring -> num -> num.
Variable parseFloat : jsstring -> num.
Variable parseInt : jsstring -> num.

(** X14.  [onRequest]: the response carries a document exactly when the
    method is [POST], the form could be read, its [file] is a file, the
    document could be loaded and every page could be processed; the
    document is then the one saved after the drawing calls of all pages, in
    page order.  The status is 200 only then and for [OPTIONS], and it is
    always one of 200, 400, 405 and 500. *)
Theorem document_returned_iff (req : request) (out : list N) :
  let r := onRequest load getPages heightOf contentOf save toLowerCase
             widthOfTextAtSize parseFloat parseInt req in
  (responseBody r = BodyBytes out
   <-> method req = "POST"
       /\ exists form name bytes pdfDoc drawings,
            formData req = Some form
            /\ form "file" = FormFile name bytes
            /\ load bytes = Some pdfDoc
            /\ Forall2
                 (fun p ops =>
                    drawingsOfPage heightOf contentOf toLowerCase
                      widthOfTextAtSize parseFloat parseInt form p
                    = Some ops)
                 (getPages pdfDoc) drawings
            /\ out = save pdfDoc drawings)
  /\ (status r = 200%nat
      <-> method req = "OPTIONS"
          \/ exists bytes, responseBody r = BodyBytes bytes)
  /\ In (status r) [200; 400; 405; 500]%nat.
Proof.
  intros r. subst r. unfold onRequest.
  destruct (String.eqb (method req) "OPTIONS") eqn:Eo.
  { apply String.eqb_eq in Eo. split; [|split].
    - split; [discriminate|]. intros [Ep _]. rewrite Eo in Ep. discriminate.
    - split; [now left|reflexivity].
    - simpl. auto. }
  apply String.eqb_neq in Eo.
  destruct (String.eqb (method req) "POST") eqn:Ep; cbn [negb].
  2:{ apply String.eqb_neq in Ep. split; [|split].
      - split; [discriminate|]. now intros [E _].
      - split; [discriminate|]. intros [E|(b & E)]; [easy|discriminate].
      - simpl. auto. }
  apply String.eqb_eq in Ep.
  destruct (formData req) as [form|] eqn:Ef.
  2:{ split; [|split].
      - split; [discriminate|]. intros (_ & form & ? & ? & ? & ? & E & _).
        discriminate.
      - split; [discriminate|]. intros [E|(b & E)]; [easy|discriminate].
      - simpl. auto. }
  destruct (form "file") as [|s|name bytes] eqn:Efile.
  1,2: split; [|split];
    [ split; [discriminate|];
      intros (_ & form' & ? & ? & ? & ? & E & E' & _);
      injection E as <-; congruence
    | split; [discriminate|]; intros [E|(b & E)]; [easy|discriminate]
    | simpl; auto ].
  unfold processFile.
  destruct (load bytes) as [pdfDoc|] eqn:El.
  2:{ split; [|split].
      - split; [discriminate|].
        intros (_ & form' & ? & ? & ? & ? & E & E' & E'' & _).
        injection E as <-. congruence.
      - split; [discriminate|]. intros [E|(b & E)]; [easy|discriminate].
      - simpl. auto. }
  destruct (allOrNothing _ (getPages pdfDoc)) as [drawings|] eqn:Ea.
  - split; [|split].
    + split.
      * intros E. injection E as <-. split; [exact Ep|].
        exists form, name, bytes, pdfDoc, drawings.
        repeat split; auto. now apply allOrNothing_Some.
      * intros (_ & form' & name' & bytes' & doc' & dr' & E1 & E2 & E3 & E4
                & ->).
        injection E1 as <-. rewrite Efile in E2. injection E2 as <- <-.
        rewrite El in E3. injection E3 as <-.
        apply allOrNothing_Some in E4. rewrite Ea in E4.
        injection E4 as <-. reflexivity.
    + split; [|reflexivity]. intros _. right. eexists. reflexivity.
    + simpl. auto.
  - split; [|split].
    + split; [discriminate|].
      intros (_ & form' & name' & bytes' & doc' & dr' & E1 & E2 & E3 & E4
              & _).
      injection E1 as <-. rewrite Efile in E2. injection E2 as <- <-.
      rewrite El in E3. injection E3 as <-.
      apply allOrNothing_Some in E4. congruence.
    + split; [discriminate|]. intros [E|(b & E)]; [easy|discriminate].
    + simpl. auto.
Qed.

(** X15.  [onRequest]: every text drawn on a page is [Made in China], and
    is drawn only when the form says [addMadeInChina] is ['true']; its size
    is what [parseInt] makes of the form's [fontSize] unless that is NaN or
    0, then it is 8: the size is never NaN and never 0. *)
Theorem inserted_text_size (form : string -> formValue) (p : page)
    (ops : list drawOp) (text : jsstring) (x y size : num) :
  drawingsOfPage heightOf contentOf toLowerCase widthOfTextAtSize parseFloat
    parseInt form p = Some ops ->
  In (DrawText text x y size) ops ->
  text = MadeInChina
  /\ form "addMadeInChina" = FormString (js "true")
  /\ numTruthy size = true
  /\ size = (let parsed := parseInt (stringOf (form "fontSize")) in
             match parsed with
             | NaN => lit 8
             | Fin q => if Qeq_bool q 0 then lit 8 else parsed
             | _ => parsed
             end).
Proof.
  unfold drawingsOfPage. intros H Hin.
  destruct (contentOf p) as [contentStream|]; [|discriminate].
  destruct (textToRemoveOf form) as [textToRemove|].
  2:{ destruct (findLabelsByFnsku _ _); [|discriminate].
      injection H as <-. destruct Hin. }
  injection H as <-.
  unfold processPage in Hin. apply in_flat_map in Hin.
  destruct Hin as (label & _ & Hin).
  unfold processLabel in Hin. apply in_app_or in Hin.
  destruct Hin as [Hin|Hin].
  { unfold removalStep in Hin. destruct (truthy textToRemove); [|destruct Hin].
    apply in_map_iff in Hin. destruct Hin as (? & E & _). discriminate. }
  unfold insertionStep in Hin.
  destruct (addMadeInChinaOf form) eqn:Ea; [|destruct Hin].
  destruct Hin as [E|[]]. injection E as <- _ _ <-.
  split; [reflexivity|]. split.
  { unfold addMadeInChinaOf in Ea.
    destruct (form "addMadeInChina") as [|s|]; try discriminate.
    destruct (list_eq_dec N.eq_dec s (js "true")); [now subst|discriminate]. }
  unfold fontSizeOf. cbv zeta.
  destruct (parseInt (stringOf (form "fontSize"))) as [| |q|]; simpl;
    try (split; reflexivity).
  destruct (Qeq_bool q 0) eqn:Eq; simpl; [split; reflexivity|].
  now rewrite Eq.
Qed.

End HandlerFacts.

Lemma inserted_text_size_witness :
  In (DrawText MadeInChina (Fin (19400 # 200)) (Fin 94) (lit 8))
     (processPage asciiLower (fun _ _ => lit 50) [] true (lit 8)
        (textItemsOfStream parseIntegerOperand
           (js "BT 8 0 0 8 100 92 Tm (B0ABCDEFGH) Tj ET"))
        (lit 800))
  /\ numTruthy (lit 8) = true.
Proof.
  assert (H : In (DrawText MadeInChina (Fin (19400 # 200)) (Fin 94) (lit 8))
                (processPage asciiLower (fun _ _ => lit 50) [] true (lit 8)
                   (textItemsOfStream parseIntegerOperand
                      (js "BT 8 0 0 8 100 92 Tm (B0ABCDEFGH) Tj ET"))
                   (lit 800)))
    by (vm_compute; left; reflexivity).
  split; [exact H|].
  apply (inserted_text_size unit
           (fun _ => lit 800)
           (fun _ => Some (js "BT 8 0 0 8 100 92 Tm (B0ABCDEFGH) Tj ET"))
           asciiLower (fun _ _ => lit 50)
           parseIntegerOperand parseIntegerOperand
           (fun name =>
              if String.eqb name "addMadeInChina"
              then FormString (js "true") else FormNull)
           tt _ MadeInChina (Fin (19400 # 200)) (Fin 94) (lit 8)
           eq_refl H).
Defined.

Local Close Scope string_scope.

(** ** The handler that applies the modifications of the client *)

Local Open Scope string_scope.
Local Open Scope list_scope.

Section ModificationsFacts.

Variable document : Type.
Variable page : Type.
Variable load : list N -> option document.
Variable getPages : document -> list page.
Variable save : document -> list (list drawCall) -> list N.
Variable JSON_parse : jsstring -> option json.
Variable toNumber : jsvalue -> B64.double.
Variable widthOfTextAtSize : jsvalue -> jsvalue -> option B64.double.
Variable accepted : drawCall -> bool.

Lemma rectangleOf_spec (area : json) (call : drawCall) :
  rectangleOf accepted area = Some call
  <-> exists x y width height,
        get (Some area) (js "x") = Some x
        /\ get (Some area) (js "y") = Some y
        /\ get (Some area) (js "width") = Some width
        /\ get (Some area) (js "height") = Some height
        /\ call = RectangleCall x y width height
        /\ accepted call = true.
Proof.
  unfold rectangleOf. split.
  - destruct (get (Some area) (js "x")) as [x|]; [|discriminate].
    destruct (get (Some area) (js "y")) as [y|]; [|discriminate].
    destruct (get (Some area) (js "width")) as [w|]; [|discriminate].
    destruct (get (Some area) (js "height")) as [h|]; [|discriminate].
    cbv zeta.
    destruct (accepted (RectangleCall x y w h)) eqn:Ea; [|discriminate].
    intros H. injection H as <-. exists x, y, w, h. auto 10.
  - intros (x & y & w & h & -> & -> & -> & -> & -> & Ea).
    cbv zeta. now rewrite Ea.
Qed.

Lemma textOf_spec (textInfo : json) (call : drawCall) :
  textOf toNumber widthOfTextAtSize accepted textInfo = Some call
  <-> exists text fontSize textWidth x y,
        get (Some textInfo) (js "text") = Some text
        /\ get (Some textInfo) (js "fontSize") = Some fontSize
        /\ widthOfTextAtSize text fontSize = Some textWidth
        /\ get (Some textInfo) (js "x") = Some x
        /\ get (Some textInfo) (js "y") = Some y
        /\ call = TextCall text
                    (B64.sub (toNumber x) (B64.div textWidth (B64.lit 2)))
                    y fontSize
        /\ accepted call = true.
Proof.
  unfold textOf. split.
  - destruct (get (Some textInfo) (js "text")) as [text|]; [|discriminate].
    destruct (get (Some textInfo) (js "fontSize")) as [fontSize|];
      [|discriminate].
    destruct (widthOfTextAtSize text fontSize) as [textWidth|] eqn:Ew;
      [|discriminate].
    destruct (get (Some textInfo) (js "x")) as [x|]; [|discriminate].
    destruct (get (Some textInfo) (js "y")) as [y|]; [|discriminate].
    cbv zeta.
    match goal with |- context [accepted ?c] =>
      destruct (accepted c) eqn:Ea; [|discriminate] end.
    intros H. injection H as <-.
    exists text, fontSize, textWidth, x, y. auto 10.
  - intros (text & fontSize & textWidth & x & y
            & -> & -> & Ew & -> & -> & -> & Ea).
    rewrite Ew. cbv zeta. now rewrite Ea.
Qed.

Lemma elementsOf_Some (v : jsvalue) (elements : list json) :
  elementsOf v = Some elements <-> v = Some (JArray elements).
Proof.
  split.
  - destruct v as [[| | | | |]|]; simpl; try discriminate.
    intros H. now injection H as <-.
  - now intros ->.
Qed.

Lemma drawingsOfPageMod_spec (pageMod : jsvalue) (calls : list drawCall) :
  drawingsOfPageMod toNumber widthOfTextAtSize accepted pageMod = Some calls
  <-> (isTruthy pageMod = false /\ calls = [])
      \/ (isTruthy pageMod = true
          /\ exists areas textInfos rectangles texts,
               get pageMod (js "removeAreas") = Some (Some (JArray areas))
               /\ get pageMod (js "addText") = Some (Some (JArray textInfos))
               /\ calls = rectangles ++ texts
               /\ Forall2 (fun area call => rectangleOf accepted area = Some call)
                    areas rectangles
               /\ Forall2 (fun textInfo call =>
                             textOf toNumber widthOfTextAtSize accepted textInfo
                             = Some call)
                    textInfos texts).
Proof.
  unfold drawingsOfPageMod. destruct (isTruthy pageMod) eqn:Et.
  - split.
    + intros H. right. split; [reflexivity|].
      destruct (get pageMod (js "removeAreas")) as [removeAreas|];
        [|discriminate].
      destruct (elementsOf removeAreas) as [areas|] eqn:Ea; [|discriminate].
      apply elementsOf_Some in Ea. subst removeAreas.
      destruct (allOrNothing (rectangleOf accepted) areas)
        as [rectangles|] eqn:Er; [|discriminate].
      destruct (get pageMod (js "addText")) as [addText|]; [|discriminate].
      destruct (elementsOf addText) as [textInfos|] eqn:Ei; [|discriminate].
      apply elementsOf_Some in Ei. subst addText.
      destruct (allOrNothing (textOf toNumber widthOfTextAtSize accepted)
                  textInfos) as [texts|] eqn:Ex; [|discriminate].
      injection H as <-.
      exists areas, textInfos, rectangles, texts.
      repeat split; try reflexivity; now apply allOrNothing_Some.
    + intros [[H _]|[_ H]]; [discriminate|].
      destruct H as (areas & textInfos & rectangles & texts
                     & -> & -> & -> & Fr & Fx).
      apply allOrNothing_Some in Fr. apply allOrNothing_Some in Fx.
      cbn [elementsOf]. rewrite Fr. cbn [elementsOf]. now rewrite Fx.
  - split.
    + intros H. injection H as <-. now left.
    + intros [[_ ->]|[H _]]; [reflexivity|discriminate].
Qed.

Lemma allOrNothing_ext {A B : Type} (f g : A -> option B) (l : list A) :
  (forall a, In a l -> f a = g a) -> allOrNothing f l = allOrNothing g l.
Proof.
  induction l as [|a l IH]; intros H; simpl; [reflexivity|].
  rewrite (H a (or_introl eq_refl)), IH; [reflexivity|].
  intros b Hb. apply H. now right.
Qed.

Lemma drawingsOfIndex_spec (modifications : json) (i : nat)
    (calls : list drawCall) :
  drawingsOfIndex toNumber widthOfTextAtSize accepted modifications i
  = Some calls
  <-> exists pages pageMod,
        get (Some modifications) (js "pages") = Some pages
        /\ index pages i = Some pageMod
        /\ ((isTruthy pageMod = false /\ calls = [])
            \/ (isTruthy pageMod = true
                /\ exists areas textInfos rectangles texts,
                     get pageMod (js "removeAreas")
                     = Some (Some (JArray areas))
                     /\ get pageMod (js "addText")
                        = Some (Some (JArray textInfos))
                     /\ calls = rectangles ++ texts
                     /\ Forall2
                          (fun area call =>
                             exists x y width height,
                               get (Some area) (js "x") = Some x
                               /\ get (Some area) (js "y") = Some y
                               /\ get (Some area) (js "width") = Some width
                               /\ get (Some area) (js "height")
                                  = Some height
                               /\ call = RectangleCall x y width height
                               /\ accepted call = true)
                          areas rectangles
                     /\ Forall2
                          (fun textInfo call =>
                             exists text fontSize textWidth x y,
                               get (Some textInfo) (js "text") = Some text
                               /\ get (Some textInfo) (js "fontSize")
                                  = Some fontSize
                               /\ widthOfTextAtSize text fontSize
                                  = Some textWidth
                               /\ get (Some textInfo) (js "x") = Some x
                               /\ get (Some textInfo) (js "y") = Some y
                               /\ call
                                  = TextCall text
                                      (B64.sub (toNumber x)
                                         (B64.div textWidth (B64.lit 2)))
                                      y fontSize
                               /\ accepted call = true)
                          textInfos texts)).
Proof.
  unfold drawingsOfIndex.
  destruct (get (Some modifications) (js "pages")) as [pages|] eqn:Eg.
  - destruct (index pages i) as [pageMod|] eqn:Ex.
    + rewrite drawingsOfPageMod_spec. split.
      * intros H. exists pages, pageMod.
        split; [reflexivity|]. split; [exact Ex|].
        destruct H as [H|[Ht H]]; [now left|]. right.
        split; [exact Ht|].
        destruct H as (areas & textInfos & rectangles & texts
                       & Ea & Ei & Ec & Fr & Fx).
        exists areas, textInfos, rectangles, texts.
        repeat (split; [assumption|]).
        split.
        -- eapply Forall2_impl; [|exact Fr].
           intros a b. apply rectangleOf_spec.
        -- eapply Forall2_impl; [|exact Fx].
           intros a b. apply textOf_spec.
      * intros (pages' & pageMod' & Ep & Ei & H).
        injection Ep as <-. rewrite Ex in Ei. injection Ei as <-.
        destruct H as [H|[Ht H]]; [now left|]. right.
        split; [exact Ht|].
        destruct H as (areas & textInfos & rectangles & texts
                       & Ea & Ei & Ec & Fr & Fx).
        exists areas, textInfos, rectangles, texts.
        repeat (split; [assumption|]).
        split.
        -- eapply Forall2_impl; [|exact Fr].
           intros a b. apply rectangleOf_spec.
        -- eapply Forall2_impl; [|exact Fx].
           intros a b. apply textOf_spec.
    + split; [discriminate|].
      intros (pages' & pageMod' & Ep & Ei & _).
      injection Ep as <-. rewrite Ex in Ei. discriminate.
  - split; [discriminate|].
    intros (pages' & pageMod' & Ep & _). discriminate.
Qed.

(** X16.  The handler that applies the modifications of the client, on a
    [POST] with a file, a [modifications] field that is not empty and
    parses, and a document that loads: the response carries a document
    exactly when, for every page index [i] of the document in order,
    [modifications.pages[i]] can be read and is either falsy, page [i]
    then getting no call, or has arrays as [removeAreas] and [addText]
    whose elements are all neither [null] nor rejected by the library,
    page [i] then getting one [drawRectangle] per area with the area's
    own [x], [y], [width] and [height] followed by one [drawText] per text
    with its own [text], [y] and [fontSize] and [x] minus half the width
    of the text.  The status is 200 or 500, and the entries of [pages]
    behind the last page are never read. *)
Theorem page_i_gets_entry_i (req : request) (form : string -> formValue)
    (name : jsstring) (bytes : list N) (modifications : json)
    (pdfDoc : document)
    (Hmethod : method req = "POST")
    (Hform : formData req = Some form)
    (Hfile : form "file" = FormFile name bytes)
    (Hfield : formFalsy (form "modifications") = false)
    (Hparse : JSON_parse (stringOf (form "modifications"))
              = Some modifications)
    (Hload : load bytes = Some pdfDoc) :
  (forall out,
      responseBody
        (onRequest' load getPages save JSON_parse toNumber
           widthOfTextAtSize accepted req) = BodyBytes out
      <-> exists drawings,
            out = save pdfDoc drawings
            /\ Forall2
                 (fun i calls =>
                    exists pages pageMod,
                      get (Some modifications) (js "pages") = Some pages
                      /\ index pages i = Some pageMod
                      /\ ((isTruthy pageMod = false /\ calls = [])
                          \/ (isTruthy pageMod = true
                              /\ exists areas textInfos rectangles texts,
                                   get pageMod (js "removeAreas")
                                   = Some (Some (JArray areas))
                                   /\ get pageMod (js "addText")
                                      = Some (Some (JArray textInfos))
                                   /\ calls = rectangles ++ texts
                                   /\ Forall2
                                        (fun area call =>
                                           exists x y width height,
                                             get (Some area) (js "x") = Some x
                                             /\ get (Some area) (js "y")
                                                = Some y
                                             /\ get (Some area) (js "width")
                                                = Some width
                                             /\ get (Some area) (js "height")
                                                = Some height
                                             /\ call
                                                = RectangleCall x y width
                                                    height
                                             /\ accepted call = true)
                                        areas rectangles
                                   /\ Forall2
                                        (fun textInfo call =>
                                           exists text fontSize textWidth x y,
                                             get (Some textInfo) (js "text")
                                             = Some text
                                             /\ get (Some textInfo)
                                                  (js "fontSize")
                                                = Some fontSize
                                             /\ widthOfTextAtSize text fontSize
                                                = Some textWidth
                                             /\ get (Some textInfo) (js "x")
                                                = Some x
                                             /\ get (Some textInfo) (js "y")
                                                = Some y
                                             /\ call
                                                = TextCall text
                                                    (B64.sub (toNumber x)
                                                       (B64.div textWidth
                                                          (B64.lit 2)))
                                                    y fontSize
                                             /\ accepted call = true)
                                        textInfos texts)))
                 (seq 0 (List.length (getPages pdfDoc))) drawings)
  /\ (status
        (onRequest' load getPages save JSON_parse toNumber
           widthOfTextAtSize accepted req) = 200%nat
      \/ status
           (onRequest' load getPages save JSON_parse toNumber
              widthOfTextAtSize accepted req) = 500%nat)
  /\ (forall entries,
         modifications = JObject [(js "pages", JArray entries)] ->
         forall JSON_parse',
           JSON_parse' (stringOf (form "modifications"))
           = Some (JObject
                     [(js "pages",
                       JArray (firstn (List.length (getPages pdfDoc))
                                 entries))]) ->
           onRequest' load getPages save JSON_parse' toNumber
             widthOfTextAtSize accepted req
           = onRequest' load getPages save JSON_parse toNumber
               widthOfTextAtSize accepted req).
Proof.
  assert (E : forall parse,
             onRequest' load getPages save parse toNumber
               widthOfTextAtSize accepted req
             = match applyModifications load getPages save parse toNumber
                       widthOfTextAtSize accepted
                       (stringOf (form "modifications")) bytes with
               | Some modifiedPdfBytes => attachment name modifiedPdfBytes
               | None => mkResponse 500 [ContentType "application/json"]
                           (BodyError ServerFailed)
               end).
  { intros parse. unfold onRequest'.
    rewrite Hmethod, Hform, Hfile, Hfield. reflexivity. }
  split; [|split].
  - intros out. rewrite E. unfold applyModifications.
    rewrite Hparse, Hload. split.
    + intros H.
      destruct (allOrNothing
                  (drawingsOfIndex toNumber widthOfTextAtSize accepted
                     modifications)
                  (seq 0 (List.length (getPages pdfDoc))))
        as [drawings|] eqn:Ed; [|discriminate].
      injection H as <-. exists drawings. split; [reflexivity|].
      apply allOrNothing_Some in Ed.
      eapply Forall2_impl; [|exact Ed].
      intros i calls. apply drawingsOfIndex_spec.
    + intros (drawings & -> & F).
      assert (Ed : allOrNothing
                     (drawingsOfIndex toNumber widthOfTextAtSize accepted
                        modifications)
                     (seq 0 (List.length (getPages pdfDoc)))
                   = Some drawings).
      { apply allOrNothing_Some.
        eapply Forall2_impl; [|exact F].
        intros i calls. apply drawingsOfIndex_spec. }
      rewrite Ed. reflexivity.
  - rewrite E.
    destruct (applyModifications load getPages save JSON_parse toNumber
                widthOfTextAtSize accepted
                (stringOf (form "modifications")) bytes);
      [left|right]; reflexivity.
  - intros entries -> parse' Hparse'. rewrite !E.
    unfold applyModifications. rewrite Hparse, Hparse', Hload.
    rewrite (allOrNothing_ext
               (drawingsOfIndex toNumber widthOfTextAtSize accepted
                  (JObject
                     [(js "pages",
                       JArray (firstn (List.length (getPages pdfDoc))
                                 entries))]))
               (drawingsOfIndex toNumber widthOfTextAtSize accepted
                  (JObject [(js "pages", JArray entries)]))).
    + reflexivity.
    + intros i Hi. apply in_seq in Hi.
      unfold drawingsOfIndex.
      change (get (Some (JObject [(js "pages", JArray entries)]))
                (js "pages")) with (Some (Some (JArray entries))).
      change (get (Some (JObject
                           [(js "pages",
                             JArray (firstn (List.length (getPages pdfDoc))
                                       entries))])) (js "pages"))
        with (Some (Some (JArray (firstn (List.length (getPages pdfDoc))
                                    entries)))).
      unfold index. rewrite nth_error_firstn.
      destruct (Nat.ltb_spec i (List.length (getPages pdfDoc)));
        [reflexivity|lia].
Qed.

End ModificationsFacts.

Lemma page_i_gets_entry_i_witness :
  responseBody
    (onRequest' ModificationsExample.load ModificationsExample.getPages
       ModificationsExample.save
       (fun _ => Some ModificationsExample.modifications)
       ModificationsExample.toNumber ModificationsExample.widthOfTextAtSize
       ModificationsExample.accepted ModificationsExample.req)
  = BodyBytes [2; 0]%N.
Proof.
  apply (proj1
           (page_i_gets_entry_i nat unit ModificationsExample.load
              ModificationsExample.getPages ModificationsExample.save
              (fun _ => Some ModificationsExample.modifications)
              ModificationsExample.toNumber
              ModificationsExample.widthOfTextAtSize
              ModificationsExample.accepted ModificationsExample.req
              ModificationsExample.form (js "a.pdf") [37; 80]%N
              ModificationsExample.modifications 2%nat
              eq_refl eq_refl eq_refl eq_refl eq_refl eq_refl)).
  exists [ [ RectangleCall (Some (ModificationsExample.number 1))
               (Some (ModificationsExample.number 2))
               (Some (ModificationsExample.number 3))
               (Some (ModificationsExample.number 4));
             TextCall (Some (JString (js "Made in China")))
               (B64.lit 45) (Some (ModificationsExample.number 7))
               (Some (ModificationsExample.number 8)) ];
           [] ].
  split; [reflexivity|].
  constructor; [|constructor; [|constructor]].
  - eexists. eexists. split; [reflexivity|]. split; [reflexivity|].
    right. split; [reflexivity|].
    eexists. eexists.
    exists [ RectangleCall (Some (ModificationsExample.number 1))
               (Some (ModificationsExample.number 2))
               (Some (ModificationsExample.number 3))
               (Some (ModificationsExample.number 4)) ].
    eexists.
    split; [reflexivity|]. split; [reflexivity|]. split; [reflexivity|].
    split.
    + constructor; [|constructor].
      do 4 eexists. repeat split; reflexivity.
    + constructor; [|constructor].
      do 5 eexists. repeat split; reflexivity.
  - eexists. eexists. split; [reflexivity|]. split; [reflexivity|].
    left. split; reflexivity.
Defined.

(** An area that is [null] makes [area.x] throw: the answer is 500, and no
    document. *)
Example null_area_fails :
  onRequest' ModificationsExample.load ModificationsExample.getPages
    ModificationsExample.save
    (fun _ => Some ModificationsExample.nullArea)
    ModificationsExample.toNumber ModificationsExample.widthOfTextAtSize
    ModificationsExample.accepted ModificationsExample.req
  = mkResponse 500 [ContentType "application/json"] (BodyError ServerFailed).
Proof. reflexivity. Qed.

Local Close Scope string_scope.
